(** * keyword_fighter: the resilient fetcher and the tolerant JSON extractor

    A shallow embedding of [src/services/keywordService.ts]:
    [extractJsonFromText], [fetchWithTimeout], [fetchWithProxies],
    [fetchSingleTermKeywords], [fetchRelatedKeywords] and the cleaning step of
    [generateRelatedKeywords], with the properties the specification states
    about them.

    JavaScript strings are sequences of UTF-16 code units, JavaScript values
    are the JSON-representable ones, exceptions are an explicit result type,
    and the outside world (the relays, the generative model, the engine's
    error wording) is a parameter of the service. *)

From Stdlib Require Import String Ascii List ZArith NArith Lia Bool DecimalString.
Import ListNotations.

Local Open Scope Z_scope.
#[local] Set Warnings "-register-all".

(* ------------------------------------------------------------------ *)
(** ** JavaScript strings *)

(** A string is its list of UTF-16 code units. *)
Definition jsstring := list N.

Definition ch (a : ascii) : N := N_of_ascii a.
Arguments ch a%_char.

(** Literals are written as Rocq strings, which hold UTF-8 bytes. *)
Fixpoint utf8_points (bs : list N) : list N :=
  match bs with
  | [] => []
  | b0 :: t0 =>
    if (b0 <? 0x80)%N then b0 :: utf8_points t0
    else if (b0 <? 0xE0)%N then
      match t0 with
      | b1 :: t1 => ((b0 mod 32) * 64 + b1 mod 64)%N :: utf8_points t1
      | _ => [0xFFFD%N]
      end
    else if (b0 <? 0xF0)%N then
      match t0 with
      | b1 :: b2 :: t2 =>
        ((b0 mod 16) * 4096 + (b1 mod 64) * 64 + b2 mod 64)%N :: utf8_points t2
      | _ => [0xFFFD%N]
      end
    else
      match t0 with
      | b1 :: b2 :: b3 :: t3 =>
        ((b0 mod 8) * 262144 + (b1 mod 64) * 4096 + (b2 mod 64) * 64 + b3 mod 64)%N
          :: utf8_points t3
      | _ => [0xFFFD%N]
      end
  end.

Definition utf16_units (cp : N) : list N :=
  if (cp <? 0x10000)%N then [cp]
  else let c := (cp - 0x10000)%N in [(0xD800 + c / 0x400)%N; (0xDC00 + c mod 0x400)%N].

Definition str (s : string) : jsstring :=
  flat_map utf16_units (utf8_points (map N_of_ascii (list_ascii_of_string s))).
Arguments str s%_string.

(** The double quote, and literals in which an apostrophe stands for it. *)
Definition dquote : N := 34%N.

Definition quoted (s : string) : jsstring :=
  map (fun c => if (c =? 39)%N then dquote else c) (str s).
Arguments quoted s%_string.

Definition jsstring_eqb (a b : jsstring) : bool :=
  if list_eq_dec N.eq_dec a b then true else false.

(** WhiteSpace and LineTerminator of ECMAScript: what [trim] strips and what
    [\s] matches. *)
Definition isWhiteSpace (c : N) : bool :=
  ((9 <=? c) && (c <=? 13) || (c =? 32) || (c =? 0xA0) || (c =? 0x1680)
   || (0x2000 <=? c) && (c <=? 0x200A) || (c =? 0x2028) || (c =? 0x2029)
   || (c =? 0x202F) || (c =? 0x205F) || (c =? 0x3000) || (c =? 0xFEFF))%N.

Definition isDigit (c : N) : bool := ((48 <=? c) && (c <=? 57))%N.

Fixpoint dropWhile {A} (p : A -> bool) (l : list A) : list A :=
  match l with
  | [] => []
  | x :: t => if p x then dropWhile p t else l
  end.

Definition trimStart (s : jsstring) : jsstring := dropWhile isWhiteSpace s.
Definition trimEnd (s : jsstring) : jsstring := rev (dropWhile isWhiteSpace (rev s)).
Definition trim (s : jsstring) : jsstring := trimEnd (trimStart s).

(** [stripPrefix p s] is what follows [p] when [s] starts with [p]. *)
Fixpoint stripPrefix (p s : jsstring) : option jsstring :=
  match p, s with
  | [], _ => Some s
  | _ :: _, [] => None
  | a :: p', b :: s' => if (a =? b)%N then stripPrefix p' s' else None
  end.

Definition startsWith (p s : jsstring) : bool :=
  match stripPrefix p s with Some _ => true | None => false end.

(** [String.prototype.includes]. *)
Fixpoint includes (needle hay : jsstring) : bool :=
  startsWith needle hay
  || match hay with
     | [] => false
     | _ :: t => includes needle t
     end.

(** [String.prototype.search] for a one-character class: the index of the
    first code unit satisfying [p], or -1. *)
Fixpoint searchFrom (p : N -> bool) (s : jsstring) (i : Z) : Z :=
  match s with
  | [] => -1
  | c :: t => if p c then i else searchFrom p t (i + 1)
  end.

(** [String.prototype.lastIndexOf] for a single character. *)
Fixpoint lastIndexFrom (x : N) (s : jsstring) (i : Z) (found : Z) : Z :=
  match s with
  | [] => found
  | c :: t => lastIndexFrom x t (i + 1) (if (c =? x)%N then i else found)
  end.

Definition lastIndexOf (x : N) (s : jsstring) : Z := lastIndexFrom x s 0 (-1).

(** [String.prototype.substring]: both ends are clamped to the string and
    swapped when the first is the larger. *)
Definition clampIndex (s : jsstring) (i : Z) : Z :=
  Z.max 0 (Z.min i (Z.of_nat (length s))).

Definition substring (s : jsstring) (a b : Z) : jsstring :=
  let lo := Z.min (clampIndex s a) (clampIndex s b) in
  let hi := Z.max (clampIndex s a) (clampIndex s b) in
  firstn (Z.to_nat (hi - lo)) (skipn (Z.to_nat lo) s).

(** The code units at the indices [a .. b], both included. *)
Definition sliceInclusive (s : jsstring) (a b : Z) : jsstring :=
  firstn (Z.to_nat (b + 1 - a)) (skipn (Z.to_nat a) s).

Definition charAt (s : jsstring) (i : Z) : option N :=
  if i <? 0 then None else nth_error s (Z.to_nat i).

(** Decimal rendering of an integer, as a template literal renders it. *)
Definition digitsOfZ (z : Z) : jsstring :=
  map N_of_ascii (list_ascii_of_string (NilZero.string_of_int (Z.to_int z))).

(* ------------------------------------------------------------------ *)
(** ** JavaScript values and exceptions *)

(** A number is kept as the decimal [mantissa * 10 ^ exponent] its literal
    denotes, with no trailing zero in the mantissa; rounding to binary64 is
    outside the model. *)
Record jsnumber := mkNumber { mantissa : Z; exponent : Z }.

Inductive json :=
| JNull
| JBool (b : bool)
| JNumber (n : jsnumber)
| JString (s : jsstring)
| JArray (items : list json)
| JObject (members : list (jsstring * json)).

Definition JInt (z : Z) : json := JNumber (mkNumber z 0).

(** The constructors [instanceof] can tell apart; every one of them is an
    [Error]. *)
Inductive ErrorClass := ClsError | ClsTypeError | ClsSyntaxError | ClsDOMException.

Record JsError := mkJsError { err_class : ErrorClass; err_message : jsstring }.

Definition newError (m : jsstring) : JsError := mkJsError ClsError m.
Definition newTypeError (m : jsstring) : JsError := mkJsError ClsTypeError m.

(** [throw] accepts any value: an [Error] object or something else. *)
Inductive Thrown :=
| ThrownError (e : JsError)
| ThrownValue (v : json).

Inductive Result (A : Type) :=
| Ok (a : A)
| Throw (t : Thrown).
Arguments Ok {A} a.
Arguments Throw {A} t.

Definition bind {A B} (r : Result A) (k : A -> Result B) : Result B :=
  match r with
  | Ok a => k a
  | Throw t => Throw t
  end.

Declare Scope js_scope.
Delimit Scope js_scope with js.
Notation "'let*' x ':=' r 'in' k" := (bind r (fun x => k))
  (at level 10, x name, r at level 100, k at level 200) : js_scope.
Local Open Scope js_scope.

Definition throwError {A} (m : jsstring) : Result A := Throw (ThrownError (newError m)).

Fixpoint mapM {A B} (f : A -> Result B) (l : list A) : Result (list B) :=
  match l with
  | [] => Ok []
  | x :: t => let* y := f x in let* ys := mapM f t in Ok (y :: ys)
  end.

(** The Number value of a decimal is zero when the decimal is zero, or so
    small that rounding to the nearest binary64 value, ties to even, gives
    zero: its magnitude is at most [2 ^ -1075], half the least positive
    value. *)
Definition roundsToZero (n : jsnumber) : bool :=
  if mantissa n =? 0 then true
  else if exponent n <? 0
       then Z.abs (mantissa n) * 2 ^ 1075 <=? 10 ^ (- exponent n)
       else false.

(** ToBoolean. A missing property ([undefined]) is [None]. *)
Definition truthy (v : json) : bool :=
  match v with
  | JNull => false
  | JBool b => b
  | JNumber n => negb (roundsToZero n)
  | JString s => match s with [] => false | _ => true end
  | JArray _ | JObject _ => true
  end.

Definition truthyOpt (v : option json) : bool :=
  match v with Some x => truthy x | None => false end.

Fixpoint assocGet (k : jsstring) (ms : list (jsstring * json)) : option json :=
  match ms with
  | [] => None
  | (k', v) :: t => if jsstring_eqb k k' then Some v else assocGet k t
  end.

(** A later duplicate key overwrites the value and keeps the place. *)
Fixpoint assocSet (k : jsstring) (v : json) (ms : list (jsstring * json)) :
  list (jsstring * json) :=
  match ms with
  | [] => [(k, v)]
  | (k', v') :: t => if jsstring_eqb k k' then (k, v) :: t else (k', v') :: assocSet k v t
  end.

(** [v.k] on a value that is not [null]: own properties of an object; the
    names read by the service are on no prototype. *)
Definition getProp (v : json) (k : jsstring) : option json :=
  match v with
  | JObject ms => assocGet k ms
  | _ => None
  end.

Definition isArray (v : option json) : option (list json) :=
  match v with
  | Some (JArray l) => Some l
  | _ => None
  end.

(* ------------------------------------------------------------------ *)
(** ** JSON.parse *)

Inductive token :=
| TLBrace | TRBrace | TLBracket | TRBracket | TColon | TComma
| TString (s : jsstring)
| TWord (w : jsstring).

(** The lexer reads one code unit at a time. Accumulators are reversed. *)
Inductive lexmode :=
| LexIdle
| LexWord (acc : jsstring)
| LexString (acc : jsstring)
| LexEscape (acc : jsstring)
| LexUnicode (acc : jsstring) (hex : list N).

Definition isJsonWs (c : N) : bool :=
  ((c =? 32) || (c =? 9) || (c =? 10) || (c =? 13))%N.

Definition isWordChar (c : N) : bool :=
  (isDigit c || (65 <=? c) && (c <=? 90) || (97 <=? c) && (c <=? 122)
   || (c =? ch "+") || (c =? ch "-") || (c =? ch "."))%N.

Definition hexValue (c : N) : option N :=
  if isDigit c then Some (c - 48)%N
  else if ((65 <=? c) && (c <=? 70))%N then Some (c - 55)%N
  else if ((97 <=? c) && (c <=? 102))%N then Some (c - 87)%N
  else None.

Definition unescape (c : N) : option N :=
  if (c =? dquote)%N then Some (dquote)
  else if (c =? ch "\")%N then Some (ch "\")
  else if (c =? ch "/")%N then Some (ch "/")
  else if (c =? ch "b")%N then Some 8%N
  else if (c =? ch "f")%N then Some 12%N
  else if (c =? ch "n")%N then Some 10%N
  else if (c =? ch "r")%N then Some 13%N
  else if (c =? ch "t")%N then Some 9%N
  else None.

Definition lexIdle (c : N) : option (list token * lexmode) :=
  if isJsonWs c then Some ([], LexIdle)
  else if (c =? ch "{")%N then Some ([TLBrace], LexIdle)
  else if (c =? ch "}")%N then Some ([TRBrace], LexIdle)
  else if (c =? ch "[")%N then Some ([TLBracket], LexIdle)
  else if (c =? ch "]")%N then Some ([TRBracket], LexIdle)
  else if (c =? ch ":")%N then Some ([TColon], LexIdle)
  else if (c =? ch ",")%N then Some ([TComma], LexIdle)
  else if (c =? dquote)%N then Some ([], LexString [])
  else if isWordChar c then Some ([], LexWord [c])
  else None.

Fixpoint lex (m : lexmode) (s : jsstring) : option (list token) :=
  match s with
  | [] =>
    match m with
    | LexIdle => Some []
    | LexWord acc => Some [TWord (rev acc)]
    | _ => None
    end
  | c :: t =>
    match m with
    | LexIdle =>
      match lexIdle c with
      | Some (toks, m') => option_map (app toks) (lex m' t)
      | None => None
      end
    | LexWord acc =>
      if isWordChar c then lex (LexWord (c :: acc)) t
      else match lexIdle c with
           | Some (toks, m') => option_map (app (TWord (rev acc) :: toks)) (lex m' t)
           | None => None
           end
    | LexString acc =>
      if (c =? dquote)%N then option_map (cons (TString (rev acc))) (lex LexIdle t)
      else if (c =? ch "\")%N then lex (LexEscape acc) t
      else if (c <? 32)%N then None
      else lex (LexString (c :: acc)) t
    | LexEscape acc =>
      match unescape c with
      | Some c' => lex (LexString (c' :: acc)) t
      | None => if (c =? ch "u")%N then lex (LexUnicode acc []) t else None
      end
    | LexUnicode acc hex =>
      match hexValue c with
      | None => None
      | Some d =>
        match hex with
        | [d2; d1; d0] => lex (LexString ((d0 * 4096 + d1 * 256 + d2 * 16 + d)%N :: acc)) t
        | _ => lex (LexUnicode acc (d :: hex)) t
        end
      end
    end
  end.

Fixpoint span {A} (p : A -> bool) (l : list A) : list A * list A :=
  match l with
  | [] => ([], [])
  | x :: t => if p x then let (a, b) := span p t in (x :: a, b) else ([], l)
  end.

Definition digitsValue (ds : jsstring) : Z :=
  fold_left (fun acc d => acc * 10 + Z.of_N (d - 48)%N) ds 0.

Definition allDigits (ds : jsstring) : bool := forallb isDigit ds.

(** The number grammar: an optional minus; a single zero or a digit string
    without leading zero; optionally a dot and digits; optionally [e] or [E],
    a sign and digits. *)
Definition parseNumber (w : jsstring) : option jsnumber :=
  let (neg, r0) := match w with
                   | c :: t => if (c =? ch "-")%N then (true, t) else (false, w)
                   | [] => (false, w)
                   end in
  let (ip, r1) := span isDigit r0 in
  let intOk := match ip with
               | [] => false
               | [_] => true
               | c :: _ => negb (c =? 48)%N
               end in
  let '(fp, fracOk, r2) :=
    match r1 with
    | c :: t => if (c =? ch ".")%N
                then let (d, r) := span isDigit t in
                     (d, match d with [] => false | _ => true end, r)
                else ([], true, r1)
    | [] => ([], true, r1)
    end in
  let '(ex, expOk) :=
    match r2 with
    | [] => (0, true)
    | c :: t =>
      if ((c =? ch "e") || (c =? ch "E"))%N then
        let (sgn, ds) := match t with
                         | s :: t' => if (s =? ch "-")%N then (-1, t')
                                      else if (s =? ch "+")%N then (1, t') else (1, t)
                         | [] => (1, t)
                         end in
        (sgn * digitsValue ds, match ds with [] => false | _ => allDigits ds end)
      else (0, false)
    end in
  if intOk && fracOk && expOk then
    let sg := rev (dropWhile (fun d => (d =? 48)%N) (rev (ip ++ fp))) in
    let dropped := Z.of_nat (length (ip ++ fp)) - Z.of_nat (length sg) in
    let m := digitsValue sg in
    if m =? 0 then Some (mkNumber 0 0)
    else Some (mkNumber (if neg then - m else m) (ex - Z.of_nat (length fp) + dropped))
  else None.

Definition wordValue (w : jsstring) : option json :=
  if jsstring_eqb w (str "true") then Some (JBool true)
  else if jsstring_eqb w (str "false") then Some (JBool false)
  else if jsstring_eqb w (str "null") then Some JNull
  else option_map JNumber (parseNumber w).

(** The place a finished value goes to. *)
Inductive slot :=
| InArray (done : list json)
| InObject (done : list (jsstring * json)) (key : jsstring).

Inductive pstate :=
| PValue (stack : list slot)
| PArrayOpen (stack : list slot)
| PObjectOpen (stack : list slot)
| PKey (done : list (jsstring * json)) (stack : list slot)
| PColon (done : list (jsstring * json)) (key : jsstring) (stack : list slot)
| PAfterItem (done : list json) (stack : list slot)
| PAfterMember (done : list (jsstring * json)) (stack : list slot)
| PDone (v : json).

Definition plug (v : json) (stack : list slot) : pstate :=
  match stack with
  | [] => PDone v
  | InArray done :: st => PAfterItem (v :: done) st
  | InObject done k :: st => PAfterMember (assocSet k v done) st
  end.

Definition startValue (tok : token) (stack : list slot) : option pstate :=
  match tok with
  | TString s => Some (plug (JString s) stack)
  | TWord w => option_map (fun v => plug v stack) (wordValue w)
  | TLBracket => Some (PArrayOpen stack)
  | TLBrace => Some (PObjectOpen stack)
  | _ => None
  end.

Definition pstep (st : pstate) (tok : token) : option pstate :=
  match st with
  | PValue stack => startValue tok stack
  | PArrayOpen stack =>
    match tok with
    | TRBracket => Some (plug (JArray []) stack)
    | _ => startValue tok (InArray [] :: stack)
    end
  | PObjectOpen stack =>
    match tok with
    | TRBrace => Some (plug (JObject []) stack)
    | TString k => Some (PColon [] k stack)
    | _ => None
    end
  | PKey done stack =>
    match tok with
    | TString k => Some (PColon done k stack)
    | _ => None
    end
  | PColon done k stack =>
    match tok with
    | TColon => Some (PValue (InObject done k :: stack))
    | _ => None
    end
  | PAfterItem done stack =>
    match tok with
    | TComma => Some (PValue (InArray done :: stack))
    | TRBracket => Some (plug (JArray (rev done)) stack)
    | _ => None
    end
  | PAfterMember done stack =>
    match tok with
    | TComma => Some (PKey done stack)
    | TRBrace => Some (plug (JObject done) stack)
    | _ => None
    end
  | PDone _ => None
  end.

Fixpoint prun (st : pstate) (toks : list token) : option json :=
  match toks with
  | [] => match st with PDone v => Some v | _ => None end
  | tok :: rest =>
    match pstep st tok with
    | Some st' => prun st' rest
    | None => None
    end
  end.

Definition parseJsonText (text : jsstring) : option json :=
  match lex LexIdle text with
  | Some toks => prun (PValue []) toks
  | None => None
  end.

(* ------------------------------------------------------------------ *)
(** ** The markdown fence of [extractJsonFromText]

    The regular expression is a fence of three backticks, an optional [json],
    greedy white space, a lazy capture of anything, greedy white space and a
    closing fence. Each quantifier is tried in the engine's order, giving
    back what it took when the rest fails. *)

Definition fence : jsstring := [96; 96; 96]%N.

(** White space then a fence. White space is no backtick, so shortening the
    greedy run cannot make this succeed where the full run fails. *)
Definition closesFence (s : jsstring) : bool :=
  startsWith fence (dropWhile isWhiteSpace s).

(** The lazy group: the shortest capture after which the rest closes. *)
Fixpoint lazyCapture (s : jsstring) : option jsstring :=
  if closesFence s then Some []
  else match s with
       | [] => None
       | c :: t => option_map (cons c) (lazyCapture t)
       end.

(** Greedy white space before the group: the longest run first. *)
Fixpoint fenceBody (s : jsstring) : option jsstring :=
  match s with
  | c :: t =>
    if isWhiteSpace c
    then match fenceBody t with
         | Some g => Some g
         | None => lazyCapture s
         end
    else lazyCapture s
  | [] => lazyCapture s
  end.

Definition matchFenceHere (s : jsstring) : option jsstring :=
  match stripPrefix fence s with
  | None => None
  | Some r =>
    match stripPrefix (str "json") r with
    | Some r' =>
      match fenceBody r' with
      | Some g => Some g
      | None => fenceBody r
      end
    | None => fenceBody r
    end
  end.

(** [jsonString.match(...)]: group 1 of the leftmost match. *)
Fixpoint markdownMatch (s : jsstring) : option jsstring :=
  match matchFenceHere s with
  | Some g => Some g
  | None => match s with
            | [] => None
            | _ :: t => markdownMatch t
            end
  end.

(** [jsonString] once the fence, if any, has been entered. *)
Definition searchText (text : jsstring) : jsstring :=
  let jsonString := trim text in
  match markdownMatch jsonString with
  | Some (c :: g) => trim (c :: g)
  | _ => jsonString
  end.

Definition isOpener (c : N) : bool := ((c =? ch "[") || (c =? ch "{"))%N.

Definition startIndexOf (jsonString : jsstring) : Z := searchFrom isOpener jsonString 0.

(** The [for] loop over [i], on the code units from [i] on. The result is
    [endIndex]: the index where [openCount] is back to zero, or -1. *)
Fixpoint scanClose (startChar endChar : N) (rest : jsstring) (i : Z)
         (openCount : Z) (inString escapeChar : bool) : Z :=
  match rest with
  | [] => -1
  | char :: rest' =>
    if escapeChar then scanClose startChar endChar rest' (i + 1) openCount inString false
    else if (char =? ch "\")%N
    then scanClose startChar endChar rest' (i + 1) openCount inString true
    else
      let inString' := if (char =? dquote)%N then negb inString else inString in
      let openCount' :=
        if negb inString' then
          if (char =? startChar)%N then openCount + 1
          else if (char =? endChar)%N then openCount - 1
          else openCount
        else openCount in
      if openCount' =? 0 then i
      else scanClose startChar endChar rest' (i + 1) openCount' inString' false
  end.

Definition scanEnd (jsonString : jsstring) (startIndex : Z) : Z :=
  let startChar := nth (Z.to_nat startIndex) jsonString 0%N in
  let endChar := if (startChar =? ch "[")%N then ch "]" else ch "}" in
  scanClose startChar endChar (skipn (Z.to_nat startIndex) jsonString) startIndex 0 false false.

Definition endIndexOf (jsonString : jsstring) (startIndex : Z) : Z :=
  let endIndex := scanEnd jsonString startIndex in
  if endIndex =? -1 then
    let lastBrace := lastIndexOf (ch "}") jsonString in
    let lastBracket := lastIndexOf (ch "]") jsonString in
    Z.max lastBrace lastBracket
  else endIndex.

Definition msgNoJson : jsstring := str "AI 응답에서 유효한 JSON을 찾을 수 없습니다.".
Definition msgNoJsonEnd : jsstring := str "AI 응답에서 유효한 JSON의 끝을 찾을 수 없습니다.".
Definition msgBadFormat : jsstring := str "AI가 반환한 데이터의 형식이 잘못되었습니다.".
Definition msgBadFormatWith (m : jsstring) : jsstring :=
  str "AI가 반환한 데이터의 형식이 잘못되었습니다. 오류: " ++ m.

(** What [extractJsonFromText] hands to [JSON.parse], or the error it throws
    before it gets there. *)
Definition potentialJson (text : jsstring) : Result jsstring :=
  let jsonString := searchText text in
  let startIndex := startIndexOf jsonString in
  if startIndex =? -1 then throwError msgNoJson
  else
    let endIndex := endIndexOf jsonString startIndex in
    if endIndex =? -1 then throwError msgNoJsonEnd
    else Ok (substring jsonString startIndex (endIndex + 1)).

(* ------------------------------------------------------------------ *)
(** ** The network *)

Record Response := mkResponse {
  resp_ok : bool;
  resp_status : Z;
  resp_text : Result jsstring   (* reading the body may itself fail *)
}.

(** A request in flight: when it settles, and with what. *)
Record Flight := mkFlight {
  latency_ms : Z;
  settles : Result Response
}.

Definition MAX_RETRIES_PER_PROXY : nat := 2.
Definition RETRY_DELAY_MS : Z := 1000.
Definition FETCH_TIMEOUT_MS : Z := 15000.

(** The timer of [fetchWithTimeout] fires when the request has not settled
    before it. *)
Definition timerFires (f : Flight) (timeout : Z) : bool := timeout <=? latency_ms f.

(** [controller.abort('Timeout')]: the pending [fetch] rejects with the
    signal's abort reason, which here is the string itself (Fetch standard,
    "abort the fetch() call"). *)
Definition abortReason : json := JString (str "Timeout").

Definition fetchWithTimeout (f : Flight) (timeout : Z) : Result Response :=
  if timerFires f timeout then Throw (ThrownValue abortReason) else settles f.

Record Proxy := mkProxy {
  name : jsstring;
  buildUrl : jsstring -> jsstring;
  parseResponse : Response -> Result json
}.

Inductive Event :=
| EvFetch (strategy attempt : nat) (url : jsstring)
| EvDelay (ms : Z).

Definition isFetch (e : Event) : bool :=
  match e with EvFetch _ _ _ => true | EvDelay _ => false end.

Definition countFetches (log : list Event) : nat := length (filter isFetch log).

Definition msgHttp (status : Z) : jsstring :=
  str "HTTP 오류! 상태: " ++ digitsOfZ status ++ str ".".
Definition msgEmpty : jsstring := str "프록시에서 빈 콘텐츠를 반환했습니다.".
Definition msgUnknownRequest : jsstring := str "알 수 없는 요청 오류가 발생했습니다.".
Definition msgTimeout : jsstring :=
  str "요청 시간이 초과되었습니다. 네트워크 연결이 느리거나 모든 프록시 서버가 응답하지 않습니다.".
Definition msgConnectivity : jsstring :=
  str "네트워크 요청에 실패했습니다. 모든 프록시 서버에 연결할 수 없습니다. 인터넷 연결, 브라우저의 광고 차단기(AdBlocker) 또는 보안 설정을 확인하거나 잠시 후 다시 시도해 주세요.".
Definition msgAllFailedPrefix : jsstring :=
  str "모든 프록시 서버에서 데이터를 가져오는 데 실패했습니다. 마지막 오류: ".
Definition msgAllFailedSuffix : jsstring := str ". 잠시 후 다시 시도해 주세요.".
Definition msgUnknown : jsstring := str "알 수 없는 오류".
Definition msgNoData : jsstring := str "데이터를 가져오지 못했습니다.".

Definition orElse (m fallback : jsstring) : jsstring :=
  match m with [] => fallback | _ => m end.

(** The [catch] clause keeps an [Error] and replaces anything else. *)
Definition caughtError (t : Thrown) : JsError :=
  match t with
  | ThrownError e => e
  | ThrownValue _ => newError msgUnknownRequest
  end.

Definition isTypeError (e : JsError) : bool :=
  match err_class e with ClsTypeError => true | _ => false end.

(** The error thrown once every proxy and retry has failed. *)
Definition finalError (lastKnownError : option JsError) : JsError :=
  match lastKnownError with
  | Some e =>
    if includes (str "Timeout") (err_message e) then newError msgTimeout
    else if isTypeError e && includes (str "fetch") (err_message e)
    then newError msgConnectivity
    else newError (msgAllFailedPrefix ++ orElse (err_message e) msgUnknown
                                      ++ msgAllFailedSuffix)
  | None => newError msgNoData
  end.

(** How one pass through the [try] block ends. *)
Inductive TryOutcome (A : Type) :=
| TryReturn (v : A)
| TryBreak (e : JsError)
| TryContinue (e : JsError)
| TryThrow (t : Thrown).
Arguments TryReturn {A} v.
Arguments TryBreak {A} e.
Arguments TryContinue {A} e.
Arguments TryThrow {A} t.

Inductive LoopOutcome (A : Type) :=
| Returned (v : A)
| Exhausted (lastKnownError : option JsError).
Arguments Returned {A} v.
Arguments Exhausted {A} lastKnownError.

(* ------------------------------------------------------------------ *)
(** ** The service, over its environment *)

Section Service.

(** The engine's wording of a [SyntaxError] for a given text. *)
Variable syntaxErrorMessage : jsstring -> jsstring.

(** Its wording of the [TypeError] for a failed member access or call. *)
Variable typeErrorMessage : jsstring -> jsstring.

(** [encodeURIComponent] and [Number.prototype.toString] of the engine. *)
Variable encodeURIComponent : jsstring -> jsstring.
Variable numberToString : jsnumber -> jsstring.

(** The generative model: whether the client can be built, and the [text] of
    the answer to the prompt written around a keyword ([undefined] is
    [None]). *)
Variable newGoogleGenAI : Result unit.
Variable generateContent : jsstring -> Result (option jsstring).

(** The world: the request that attempt [attempt] (from 1) of strategy
    [strategy] (from 0) puts in flight for a relay URL. *)
Variable net : nat -> nat -> jsstring -> Flight.

Definition JSON_parse (text : jsstring) : Result json :=
  match parseJsonText text with
  | Some v => Ok v
  | None => Throw (ThrownError (mkJsError ClsSyntaxError (syntaxErrorMessage text)))
  end.

Definition extractJsonFromText (text : jsstring) : Result json :=
  let* potential := potentialJson text in
  match JSON_parse potential with
  | Ok v => Ok v
  | Throw (ThrownError e) => throwError (msgBadFormatWith (err_message e))
  | Throw (ThrownValue _) => throwError msgBadFormat
  end.

Section Fetcher.

Context {A : Type}.
Variable targetUrl : jsstring.
Variable responseParser : json -> Result A.

(** The body of the [try] block for one attempt. *)
Definition tryAttempt (proxy : Proxy) (strategy attempt : nat) : TryOutcome A :=
  match fetchWithTimeout (net strategy attempt (buildUrl proxy targetUrl)) FETCH_TIMEOUT_MS with
  | Throw t => TryThrow t
  | Ok response =>
    if negb (resp_ok response) then TryBreak (newError (msgHttp (resp_status response)))
    else
      match parseResponse proxy response with
      | Throw t => TryThrow t
      | Ok rawContent =>
        if negb (truthy rawContent) then TryContinue (newError msgEmpty)
        else match responseParser rawContent with
             | Ok v => TryReturn v
             | Throw t => TryThrow t
             end
      end
  end.

(** The inner [for]: [remaining] counts the attempts still allowed, so the
    loop condition [attempt <= MAX_RETRIES_PER_PROXY] is [remaining > 0]. *)
Fixpoint attemptLoop (proxy : Proxy) (strategy : nat) (remaining attempt : nat)
         (lastKnownError : option JsError) : LoopOutcome A * list Event :=
  match remaining with
  | O => (Exhausted lastKnownError, [])
  | S remaining' =>
    let ev := EvFetch strategy attempt (buildUrl proxy targetUrl) in
    match tryAttempt proxy strategy attempt with
    | TryReturn v => (Returned v, [ev])
    | TryBreak e => (Exhausted (Some e), [ev])
    | TryContinue e =>
      let (r, log) := attemptLoop proxy strategy remaining' (S attempt) (Some e) in
      (r, ev :: log)
    | TryThrow t =>
      let delay := if (attempt <? MAX_RETRIES_PER_PROXY)%nat
                   then [EvDelay RETRY_DELAY_MS] else [] in
      let (r, log) := attemptLoop proxy strategy remaining' (S attempt)
                                  (Some (caughtError t)) in
      (r, ev :: delay ++ log)
    end
  end.

(** The outer [for ... of], from strategy number [strategy] on. *)
Fixpoint proxyLoop (proxies : list Proxy) (strategy : nat)
         (lastKnownError : option JsError) : Result A * list Event :=
  match proxies with
  | [] => (Throw (ThrownError (finalError lastKnownError)), [])
  | proxy :: rest =>
    match attemptLoop proxy strategy MAX_RETRIES_PER_PROXY 1 lastKnownError with
    | (Returned v, log) => (Ok v, log)
    | (Exhausted last, log) =>
      let (r, log') := proxyLoop rest (S strategy) last in
      (r, log ++ log')
    end
  end.

(** [fetchWithProxies] over a strategy list, with the requests and delays it
    performs, in order. *)
Definition fetchWithProxiesOver (proxies : list Proxy) : Result A * list Event :=
  proxyLoop proxies 0 None.

End Fetcher.

(* ------------------------------------------------------------------ *)
(** ** The relays *)

Definition throwTypeError {A} (what : jsstring) : Result A :=
  Throw (ThrownError (newTypeError (typeErrorMessage what))).

Definition responseText (response : Response) : Result json :=
  let* text := resp_text response in Ok (JString text).

Definition alloriginsParse (response : Response) : Result json :=
  let* body := resp_text response in
  let* data := JSON_parse body in
  match getProp data (str "contents") with
  | Some contents =>
    if truthy data && truthy contents then Ok contents
    else throwError (str "allorigins.win: Invalid JSON response structure.")
  | None => throwError (str "allorigins.win: Invalid JSON response structure.")
  end.

Definition PROXIES : list Proxy :=
  [ mkProxy (str "corsproxy.io")
            (fun url => str "https://corsproxy.io/?" ++ encodeURIComponent url)
            responseText;
    mkProxy (str "allorigins.win (JSON)")
            (fun url => str "https://api.allorigins.win/get?url=" ++ encodeURIComponent url)
            alloriginsParse;
    mkProxy (str "thingproxy.freeboard.io")
            (fun url => str "https://thingproxy.freeboard.io/fetch/" ++ url)
            responseText ].

Definition fetchWithProxies {A} (targetUrl : jsstring) (responseParser : json -> Result A) :
  Result A :=
  fst (fetchWithProxiesOver targetUrl responseParser PROXIES).

(** ToString, which [JSON.parse] applies to its argument. *)
Fixpoint joinWith (sep : jsstring) (parts : list jsstring) : jsstring :=
  match parts with
  | [] => []
  | [x] => x
  | x :: t => x ++ sep ++ joinWith sep t
  end.

Fixpoint toString (v : json) : jsstring :=
  match v with
  | JNull => str "null"
  | JBool true => str "true"
  | JBool false => str "false"
  | JNumber n => numberToString n
  | JString s => s
  | JArray items =>
    joinWith (str ",")
             (map (fun x => match x with JNull => [] | _ => toString x end) items)
  | JObject _ => str "[object Object]"
  end.

Definition JSON_parse_value (v : json) : Result json := JSON_parse (toString v).

(* ------------------------------------------------------------------ *)
(** ** Autocomplete keywords *)

Inductive SearchSource := google | naver.

(** What a suggestion is: [typeof item[0] === 'string'] is checked on the
    Naver path, nothing on the Google one. *)
Definition kwType (source : SearchSource) : Type :=
  match source with
  | naver => jsstring
  | google => json
  end.

Definition naverUrl (term : jsstring) : jsstring :=
  str "https://ac.search.naver.com/nx/ac?q=" ++ encodeURIComponent term
  ++ str "&con=1&frm=nx&ans=2&r_format=json&r_enc=UTF-8&r_unicode=0&t_koreng=1&run=2&rev=4&q_enc=UTF-8&st=100".

Definition googleUrl (term : jsstring) : jsstring :=
  str "https://suggestqueries.google.com/complete/search?client=chrome&hl=ko&q="
  ++ encodeURIComponent term.

Definition naverItems (itemGroup : json) : list jsstring :=
  match itemGroup with
  | JArray group =>
    flat_map (fun item => match item with
                          | JArray (JString s :: _) => [s]
                          | _ => []
                          end) group
  | _ => []
  end.

Definition naverParser (data : json) : Result (list jsstring) :=
  match (if truthy data then isArray (getProp data (str "items")) else None) with
  | Some items => Ok (flat_map naverItems items)
  | None =>
    match (if truthy data then getProp data (str "items") else None) with
    | Some JNull => Ok []
    | _ => throwError (str "Naver API로부터 예상치 못한 형식의 응답을 받았습니다: 'items' 배열이 없습니다.")
    end
  end.

Definition googleParser (data : json) : Result (list json) :=
  match data with
  | JArray (_ :: JArray suggestions :: _) => Ok suggestions
  | _ => throwError (str "Google Suggest API로부터 예상치 못한 형식의 응답을 받았습니다.")
  end.

Definition fetchSingleTermKeywords (term : jsstring) (source : SearchSource) :
  Result (list (kwType source)) :=
  match source as s return Result (list (kwType s)) with
  | naver => let* data := fetchWithProxies (naverUrl term) JSON_parse_value in
             naverParser data
  | google => let* data := fetchWithProxies (googleUrl term) JSON_parse_value in
              googleParser data
  end.

Record KeywordData (K : Type) := mkKeywordData { id : Z; keyword : K }.
Arguments mkKeywordData {K} id keyword.
Arguments id {K} k.
Arguments keyword {K} k.

(** [l.map((kw, index) => ({ id: index + 1, keyword: kw }))], from [index]. *)
Fixpoint numberFrom {K} (index : Z) (l : list K) : list (KeywordData K) :=
  match l with
  | [] => []
  | kw :: t => mkKeywordData (index + 1) kw :: numberFrom (index + 1) t
  end.

(** [kw.replace(/<[^>]*>/g, '')]: a [<] with a [>] somewhere after it opens
    a match that runs to the first such [>]. *)
Definition isGt (c : N) : bool := (c =? ch ">")%N.

Fixpoint stripTagsFrom (inTag : bool) (s : jsstring) : jsstring :=
  match s with
  | [] => []
  | c :: t =>
    if inTag then stripTagsFrom (negb (isGt c)) t
    else if (c =? ch "<")%N && existsb isGt t then stripTagsFrom true t
    else c :: stripTagsFrom false t
  end.

Definition stripTags (s : jsstring) : jsstring := stripTagsFrom false s.

(** A [Set] of strings keeps the first insertion of each value, in order. *)
Definition setAdd (x : jsstring) (set : list jsstring) : list jsstring :=
  if existsb (jsstring_eqb x) set then set else set ++ [x].

Definition POSTFIXES : list jsstring :=
  [ []; str "ㄱ"; str "ㄴ"; str "ㄷ"; str "ㄹ"; str "ㅁ"; str "ㅂ"; str "ㅅ";
    str "ㅇ"; str "ㅈ"; str "ㅊ"; str "ㅋ"; str "ㅌ"; str "ㅍ"; str "ㅎ" ].

Definition searchTerms (keyword : jsstring) : list jsstring :=
  map (fun p => trim (keyword ++ str " " ++ p)) POSTFIXES.

(** The values of the fulfilled settlements, in order. *)
Fixpoint fulfilled {V} (settlements : list (Result V)) : list V :=
  match settlements with
  | [] => []
  | Ok v :: t => v :: fulfilled t
  | Throw _ :: t => fulfilled t
  end.

Definition msgEmptyKeyword : jsstring := str "키워드가 비어있습니다.".
Definition msgNaverAllFailed (keyword : jsstring) : jsstring :=
  str "'" ++ keyword ++ str "'에 대한 Naver 자동완성검색어 조회에 실패했습니다. 모든 요청이 거부되었습니다.".

(** The fan-in: what follows [Promise.allSettled] on the Naver path. *)
Definition naverAggregate (keyword : jsstring) (settlements : list (Result (list jsstring))) :
  Result (list (KeywordData jsstring)) :=
  let successfulResults := fulfilled settlements in
  match successfulResults with
  | [] => throwError (msgNaverAllFailed keyword)
  | _ =>
    let allSuggestions :=
      fold_left (fun set suggestions =>
                   fold_left (fun set' kw => setAdd (stripTags kw) set') suggestions set)
                successfulResults [] in
    let finalSuggestions := firstn 20 allSuggestions in
    Ok (numberFrom 0 finalSuggestions)
  end.

Definition naverSettlements (keyword : jsstring) : list (Result (list jsstring)) :=
  map (fun term => fetchSingleTermKeywords term naver) (searchTerms keyword).

Definition fetchRelatedKeywords (keyword : jsstring) (source : SearchSource) :
  Result (list (KeywordData (kwType source))) :=
  match trim keyword with
  | [] => throwError msgEmptyKeyword
  | _ =>
    match source as s return Result (list (KeywordData (kwType s))) with
    | naver => naverAggregate keyword (naverSettlements keyword)
    | google =>
      let* suggestions := fetchSingleTermKeywords keyword google in
      let finalSuggestions := firstn 20 suggestions in
      Ok (numberFrom 0 finalSuggestions)
    end
  end.

(* ------------------------------------------------------------------ *)
(** ** Related searches from the generative model *)

(** The citation pattern: a bracket, digits, then any number of groups of a
    comma, an optional space and digits, then the closing bracket. Digits
    are taken greedily and giving one back never helps, so one state per
    position of the pattern decides the match. *)
Inductive cstate :=
| CNeedDigit     (* after the bracket or after a comma and a space *)
| CDigits        (* inside a run of digits *)
| CAfterComma.   (* after a comma *)

(** The length of the match that has consumed [n] code units so far. *)
Fixpoint markerEnd (st : cstate) (s : jsstring) (n : nat) : option nat :=
  match s with
  | [] => None
  | c :: t =>
    match st with
    | CNeedDigit => if isDigit c then markerEnd CDigits t (S n) else None
    | CDigits =>
      if isDigit c then markerEnd CDigits t (S n)
      else if (c =? ch ",")%N then markerEnd CAfterComma t (S n)
      else if (c =? ch "]")%N then Some (S n)
      else None
    | CAfterComma =>
      if (c =? ch " ")%N then markerEnd CNeedDigit t (S n)
      else if isDigit c then markerEnd CDigits t (S n)
      else None
    end
  end.

Definition markerLength (s : jsstring) : option nat :=
  match s with
  | c :: t => if (c =? ch "[")%N then markerEnd CNeedDigit t 1 else None
  | [] => None
  end.

(** [s.replace(citationRegex, '')] with the [g] flag: [skip] code units of
    the current match are still to be dropped. *)
Fixpoint removeCitationsFrom (skip : nat) (s : jsstring) : jsstring :=
  match s with
  | [] => []
  | c :: t =>
    match skip with
    | S k => removeCitationsFrom k t
    | O =>
      match markerLength s with
      | Some n => removeCitationsFrom (pred n) t
      | None => c :: removeCitationsFrom 0 t
      end
    end
  end.

Definition removeCitations (s : jsstring) : jsstring := removeCitationsFrom 0 s.

(** [(v || '').replace(citationRegex, '').trim()]. *)
Definition cleanText (v : option json) : Result jsstring :=
  match v with
  | Some (JString s) => Ok (trim (removeCitations s))
  | Some x => if truthy x then throwTypeError (str "replace") else Ok (trim (removeCitations []))
  | None => Ok (trim (removeCitations []))
  end.

Record PaaItem := mkPaaItem {
  question : jsstring;
  answer : jsstring;
  content_gap_analysis : jsstring
}.

Record GoogleSerpData := mkGoogleSerpData {
  related_searches : list jsstring;
  people_also_ask : list PaaItem
}.

Definition cleanPaa (paa : json) : Result PaaItem :=
  match paa with
  | JNull => throwTypeError (str "question")
  | _ =>
    let* q := cleanText (getProp paa (str "question")) in
    let* a := cleanText (getProp paa (str "answer")) in
    let* c := cleanText (getProp paa (str "content_gap_analysis")) in
    Ok (mkPaaItem q a c)
  end.

Definition msgUnexpectedShape : jsstring := str "API 응답이 예상된 형식이 아닙니다.".
Definition msgModelFailed : jsstring := str "AI 모델로부터 검색 결과를 가져오는 데 실패했습니다.".
Definition msgModelFailedWith (m : jsstring) : jsstring :=
  str "AI 모델로부터 검색 결과를 가져오는 데 실패했습니다. 오류: " ++ m.

(** The [try] block of [generateRelatedKeywords]. *)
Definition generateRelatedKeywordsBody (keyword : jsstring) : Result GoogleSerpData :=
  let* answerText := generateContent keyword in
  let* text := match answerText with
               | Some t => Ok t
               | None => throwTypeError (str "trim")
               end in
  let* result := extractJsonFromText text in
  match (if truthy result then isArray (getProp result (str "related_searches")) else None),
        (if truthy result then isArray (getProp result (str "people_also_ask")) else None) with
  | Some searches, Some paas =>
    let* mapped := mapM cleanPaa paas in
    let cleanedPaas := firstn 5 mapped in
    let* cleanedRelatedSearches := mapM (fun search => cleanText (Some search)) searches in
    Ok (mkGoogleSerpData cleanedRelatedSearches cleanedPaas)
  | _, _ => throwError msgUnexpectedShape
  end.

Definition generateRelatedKeywords (keyword : jsstring) : Result GoogleSerpData :=
  match trim keyword with
  | [] => throwError msgEmptyKeyword
  | _ =>
    let* _ := newGoogleGenAI in
    match generateRelatedKeywordsBody keyword with
    | Ok v => Ok v
    | Throw (ThrownError e) => throwError (msgModelFailedWith (err_message e))
    | Throw (ThrownValue _) => throwError msgModelFailed
    end
  end.

End Service.

Arguments mkKeywordData {K} id keyword.
Arguments id {K} k.
Arguments keyword {K} k.

(* ------------------------------------------------------------------ *)
(** ** The reports asked of the generative model *)

(** The number an integer denotes, in the form the parser gives numbers. *)
Definition numberOfZ (z : Z) : jsnumber :=
  match parseNumber (digitsOfZ z) with
  | Some n => n
  | None => mkNumber z 0
  end.

(** [l.map((item, index) => f index item)] for an [f] that may throw. *)
Fixpoint mapIndexedM {X Y} (f : Z -> X -> Result Y) (index : Z) (l : list X) :
  Result (list Y) :=
  match l with
  | [] => Ok []
  | x :: t => let* y := f index x in
              let* ys := mapIndexedM f (index + 1) t in
              Ok (y :: ys)
  end.

Fixpoint mapIndexed {X Y} (f : Z -> X -> Y) (index : Z) (l : list X) : list Y :=
  match l with
  | [] => []
  | x :: t => f index x :: mapIndexed f (index + 1) t
  end.

(** [keyword.split(/\s+/)]: the pieces between the maximal runs of white
    space; [gap] says that the previous code unit was white space. *)
Fixpoint splitOnSpace (cur : jsstring) (gap : bool) (s : jsstring) : list jsstring :=
  match s with
  | [] => [rev cur]
  | c :: t =>
    if isWhiteSpace c
    then if gap then splitOnSpace cur true t
         else rev cur :: splitOnSpace [] true t
    else splitOnSpace (c :: cur) false t
  end.

Definition nonEmpty (s : jsstring) : bool :=
  match s with [] => false | _ => true end.

(** [keyword.split(/\s+/).filter(Boolean).length]. *)
Definition wordCount (keyword : jsstring) : Z :=
  Z.of_nat (length (filter nonEmpty (splitOnSpace [] false keyword))).

(** [typeof v], as far as the service asks. *)
Definition isNumber (v : option json) : bool :=
  match v with Some (JNumber _) => true | _ => false end.
Definition isString (v : option json) : bool :=
  match v with Some (JString _) => true | _ => false end.

(** [typeof item === 'object' && item !== null]. *)
Definition isObjectLike (item : json) : bool :=
  match item with
  | JObject _ | JArray _ => true
  | _ => false
  end.

(** The own enumerable properties an object spread copies. *)
Definition ownEntries (v : json) : list (jsstring * json) :=
  match v with
  | JObject ms => ms
  | JArray items => mapIndexed (fun i x => (digitsOfZ i, x)) 0 items
  | JString s => mapIndexed (fun i c => (digitsOfZ i, JString [c])) 0 s
  | _ => []
  end.

(** [{ ...item, id: index + 1 }]. *)
Definition withId (index : Z) (item : json) : json :=
  JObject (assocSet (str "id") (JNumber (numberOfZ (index + 1))) (ownEntries item)).

Record RecommendedKeyword := mkRecommendedKeyword {
  rk_id : Z;
  rk_keyword : jsstring;
  rk_reason : jsstring;
  rk_title : jsstring;
  rk_thumbnailCopy : jsstring;
  rk_strategy : jsstring
}.

(** A topic as the model gave it: the fields are copied unchecked. *)
Record GeneratedTopic := mkGeneratedTopic {
  gt_id : Z;
  gt_title : option json;
  gt_thumbnailCopy : option json;
  gt_strategy : option json
}.

Record BlogPostData := mkBlogPostData {
  bp_id : Z;
  bp_title : jsstring;
  bp_url : jsstring
}.

Fixpoint somes {X} (l : list (option X)) : list X :=
  match l with
  | [] => []
  | Some x :: t => x :: somes t
  | None :: t => somes t
  end.

Definition msgNotArray : jsstring := str "AI 응답이 배열 형식이 아닙니다.".
Definition msgInvalidShape : jsstring := str "AI 응답이 유효한 형식이 아닙니다.".
Definition msgInvalidAnswer : jsstring := str "AI로부터 유효하지 않은 형식의 응답을 받았습니다.".
Definition msgAbnormalOtherKeyword : jsstring :=
  str "AI 모델이 비정상적인 데이터를 반환했습니다. 다른 키워드로 다시 시도해주세요.".
Definition msgAbnormalRetry : jsstring :=
  str "AI 모델이 비정상적인 데이터를 반환했습니다. 다시 시도해주세요.".

(** The [catch] clause the reports share: an [Error] whose message holds
    [JSON] becomes the abnormal-data error, any other [Error] is wrapped
    behind [failedWith], anything else becomes [unknown]. *)
Definition classifyFailure {A} (abnormal failedWith unknown : jsstring) (r : Result A) :
  Result A :=
  match r with
  | Ok v => Ok v
  | Throw (ThrownError e) =>
    if includes (str "JSON") (err_message e) then throwError abnormal
    else throwError (failedWith ++ err_message e)
  | Throw (ThrownValue _) => throwError unknown
  end.

Section Reports.

Variable syntaxErrorMessage : jsstring -> jsstring.
Variable typeErrorMessage : jsstring -> jsstring.
Variable newGoogleGenAI : Result unit.

(** The [text] of the model's answer to a prompt ([undefined] is [None]). *)
Variable generateContent : jsstring -> Result (option jsstring).

(** The prompts: fixed templates around their arguments and the date of
    the day. *)
Variable recommendedPrompt : jsstring.
Variable mainKeywordPrompt : jsstring -> jsstring.
Variable allKeywordsPrompt : jsstring -> list jsstring -> jsstring.
Variable sustainablePrompt : jsstring -> jsstring.
Variable competitionPrompt : jsstring -> jsstring.
Variable blogStrategyPrompt : jsstring -> list BlogPostData -> jsstring.
Variable serpStrategyPrompt : jsstring -> GoogleSerpData -> jsstring.
Variable wrapperPrompt : jsstring -> jsstring.
Variable weatherPrompt : jsstring.

(** ToString of a number, as in [toString]. *)
Variable numberToString : jsnumber -> jsstring.

(** [response.text] where a string method is called on it. *)
Definition answerText (answer : option jsstring) : Result jsstring :=
  match answer with
  | Some text => Ok text
  | None => throwTypeError typeErrorMessage (str "trim")
  end.

Definition recommendItem (index : Z) (item : json) : Result (option RecommendedKeyword) :=
  if isObjectLike item then
    let* k := cleanText typeErrorMessage (getProp item (str "keyword")) in
    let* r := cleanText typeErrorMessage (getProp item (str "reason")) in
    let* t := cleanText typeErrorMessage (getProp item (str "title")) in
    let* c := cleanText typeErrorMessage (getProp item (str "thumbnailCopy")) in
    let* s := cleanText typeErrorMessage (getProp item (str "strategy")) in
    Ok (Some (mkRecommendedKeyword (index + 1) k r t c s))
  else Ok None.

Definition fetchRecommendedKeywordsBody : Result (list RecommendedKeyword) :=
  let* answer := generateContent recommendedPrompt in
  let* text := answerText answer in
  let* parsed := extractJsonFromText syntaxErrorMessage text in
  match parsed with
  | JArray items =>
    let* mapped := mapIndexedM recommendItem 0 items in
    Ok (somes mapped)
  | _ => throwError msgNotArray
  end.

Definition fetchRecommendedKeywords : Result (list RecommendedKeyword) :=
  let* _ := newGoogleGenAI in
  classifyFailure msgAbnormalRetry
                  (str "전략 키워드 분석 중 AI 모델과 통신하는 데 실패했습니다. 오류: ")
                  (str "전략 키워드 분석 중 알 수 없는 오류가 발생했습니다.")
                  fetchRecommendedKeywordsBody.

Definition topicItem (index : Z) (item : json) : Result GeneratedTopic :=
  match item with
  | JNull => throwTypeError typeErrorMessage (str "title")
  | _ => Ok (mkGeneratedTopic (index + 1) (getProp item (str "title"))
                              (getProp item (str "thumbnailCopy"))
                              (getProp item (str "strategy")))
  end.

Definition callGenerativeModelForTopicsBody (prompt : jsstring) : Result (list GeneratedTopic) :=
  let* answer := generateContent prompt in
  let* text := answerText answer in
  let* parsed := JSON_parse syntaxErrorMessage (trim text) in
  match parsed with
  | JArray items => mapIndexedM topicItem 0 items
  | _ => throwError msgNotArray
  end.

Definition callGenerativeModelForTopics (prompt : jsstring) : Result (list GeneratedTopic) :=
  let* _ := newGoogleGenAI in
  classifyFailure msgAbnormalOtherKeyword
                  (str "블로그 주제 생성 중 AI 모델과 통신하는 데 실패했습니다. 오류: ")
                  (str "블로그 주제 생성 중 알 수 없는 오류가 발생했습니다.")
                  (callGenerativeModelForTopicsBody prompt).

Definition generateTopicsFromMainKeyword (keyword : jsstring) : Result (list GeneratedTopic) :=
  match trim keyword with
  | [] => throwError msgEmptyKeyword
  | _ => callGenerativeModelForTopics (mainKeywordPrompt keyword)
  end.

Definition generateTopicsFromAllKeywords (mainKeyword : jsstring)
           (relatedKeywords : list jsstring) : Result (list GeneratedTopic) :=
  match trim mainKeyword with
  | [] => throwError (str "메인 키워드가 비어있습니다.")
  | _ => callGenerativeModelForTopics (allKeywordsPrompt mainKeyword relatedKeywords)
  end.

(** [parsed.some(p => !p.category || !Array.isArray(p.suggestions))]. *)
Fixpoint someInvalidCategory (items : list json) : Result bool :=
  match items with
  | [] => Ok false
  | p :: rest =>
    match p with
    | JNull => throwTypeError typeErrorMessage (str "category")
    | _ =>
      if negb (truthyOpt (getProp p (str "category")))
         || match isArray (getProp p (str "suggestions")) with
            | Some _ => false
            | None => true
            end
      then Ok true
      else someInvalidCategory rest
    end
  end.

Definition generateSustainableTopicsBody (keyword : jsstring) : Result json :=
  let* answer := generateContent (sustainablePrompt keyword) in
  let* text := answerText answer in
  let* parsed := JSON_parse syntaxErrorMessage (trim text) in
  match parsed with
  | JArray items =>
    let* invalid := someInvalidCategory items in
    if invalid then throwError msgInvalidShape else Ok parsed
  | _ => throwError msgInvalidShape
  end.

Definition generateSustainableTopics (keyword : jsstring) : Result json :=
  match trim keyword with
  | [] => throwError (str "주제를 생성할 키워드가 비어있습니다.")
  | _ =>
    let* _ := newGoogleGenAI in
    classifyFailure msgAbnormalOtherKeyword
                    (str "지속 가능 주제 생성 중 AI 모델과 통신하는 데 실패했습니다. 오류: ")
                    (str "지속 가능 주제 생성 중 알 수 없는 오류가 발생했습니다.")
                    (generateSustainableTopicsBody keyword)
  end.

(** The [try] block that [generateBlogStrategy] and [generateSerpStrategy]
    have in common: the suggestions are numbered before the shape of the
    answer is checked. *)
Definition strategyReportBody (prompt : jsstring) : Result json :=
  let* answer := generateContent prompt in
  let* text := answerText answer in
  let* parsed := JSON_parse syntaxErrorMessage (trim text) in
  match parsed with
  | JNull => throwTypeError typeErrorMessage (str "suggestions")
  | JObject members =>
    match assocGet (str "suggestions") members with
    | Some (JArray items) =>
      let numbered := JArray (mapIndexed withId 0 items) in
      let parsed' := JObject (assocSet (str "suggestions") numbered members) in
      if negb (truthyOpt (getProp parsed' (str "analysis")))
         || match isArray (getProp parsed' (str "suggestions")) with
            | Some _ => false
            | None => true
            end
      then throwError msgInvalidShape
      else Ok parsed'
    | _ => throwTypeError typeErrorMessage (str "map")
    end
  | _ => throwTypeError typeErrorMessage (str "map")
  end.

Definition generateBlogStrategy (keyword : jsstring) (posts : list BlogPostData) : Result json :=
  match trim keyword with
  | [] => throwError (str "분석할 키워드가 없습니다.")
  | _ =>
    match posts with
    | [] => throwError (str "분석할 블로그 포스트 데이터가 없습니다.")
    | _ =>
      let* _ := newGoogleGenAI in
      classifyFailure msgAbnormalOtherKeyword
                      (str "블로그 공략법 생성 중 AI 모델과 통신하는 데 실패했습니다. 오류: ")
                      (str "블로그 공략법 생성 중 알 수 없는 오류가 발생했습니다.")
                      (strategyReportBody (blogStrategyPrompt keyword posts))
    end
  end.

Definition generateSerpStrategy (keyword : jsstring) (serpData : option GoogleSerpData) :
  Result json :=
  match trim keyword with
  | [] => throwError (str "분석할 키워드가 없습니다.")
  | _ =>
    match serpData with
    | None => throwError (str "분석할 SERP 데이터가 없습니다.")
    | Some data =>
      let* _ := newGoogleGenAI in
      classifyFailure msgAbnormalOtherKeyword
                      (str "SERP 전략 생성 중 AI 모델과 통신하는 데 실패했습니다. 오류: ")
                      (str "SERP 전략 생성 중 알 수 없는 오류가 발생했습니다.")
                      (strategyReportBody (serpStrategyPrompt keyword data))
    end
  end.

(** The validation of [analyzeKeywordCompetition]: [Ok true] when the
    condition of the [if] holds, that is, when the answer is rejected. *)
Definition analysisKeys : list jsstring :=
  [ str "title"; str "reason"; str "opportunity"; str "threat";
    str "consumptionAndIssues"; str "conclusion" ].

Definition competitionInvalid (jsonResponse : json) : Result bool :=
  match jsonResponse with
  | JNull => throwTypeError typeErrorMessage (str "opportunityScore")
  | _ =>
    if negb (isNumber (getProp jsonResponse (str "opportunityScore")))
       || negb (isNumber (getProp jsonResponse (str "searchVolumeEstimate")))
       || negb (isNumber (getProp jsonResponse (str "competitionScore")))
       || negb (isString (getProp jsonResponse (str "competitionLevel")))
       || negb (isNumber (getProp jsonResponse (str "documentCount")))
    then Ok true
    else
      match getProp jsonResponse (str "analysis") with
      | Some JNull => throwTypeError typeErrorMessage (str "title")
      | Some analysis =>
        if negb (isObjectLike analysis)
           || existsb (fun k => negb (isString (getProp analysis k))) analysisKeys
        then Ok true
        else
          match getProp jsonResponse (str "strategy") with
          | Some strategy =>
            if truthy strategy
            then Ok (match isArray (getProp strategy (str "expandedKeywords")),
                           isArray (getProp strategy (str "blogTopics")) with
                     | Some _, Some _ => false
                     | _, _ => true
                     end)
            else Ok false
          | None => Ok false
          end
      | None => Ok true
      end
  end.

(** [s.replace(citationRegex, '').trim()] on a field known to be a string. *)
Definition cleanString (v : option json) : json :=
  match v with
  | Some (JString s) => JString (trim (removeCitations s))
  | _ => JString []
  end.

Definition analyzeKeywordCompetitionBody (keyword : jsstring) : Result json :=
  let* answer := generateContent (competitionPrompt keyword) in
  let* text := answerText answer in
  let* jsonResponse := extractJsonFromText syntaxErrorMessage text in
  let* invalid := competitionInvalid jsonResponse in
  if invalid then throwError msgInvalidAnswer
  else
    let analysis := match getProp jsonResponse (str "analysis") with
                    | Some a => a
                    | None => JNull
                    end in
    let cleanAnalysis := JObject (map (fun k => (k, cleanString (getProp analysis k)))
                                      analysisKeys) in
    let keywordLength := Z.of_nat (length keyword) in
    let spread := fold_left (fun acc kv => assocSet (fst kv) (snd kv) acc)
                            (ownEntries jsonResponse)
                            [(str "keyword", JString keyword)] in
    Ok (JObject (assocSet (str "wordCount") (JNumber (numberOfZ (wordCount keyword)))
                   (assocSet (str "keywordLength") (JNumber (numberOfZ keywordLength))
                      (assocSet (str "analysis") cleanAnalysis spread)))).

Definition analyzeKeywordCompetition (keyword : jsstring) : Result json :=
  match trim keyword with
  | [] => throwError msgEmptyKeyword
  | _ =>
    let* _ := newGoogleGenAI in
    classifyFailure msgAbnormalOtherKeyword
                    (str "키워드 경쟁력 분석 중 AI 모델과 통신하는 데 실패했습니다. 오류: ")
                    (str "키워드 경쟁력 분석 중 알 수 없는 오류가 발생했습니다.")
                    (analyzeKeywordCompetitionBody keyword)
  end.

(** [v || d]. *)
Definition valueOr (v : option json) (d : json) : json :=
  match v with
  | Some x => if truthy x then x else d
  | None => d
  end.

(** [String(v || '')]. *)
Definition stringOr (v : option json) : jsstring :=
  toString numberToString (valueOr v (JString [])).

Definition executePromptAsCompetitionAnalysisBody (prompt : jsstring) : Result json :=
  let* answer := generateContent (wrapperPrompt prompt) in
  let* text := answerText answer in
  let* jsonResponse := extractJsonFromText syntaxErrorMessage text in
  match jsonResponse with
  | JNull => throwTypeError typeErrorMessage (str "keyword")
  | _ =>
    if negb (truthyOpt (getProp jsonResponse (str "keyword")))
       || negb (truthyOpt (getProp jsonResponse (str "analysis")))
    then throwError msgInvalidAnswer
    else
      let analysis := match getProp jsonResponse (str "analysis") with
                      | Some a => a
                      | None => JNull
                      end in
      if negb (truthyOpt (getProp analysis (str "conclusion")))
      then throwError msgInvalidAnswer
      else
        let safeKeyword := stringOr (getProp jsonResponse (str "keyword")) in
        let cleanAnalysis :=
          JObject (map (fun k => (k, JString (stringOr (getProp analysis k)))) analysisKeys) in
        let keywordLength := Z.of_nat (length safeKeyword) in
        Ok (JObject
              [ (str "keyword", JString safeKeyword);
                (str "opportunityScore",
                 valueOr (getProp jsonResponse (str "opportunityScore")) (JInt 0));
                (str "searchVolumeEstimate",
                 valueOr (getProp jsonResponse (str "searchVolumeEstimate")) (JInt 0));
                (str "competitionScore",
                 valueOr (getProp jsonResponse (str "competitionScore")) (JInt 0));
                (str "competitionLevel",
                 valueOr (getProp jsonResponse (str "competitionLevel")) (JString (str "N/A")));
                (str "documentCount",
                 valueOr (getProp jsonResponse (str "documentCount")) (JInt 0));
                (str "analysis", cleanAnalysis);
                (str "keywordLength", JNumber (numberOfZ keywordLength));
                (str "wordCount", JNumber (numberOfZ (wordCount safeKeyword))) ])
  end.

Definition executePromptAsCompetitionAnalysis (prompt : jsstring) : Result json :=
  match trim prompt with
  | [] => throwError (str "프롬프트가 비어있습니다.")
  | _ =>
    let* _ := newGoogleGenAI in
    classifyFailure
      (str "AI 모델이 프롬프트 결과를 처리하는 중 비정상적인 데이터를 반환했습니다. 다시 시도해주세요.")
      (str "프롬프트 실행 중 AI 모델과 통신하는 데 실패했습니다. 오류: ")
      (str "프롬프트 실행 중 알 수 없는 오류가 발생했습니다.")
      (executePromptAsCompetitionAnalysisBody prompt)
  end.

Definition msgNotWeather : jsstring := str "AI 응답이 날씨 데이터 형식이 아닙니다.".
Definition msgWeatherFailed : jsstring := str "실시간 날씨 정보를 가져오는 데 실패했습니다".

Definition fetchCurrentWeatherBody : Result json :=
  let* answer := generateContent weatherPrompt in
  let* text := answerText answer in
  let* parsed := extractJsonFromText syntaxErrorMessage text in
  match parsed with
  | JNull => throwTypeError typeErrorMessage (str "temperature")
  | _ =>
    if truthyOpt (getProp parsed (str "temperature"))
       && truthyOpt (getProp parsed (str "condition"))
       && truthyOpt (getProp parsed (str "wind"))
       && truthyOpt (getProp parsed (str "humidity"))
    then Ok parsed
    else throwError msgNotWeather
  end.

(** The [catch] clause of [fetchCurrentWeather] keeps the message of every
    [Error] behind its own. *)
Definition fetchCurrentWeather : Result json :=
  let* _ := newGoogleGenAI in
  match fetchCurrentWeatherBody with
  | Ok v => Ok v
  | Throw (ThrownError e) => throwError (msgWeatherFailed ++ str ": " ++ err_message e)
  | Throw (ThrownValue _) => throwError (msgWeatherFailed ++ str ".")
  end.

End Reports.

(* ------------------------------------------------------------------ *)
(** ** Vocabulary of the properties *)

Definition nl : jsstring := [10%N].

(** The text of the specification's example: prose, a fenced block marked
    [json], prose. *)
Definition fencedExample : jsstring :=
  str "here is the result:" ++ nl ++ str "```json" ++ nl
  ++ quoted "{'a': [1,2,{'b':'}'}]}" ++ nl ++ str "```" ++ nl ++ str "thanks".

(** The fallback of the depth scan, as the specification words it: the end
    index is the later of the last brace and the last bracket, and the slice
    from the start index through it goes to the parser. *)
Definition fallbackSliceParsed (text : jsstring) : Prop :=
  let jsonString := searchText text in
  let startIndex := startIndexOf jsonString in
  startIndex <> -1 ->
  scanEnd jsonString startIndex = -1 ->
  potentialJson text
  = Ok (sliceInclusive jsonString startIndex
                       (Z.max (lastIndexOf (ch "}") jsonString)
                              (lastIndexOf (ch "]") jsonString))).

(** What the second attempt leaves behind. *)
Definition afterSecond {A} (o : TryOutcome A) : LoopOutcome A :=
  match o with
  | TryReturn v => Returned v
  | TryBreak e | TryContinue e => Exhausted (Some e)
  | TryThrow t => Exhausted (Some (caughtError t))
  end.

(** The run of the strategies after the one that ended with outcome [o]. *)
Definition continueWith {A} (net : nat -> nat -> jsstring -> Flight) (url : jsstring)
           (parser : json -> Result A) (rest : list Proxy) (s : nat) (o : LoopOutcome A) :
  Result A * list Event :=
  match o with
  | Returned v => (Ok v, [])
  | Exhausted l => proxyLoop net url parser rest (S s) l
  end.

(** An event that belongs to a strategy before number [k], or a delay. *)
Definition eventBelow (k : nat) (e : Event) : Prop :=
  match e with
  | EvFetch s _ _ => (s < k)%nat
  | EvDelay _ => True
  end.

(** The first-success rule as the specification words it, for the strategy
    [p] that follows the strategies [front]: the result is the interpreter's
    on the payload, and the request that fetched it is the last event. *)
Definition firstSuccessReturned {A} (net : nat -> nat -> jsstring -> Flight) (url : jsstring)
           (parser : json -> Result A) (front : list Proxy) (p : Proxy) (rest : list Proxy) :
  Prop :=
  forall response payload,
    (forall i q a v, nth_error front i = Some q ->
                     tryAttempt net url parser q i a <> TryReturn v) ->
    fetchWithTimeout (net (length front) 1%nat (buildUrl p url)) FETCH_TIMEOUT_MS = Ok response ->
    resp_ok response = true ->
    parseResponse p response = Ok payload ->
    truthy payload = true ->
    let run := fetchWithProxiesOver net url parser (front ++ p :: rest) in
    fst run = parser payload
    /\ exists pre, snd run = pre ++ [EvFetch (length front) 1 (buildUrl p url)]
                   /\ Forall (eventBelow (length front)) pre.

(** Every retry (an attempt numbered 2 or more) comes right after a delay of
    [RETRY_DELAY_MS]. *)
Definition retriesDelayed (log : list Event) : Prop :=
  forall pre s a u post,
    log = pre ++ EvFetch s a u :: post -> (2 <= a)%nat ->
    exists pre', pre = pre' ++ [EvDelay RETRY_DELAY_MS].

(** Relays and worlds for the examples. *)
Definition plainText (response : Response) : Result json :=
  match resp_text response with
  | Ok text => Ok (JString text)
  | Throw t => Throw t
  end.

Definition textRelay : Proxy := mkProxy (str "relay") (fun url => url) plainText.

Definition answers (body : jsstring) : Flight :=
  mkFlight 120 (Ok (mkResponse true 200 (Ok body))).
Definition refusesWith (status : Z) : Flight :=
  mkFlight 120 (Ok (mkResponse false status (Ok []))).
Definition stalls : Flight :=
  mkFlight 60000 (Ok (mkResponse true 200 (Ok (str "late")))).
Definition unreachable : Flight :=
  mkFlight 30 (Throw (ThrownError (newTypeError (str "Failed to fetch")))).

Definition always (f : Flight) : nat -> nat -> jsstring -> Flight := fun _ _ _ => f.

Definition v8SyntaxMessage (text : jsstring) : jsstring := str "Unexpected token in JSON".
Definition v8TypeMessage (what : jsstring) : jsstring := what ++ str " is not a function".
Definition plainNumber (n : jsnumber) : jsstring := digitsOfZ (mantissa n).

(** A match of the tag pattern somewhere in [s]: a [<] with a [>] after it. *)
Fixpoint hasTag (s : jsstring) : bool :=
  match s with
  | [] => false
  | c :: t => ((c =? ch "<")%N && existsb isGt t) || hasTag t
  end.

(** A match of the citation pattern somewhere in [s]. *)
Fixpoint hasMarker (s : jsstring) : bool :=
  match s with
  | [] => false
  | _ :: t => (match markerLength s with Some _ => true | None => false end) || hasMarker t
  end.

(** Every opening bracket of [s] opens a citation marker. *)
Fixpoint bracketsOpenMarkers (s : jsstring) : bool :=
  match s with
  | [] => true
  | c :: t =>
    (if (c =? ch "[")%N
     then match markerLength s with Some _ => true | None => false end
     else true)
    && bracketsOpenMarkers t
  end.

Definition startsWithSpace (s : jsstring) : bool :=
  match s with
  | [] => false
  | c :: _ => isWhiteSpace c
  end.

(** Neither the first nor the last code unit is white space. *)
Definition noOuterWhitespace (s : jsstring) : bool :=
  negb (startsWithSpace s) && negb (startsWithSpace (rev s)).

(** The string fields of a result of [generateRelatedKeywords]. *)
Definition stringFields (data : GoogleSerpData) : list jsstring :=
  related_searches data
  ++ flat_map (fun paa => [question paa; answer paa; content_gap_analysis paa])
              (people_also_ask data).

(** The cleaning as stated: at most five questions, and fields free of
    citation markers and of outer white space. *)
Definition statedClean (data : GoogleSerpData) : Prop :=
  (length (people_also_ask data) <= 5)%nat
  /\ Forall (fun f => hasMarker f = false /\ noOuterWhitespace f = true) (stringFields data).

(** The texts the citation pattern matches, read off the pattern: an
    opening bracket, a number, any number of groups of a comma, an optional
    space and a number, and the closing bracket. *)
Definition digitRun (ds : jsstring) : Prop :=
  ds <> [] /\ forallb isDigit ds = true.

Inductive markerRest : jsstring -> Prop :=
| rest_close : markerRest [ch "]"]
| rest_group (sp ds r : jsstring) :
    sp = [] \/ sp = [ch " "] -> digitRun ds -> markerRest r ->
    markerRest (ch "," :: sp ++ ds ++ r).

Definition isMarker (m : jsstring) : Prop :=
  exists ds r, digitRun ds /\ markerRest r /\ m = ch "[" :: ds ++ r.

(** A marker begins the text. *)
Definition marksAt (s : jsstring) : Prop :=
  exists m rest, isMarker m /\ s = m ++ rest.

(** A marker occurs in the text. *)
Definition holdsMarker (s : jsstring) : Prop :=
  exists pre m post, isMarker m /\ s = pre ++ m ++ post.

(** Every opening bracket of the text begins a marker. *)
Definition bracketsBeginMarkers (s : jsstring) : Prop :=
  forall pre post, s = pre ++ ch "[" :: post -> marksAt (ch "[" :: post).

(** One pass from left to right: where a marker begins it is deleted whole
    and the pass goes on behind it, otherwise the code unit is kept. What
    the pass leaves is never looked at again. *)
Inductive markersDeleted : jsstring -> jsstring -> Prop :=
| deleted_nil : markersDeleted [] []
| deleted_marker (m rest out : jsstring) :
    isMarker m -> markersDeleted rest out -> markersDeleted (m ++ rest) out
| deleted_keep (c : N) (rest out : jsstring) :
    ~ marksAt (c :: rest) -> markersDeleted rest out ->
    markersDeleted (c :: rest) (c :: out).

(** [f] is [s] without the white space at its two ends. *)
Definition trimmedOf (s f : jsstring) : Prop :=
  exists l r, s = l ++ f ++ r
              /\ forallb isWhiteSpace l = true /\ forallb isWhiteSpace r = true
              /\ noOuterWhitespace f = true.

(** The text of a field of the model's answer; a field that holds no string
    counts as the empty text. *)
Definition textOf (v : option json) : jsstring :=
  match v with
  | Some (JString s) => s
  | _ => []
  end.

(** What the cleaning achieves for one field: [f] is the text [raw] of the
    model after one pass deleting its citation markers, trimmed; it holds no
    marker when every opening bracket of [raw] began one. *)
Definition cleanedFrom (raw f : jsstring) : Prop :=
  (exists mid, markersDeleted raw mid /\ trimmedOf mid f)
  /\ (bracketsBeginMarkers raw -> ~ holdsMarker f).

(** What the states of the marker scan have still to read. *)
Definition markerTail (st : cstate) (body : jsstring) : Prop :=
  match st with
  | CNeedDigit => exists ds r, digitRun ds /\ markerRest r /\ body = ds ++ r
  | CDigits => exists ds r, forallb isDigit ds = true /\ markerRest r /\ body = ds ++ r
  | CAfterComma =>
    exists sp ds r, (sp = [] \/ sp = [ch " "]) /\ digitRun ds /\ markerRest r
                    /\ body = sp ++ ds ++ r
  end.

(** A related search of the result against the element of the model's array
    it was made from. *)
Definition cleanedSearch (search : json) (f : jsstring) : Prop :=
  cleanedFrom (textOf (Some search)) f.

(** A question of the result against the element of the model's array it
    was made from. *)
Definition cleanedPaa (paa : json) (item : PaaItem) : Prop :=
  cleanedFrom (textOf (getProp paa (str "question"))) (question item)
  /\ cleanedFrom (textOf (getProp paa (str "answer"))) (answer item)
  /\ cleanedFrom (textOf (getProp paa (str "content_gap_analysis")))
                 (content_gap_analysis item).

(** The extra guarantees of the Naver path. *)
Definition naverClean (source : SearchSource) : list (KeywordData (kwType source)) -> Prop :=
  match source as s return list (KeywordData (kwType s)) -> Prop with
  | naver => fun l => NoDup (map keyword l)
                      /\ Forall (fun k => hasTag (keyword k) = false) l
  | google => fun _ => True
  end.

(** A model that answers with a fixed text. *)
Definition modelSays (text : jsstring) : jsstring -> Result (option jsstring) :=
  fun _ => Ok (Some text).

(** The cleaning claim for one call of [generateRelatedKeywords]. *)
Definition cleaningAsStated (syntaxErrorMessage typeErrorMessage : jsstring -> jsstring)
           (newGoogleGenAI : Result unit)
           (generateContent : jsstring -> Result (option jsstring)) (word : jsstring) : Prop :=
  forall data,
    generateRelatedKeywords syntaxErrorMessage typeErrorMessage newGoogleGenAI
                            generateContent word = Ok data ->
    statedClean data.

(** An answer whose only related search nests one marker in another. *)
Definition nestedCitationAnswer : jsstring :=
  quoted "{'related_searches': ['[[1]2]'], 'people_also_ask': []}".

(** An answer with ordinary citations and padding. *)
Definition citedAnswer : jsstring :=
  str "```json" ++ nl
  ++ quoted "{'related_searches': [' seo tips [1] ', 'seo tools[2, 3]'],"
  ++ quoted " 'people_also_ask': [{'question': 'what is seo? [4]', 'answer': 'ranking [5,6] work ', 'content_gap_analysis': null}]}"
  ++ nl ++ str "```".

(** A world where the first strategy is refused with status 503 and the
    others answer. *)
Definition firstRefused : nat -> nat -> jsstring -> Flight :=
  fun strategy _ _ => if (strategy =? 0)%nat then refusesWith 503 else answers (str "ok").

(** A world where only the bare keyword [seo] gets suggestions from Naver,
    every other request failing to connect. *)
Definition naverAnswer : jsstring :=
  quoted "{'items':[[['<b>seo</b> tips'],['seo tips'],['seo <i>tools']]]}".

Definition onlyBareTerm : nat -> nat -> jsstring -> Flight :=
  fun _ _ url => if includes (str "q=seo&") url then answers naverAnswer else unreachable.

Definition rawUrl (url : jsstring) : jsstring := url.


(** The 1-based positions, counted from [index], of the items that are
    objects or arrays. *)
Fixpoint objectPositions (index : Z) (items : list json) : list Z :=
  match items with
  | [] => []
  | item :: rest =>
    if isObjectLike item then (index + 1) :: objectPositions (index + 1) rest
    else objectPositions (index + 1) rest
  end.

(** A recommended keyword against the item of the model's array it was made
    from. *)
Definition cleanedRecommendation (item : json) (r : RecommendedKeyword) : Prop :=
  cleanedFrom (textOf (getProp item (str "keyword"))) (rk_keyword r)
  /\ cleanedFrom (textOf (getProp item (str "reason"))) (rk_reason r)
  /\ cleanedFrom (textOf (getProp item (str "title"))) (rk_title r)
  /\ cleanedFrom (textOf (getProp item (str "thumbnailCopy"))) (rk_thumbnailCopy r)
  /\ cleanedFrom (textOf (getProp item (str "strategy"))) (rk_strategy r).

(** A topic copies the three fields of its item. *)
Definition topicOf (item : json) (t : GeneratedTopic) : Prop :=
  gt_title t = getProp item (str "title")
  /\ gt_thumbnailCopy t = getProp item (str "thumbnailCopy")
  /\ gt_strategy t = getProp item (str "strategy").

(** A category the topic view can show: a truthy [category] and an array of
    [suggestions]. *)
Definition validCategory (p : json) : Prop :=
  truthyOpt (getProp p (str "category")) = true
  /\ exists suggestions, getProp p (str "suggestions") = Some (JArray suggestions).

(** A strategy report whose suggestions carry their 1-based position as
    [id]. *)
Definition numberedReport (v : json) : Prop :=
  exists members items,
    v = JObject members
    /\ truthyOpt (assocGet (str "analysis") members) = true
    /\ assocGet (str "suggestions") members = Some (JArray items)
    /\ forall k item, nth_error items k = Some item ->
                      getProp item (str "id")
                      = Some (JNumber (numberOfZ (Z.of_nat k + 1))).

(** The six fields of a cleaned analysis, in the order of the source, each
    against the string the model gave under the same key. *)
Definition cleanedAnalysis (rawAnalysis : json) (fields : list (jsstring * json)) : Prop :=
  map fst fields = analysisKeys
  /\ Forall (fun kv => exists raw s,
                 getProp rawAnalysis (fst kv) = Some (JString raw)
                 /\ snd kv = JString s /\ cleanedFrom raw s) fields.

(** The kind of value a bracket announces: an array for [true], an object
    for [false]. *)
Definition valueKind (array : bool) (v : json) : Prop :=
  if array then exists items, v = JArray items else exists members, v = JObject members.

Definition slotKind (s : slot) : bool :=
  match s with
  | InArray _ => true
  | InObject _ _ => false
  end.

(** The outermost container under construction is of the given kind. *)
Fixpoint bottomIs (array : bool) (stack : list slot) : Prop :=
  match stack with
  | [] => False
  | [s] => slotKind s = array
  | _ :: t => bottomIs array t
  end.

(** An empty stack while the top-level container of the given kind is
    open, or a stack resting on a container of that kind. *)
Definition restsOn (array own : bool) (stack : list slot) : Prop :=
  (stack = [] /\ own = array) \/ bottomIs array stack.

(** The parser is inside, or has just finished, a top-level value of the
    given kind. *)
Definition parsingKind (array : bool) (st : pstate) : Prop :=
  match st with
  | PValue stack => bottomIs array stack
  | PArrayOpen stack | PAfterItem _ stack => restsOn array true stack
  | PObjectOpen stack | PKey _ stack | PColon _ _ stack | PAfterMember _ stack =>
    restsOn array false stack
  | PDone v => valueKind array v
  end.

(** Answers of the model for the examples of the reports. *)
Definition recommendedAnswer : jsstring :=
  quoted "[{'keyword': 'tax credit [1]', 'reason': ' new today '}, 5, null, {'title': 'guide[2, 3]'}]".

Definition topicsAnswer : jsstring :=
  quoted " [{'title': 'a', 'thumbnailCopy': 'b', 'strategy': 'c'}, {'title': 'd'}] ".

Definition sustainableAnswer : jsstring :=
  quoted "[{'category': 'basics', 'suggestions': []}, {'category': 'trends', 'suggestions': [{'title': 't'}]}]".

Definition strategyAnswer : jsstring :=
  quoted "{'analysis': {'structure': 's'}, 'suggestions': [{'title': 'x', 'id': 7}, {'title': 'y'}]}".

Definition competitionAnswer : jsstring :=
  quoted "{'opportunityScore': 70, 'searchVolumeEstimate': 55, 'competitionScore': 40, 'competitionLevel': 'mid', 'documentCount': 1200, 'wordCount': 99, 'analysis': {'title': 't [1]', 'reason': ' r ', 'opportunity': 'o', 'threat': 'h', 'consumptionAndIssues': 'c', 'conclusion': 'done[2, 3]'}}".

Definition noPrompt : jsstring -> jsstring := fun _ => [].

(** The fields a weather report must hold. *)
Definition weatherKeys : list jsstring :=
  [ str "temperature"; str "condition"; str "wind"; str "humidity" ].

(** The fields of the report of [executePromptAsCompetitionAnalysis], in
    order, and the defaults of its five measures. *)
Definition promptReportKeys : list jsstring :=
  [ str "keyword"; str "opportunityScore"; str "searchVolumeEstimate";
    str "competitionScore"; str "competitionLevel"; str "documentCount";
    str "analysis"; str "keywordLength"; str "wordCount" ].

Definition promptDefaults : list (jsstring * json) :=
  [ (str "opportunityScore", JInt 0); (str "searchVolumeEstimate", JInt 0);
    (str "competitionScore", JInt 0); (str "competitionLevel", JString (str "N/A"));
    (str "documentCount", JInt 0) ].

(** Answers for the examples of the Google path, of empty Naver answers, of
    the weather report and of the free prompt. *)
Definition googleAnswer : jsstring :=
  quoted "['seo',['seo tips','<b>seo</b>','seo tips']]".

Definition emptyNaverAnswer : jsstring := quoted "{'items': null}".

Definition weatherAnswer : jsstring :=
  quoted "{'temperature': '21C', 'condition': 'clear', 'wind': '2 m/s', 'humidity': '40%'}".

Definition promptAnswer : jsstring :=
  quoted "{'keyword': 'tax credit guide', 'competitionLevel': '', 'documentCount': 12, 'analysis': {'title': 7, 'conclusion': ['a', 'b']}}".


(** The suggestions of the fulfilled sub-fetches, in the order of the
    sub-fetches. *)
Definition suggestionsOf (settlements : list (Result (list jsstring))) : list jsstring :=
  flat_map (fun r => match r with Ok v => v | Throw _ => [] end) settlements.

(** A list without its repetitions: every value stays where it first
    occurs. *)
Fixpoint distinct (l : list jsstring) : list jsstring :=
  match l with
  | [] => []
  | x :: t => x :: filter (fun y => negb (jsstring_eqb y x)) (distinct t)
  end.

(** Weather answers whose temperature is a number too small for a binary64
    value other than zero, and the least number that is not. *)
Definition underflowingWeatherAnswer : jsstring :=
  quoted "{'temperature': 1e-400, 'condition': 'clear', 'wind': '2 m/s', 'humidity': '40%'}".

Definition leastWeatherAnswer : jsstring :=
  quoted "{'temperature': 5e-324, 'condition': 'clear', 'wind': '2 m/s', 'humidity': '40%'}".

(* ------------------------------------------------------------------ *)
(** * Properties *)

(** ** Index arithmetic of the string primitives *)

Lemma searchFrom_range (p : N -> bool) (s : jsstring) (i : Z) :
  searchFrom p s i = -1 \/ (i <= searchFrom p s i < i + Z.of_nat (length s)).
Proof.
  revert i. induction s as [|c t IH]; intros i; simpl.
  - now left.
  - destruct (p c).
    + right. lia.
    + destruct (IH (i + 1)) as [H | H]; [now left | right; lia].
Qed.

Lemma lastIndexFrom_range (x : N) (s : jsstring) (i found : Z) :
  lastIndexFrom x s i found = found
  \/ (i <= lastIndexFrom x s i found < i + Z.of_nat (length s)).
Proof.
  revert i found. induction s as [|c t IH]; intros i found; simpl.
  - now left.
  - destruct (IH (i + 1) (if (c =? x)%N then i else found)) as [H | H].
    + rewrite H. destruct (c =? x)%N; [right; lia | now left].
    + right. lia.
Qed.

Lemma lastIndexOf_range (x : N) (s : jsstring) :
  -1 <= lastIndexOf x s < Z.of_nat (length s).
Proof.
  unfold lastIndexOf. destruct (lastIndexFrom_range x s 0 (-1)) as [H | H]; lia.
Qed.

Lemma substring_inclusive (s : jsstring) (a b : Z) :
  0 <= a -> a <= b -> b < Z.of_nat (length s) ->
  substring s a (b + 1) = sliceInclusive s a b.
Proof.
  intros Ha Hab Hb. unfold substring, sliceInclusive, clampIndex.
  replace (Z.min (Z.max 0 (Z.min a (Z.of_nat (length s))))
                 (Z.max 0 (Z.min (b + 1) (Z.of_nat (length s))))) with a by lia.
  replace (Z.max (Z.max 0 (Z.min a (Z.of_nat (length s))))
                 (Z.max 0 (Z.min (b + 1) (Z.of_nat (length s))))) with (b + 1) by lia.
  reflexivity.
Qed.

(** ** The extractor *)

(** The example, code unit by code unit: the double quotes are the units 34
    and the line feeds the units 10. *)
Lemma fencedExample_units :
  fencedExample
  = [104; 101; 114; 101; 32; 105; 115; 32; 116; 104; 101; 32; 114; 101; 115; 117; 108;
     116; 58; 10; 96; 96; 96; 106; 115; 111; 110; 10; 123; 34; 97; 34; 58; 32; 91; 49; 44;
     50; 44; 123; 34; 98; 34; 58; 34; 125; 34; 125; 93; 125; 10; 96; 96; 96; 10; 116; 104;
     97; 110; 107; 115]%N.
Proof. vm_compute. reflexivity. Qed.

(** C3. On the specification's example text, [extractJsonFromText] returns
    the object with key [a] bound to the array of 1, 2 and the object whose
    key [b] is the one-character string of a closing brace. The depth scan
    ends on the last brace of the value (index 21), not on the brace inside
    the string (index 17), so the whole value reaches the parser. *)
Theorem extractJsonFromText_fenced_example (syntaxErrorMessage : jsstring -> jsstring) :
  extractJsonFromText syntaxErrorMessage fencedExample
  = Ok (JObject [(str "a", JArray [JInt 1; JInt 2;
                                   JObject [(str "b", JString (str "}"))]])])
  /\ nth_error (searchText fencedExample) 17 = Some (ch "}")
  /\ scanEnd (searchText fencedExample) (startIndexOf (searchText fencedExample)) = 21
  /\ potentialJson fencedExample = Ok (quoted "{'a': [1,2,{'b':'}'}]}").
Proof. vm_compute. repeat split; reflexivity. Qed.

(** C8, as stated, fails on a text that opens a value and never closes it:
    there is no brace or bracket to fall back to, the end index stays -1 and
    the extractor throws before the parser is reached. *)
Lemma fallbackSliceParsed_fails_unclosed : ~ fallbackSliceParsed (str "{").
Proof.
  unfold fallbackSliceParsed. intros H.
  assert (E : potentialJson (str "{") = throwError msgNoJsonEnd) by (vm_compute; reflexivity).
  rewrite E in H. specialize (H ltac:(vm_compute; discriminate) ltac:(vm_compute; reflexivity)).
  discriminate H.
Qed.

(** C8 (amended). When the depth never returns to zero, the end index is the
    later of the last closing brace and the last closing bracket of the
    search text. If neither occurs the extractor throws its end-not-found
    error and nothing is parsed; if the end index is at or after the start
    index, the slice from the start index through the end index, both
    included, is what goes to the parser. *)
Theorem fallback_end_index (text : jsstring) :
  let jsonString := searchText text in
  let startIndex := startIndexOf jsonString in
  let fallback := Z.max (lastIndexOf (ch "}") jsonString) (lastIndexOf (ch "]") jsonString) in
  startIndex <> -1 ->
  scanEnd jsonString startIndex = -1 ->
  endIndexOf jsonString startIndex = fallback
  /\ (fallback = -1 -> potentialJson text = throwError msgNoJsonEnd)
  /\ (startIndex <= fallback ->
      potentialJson text = Ok (sliceInclusive jsonString startIndex fallback)).
Proof.
  intros jsonString startIndex fallback Hstart Hscan.
  assert (Hend : endIndexOf jsonString startIndex = fallback).
  { unfold endIndexOf. rewrite Hscan. reflexivity. }
  assert (Hpot : potentialJson text
                 = if fallback =? -1 then throwError msgNoJsonEnd
                   else Ok (substring jsonString startIndex (fallback + 1))).
  { unfold potentialJson. fold jsonString. fold startIndex.
    destruct (Z.eqb_spec startIndex (-1)) as [E | _]; [contradiction |].
    rewrite Hend. reflexivity. }
  split; [exact Hend |]. split.
  - intros E. rewrite Hpot, E. reflexivity.
  - intros Hle. rewrite Hpot.
    pose proof (lastIndexOf_range (ch "}") jsonString) as Hb.
    pose proof (lastIndexOf_range (ch "]") jsonString) as Hk.
    destruct (searchFrom_range isOpener jsonString 0) as [E | Hr];
      [exfalso; apply Hstart; exact E |].
    fold (startIndexOf jsonString) in Hr. fold startIndex in Hr.
    destruct (Z.eqb_spec fallback (-1)) as [E | _]; [lia |].
    rewrite substring_inclusive; [reflexivity | lia | exact Hle | unfold fallback; lia].
Qed.

(** A value that opens two objects and closes one: the scan fails and the
    last brace is taken. *)
Lemma fallback_end_index_witness :
  let text := quoted "{'a': {'b': 1}" in
  endIndexOf (searchText text) (startIndexOf (searchText text)) = 13
  /\ potentialJson text = Ok (quoted "{'a': {'b': 1}").
Proof.
  pose proof (fallback_end_index (quoted "{'a': {'b': 1}")) as H.
  cbv zeta in H.
  specialize (H ltac:(vm_compute; discriminate) ltac:(vm_compute; reflexivity)).
  destruct H as [H1 [_ H3]]. split.
  - rewrite H1. vm_compute. reflexivity.
  - rewrite H3; [vm_compute; reflexivity | vm_compute; discriminate].
Defined.

(** ** The fetcher *)

Section FetcherFacts.

Context {A : Type}.
Variable net : nat -> nat -> jsstring -> Flight.
Variable targetUrl : jsstring.
Variable responseParser : json -> Result A.

Abbreviation tryAt := (tryAttempt net targetUrl responseParser).
Abbreviation attempts := (attemptLoop net targetUrl responseParser).
Abbreviation loop := (proxyLoop net targetUrl responseParser).
Abbreviation fetchEv p s a := (EvFetch s a (buildUrl p targetUrl)).
Abbreviation delayEv := (EvDelay RETRY_DELAY_MS).

(** The two rounds of the inner loop, written out. *)
Lemma attemptLoop_unfold (p : Proxy) (s : nat) (last : option JsError) :
  attempts p s MAX_RETRIES_PER_PROXY 1%nat last =
  match tryAt p s 1%nat with
  | TryReturn v => (Returned v, [fetchEv p s 1%nat])
  | TryBreak e => (Exhausted (Some e), [fetchEv p s 1%nat])
  | TryContinue _ =>
    (afterSecond (tryAt p s 2%nat), [fetchEv p s 1%nat; fetchEv p s 2%nat])
  | TryThrow _ =>
    (afterSecond (tryAt p s 2%nat), [fetchEv p s 1%nat; delayEv; fetchEv p s 2%nat])
  end.
Proof.
  unfold MAX_RETRIES_PER_PROXY. simpl.
  destruct (tryAt p s 1%nat); try reflexivity;
    destruct (tryAt p s 2%nat); reflexivity.
Qed.

Lemma proxyLoop_cons (p : Proxy) (rest : list Proxy) (s : nat) (last : option JsError) :
  loop (p :: rest) s last =
  match fst (attempts p s MAX_RETRIES_PER_PROXY 1%nat last) with
  | Returned v => (Ok v, snd (attempts p s MAX_RETRIES_PER_PROXY 1%nat last))
  | Exhausted l =>
    (fst (loop rest (S s) l),
     snd (attempts p s MAX_RETRIES_PER_PROXY 1%nat last) ++ snd (loop rest (S s) l))
  end.
Proof.
  cbn [proxyLoop].
  destruct (attempts p s MAX_RETRIES_PER_PROXY 1%nat last) as [[v | l] log]; cbn [fst snd].
  - reflexivity.
  - destruct (loop rest (S s) l). reflexivity.
Qed.

Lemma tryAttempt_throw (p : Proxy) (s a : nat) (t : Thrown) :
  fetchWithTimeout (net s a (buildUrl p targetUrl)) FETCH_TIMEOUT_MS = Throw t ->
  tryAt p s a = TryThrow t.
Proof. intros H. unfold tryAttempt. rewrite H. reflexivity. Qed.

Lemma tryAttempt_not_ok (p : Proxy) (s a : nat) (response : Response) :
  fetchWithTimeout (net s a (buildUrl p targetUrl)) FETCH_TIMEOUT_MS = Ok response ->
  resp_ok response = false ->
  tryAt p s a = TryBreak (newError (msgHttp (resp_status response))).
Proof. intros H Hok. unfold tryAttempt. rewrite H, Hok. reflexivity. Qed.

(** [continue] is reached on an empty payload and nowhere else. *)
Lemma tryAttempt_continue (p : Proxy) (s a : nat) (e : JsError) :
  tryAt p s a = TryContinue e <->
  e = newError msgEmpty /\
  exists response rawContent,
    fetchWithTimeout (net s a (buildUrl p targetUrl)) FETCH_TIMEOUT_MS = Ok response
    /\ resp_ok response = true
    /\ parseResponse p response = Ok rawContent
    /\ truthy rawContent = false.
Proof.
  unfold tryAttempt. split.
  - destruct (fetchWithTimeout _ _) as [response | t] eqn:Hf; [| discriminate].
    destruct (resp_ok response) eqn:Hok; cbn [negb]; [| discriminate].
    destruct (parseResponse p response) as [raw | t] eqn:Hp; [| discriminate].
    destruct (truthy raw) eqn:Htr; cbn [negb].
    + destruct (responseParser raw); discriminate.
    + intros H. injection H as <-. split; [reflexivity |].
      exists response, raw. repeat split; assumption || reflexivity.
  - intros [-> (response & raw & Hf & Hok & Hp & Htr)].
    rewrite Hf, Hok, Hp, Htr. reflexivity.
Qed.

Lemma tryAttempt_return (p : Proxy) (s a : nat) (response : Response) (payload : json) (v : A) :
  fetchWithTimeout (net s a (buildUrl p targetUrl)) FETCH_TIMEOUT_MS = Ok response ->
  resp_ok response = true ->
  parseResponse p response = Ok payload ->
  truthy payload = true ->
  responseParser payload = Ok v ->
  tryAt p s a = TryReturn v.
Proof.
  intros Hf Hok Hp Htr Hv. unfold tryAttempt. rewrite Hf, Hok, Hp, Htr, Hv. reflexivity.
Qed.

Lemma countFetches_app (l1 l2 : list Event) :
  countFetches (l1 ++ l2) = (countFetches l1 + countFetches l2)%nat.
Proof. unfold countFetches. rewrite filter_app, length_app. reflexivity. Qed.

(** Every strategy exhausted by exceptions: two requests each, and the error
    kept at the end is the one caught on the last attempt. *)
Lemma proxyLoop_all_throw (front : list Proxy) (p : Proxy) (s : nat) (last : option JsError) :
  (forall s a u, exists t, fetchWithTimeout (net s a u) FETCH_TIMEOUT_MS = Throw t) ->
  exists t,
    fetchWithTimeout (net (s + length front) 2 (buildUrl p targetUrl)) FETCH_TIMEOUT_MS = Throw t
    /\ fst (loop (front ++ [p]) s last)
       = Throw (ThrownError (finalError (Some (caughtError t))))
    /\ countFetches (snd (loop (front ++ [p]) s last)) = (2 * (length front + 1))%nat.
Proof.
  intros Hall. revert s last.
  induction front as [| q front IH]; intros s last.
  - destruct (Hall s 1%nat (buildUrl p targetUrl)) as [t1 H1].
    destruct (Hall s 2%nat (buildUrl p targetUrl)) as [t2 H2].
    exists t2. cbn [app length]. rewrite Nat.add_0_r. split; [exact H2 |].
    rewrite proxyLoop_cons, attemptLoop_unfold.
    rewrite (tryAttempt_throw _ _ _ _ H1), (tryAttempt_throw _ _ _ _ H2).
    cbn. split; reflexivity.
  - destruct (Hall s 1%nat (buildUrl q targetUrl)) as [t1 H1].
    destruct (Hall s 2%nat (buildUrl q targetUrl)) as [t2 H2].
    destruct (IH (S s) (Some (caughtError t2))) as (t & Ht & Hres & Hcount).
    exists t. cbn [app length].
    replace (s + S (length front))%nat with (S s + length front)%nat by lia.
    split; [exact Ht |].
    rewrite proxyLoop_cons, attemptLoop_unfold.
    rewrite (tryAttempt_throw _ _ _ _ H1), (tryAttempt_throw _ _ _ _ H2).
    cbn [afterSecond fst snd]. split; [exact Hres |].
    rewrite countFetches_app, Hcount. cbn. lia.
Qed.


Lemma skipn_past (front : list Proxy) (p : Proxy) (rest : list Proxy) :
  skipn (S (length front)) (front ++ p :: rest) = rest.
Proof. induction front as [| q front IH]; [reflexivity | exact IH]. Qed.

Lemma nth_error_middle (front : list Proxy) (p : Proxy) (rest : list Proxy) :
  nth_error (front ++ p :: rest) (length front) = Some p.
Proof. induction front as [| q front IH]; [reflexivity | exact IH]. Qed.

Lemma proxyLoop_step (p : Proxy) (rest : list Proxy) (s : nat) (last : option JsError) :
  loop (p :: rest) s last =
  (fst (continueWith net targetUrl responseParser rest s
                     (fst (attempts p s MAX_RETRIES_PER_PROXY 1%nat last))),
   snd (attempts p s MAX_RETRIES_PER_PROXY 1%nat last)
   ++ snd (continueWith net targetUrl responseParser rest s
                        (fst (attempts p s MAX_RETRIES_PER_PROXY 1%nat last)))).
Proof.
  rewrite proxyLoop_cons.
  destruct (fst (attempts p s MAX_RETRIES_PER_PROXY 1%nat last)); cbn [continueWith fst snd].
  - rewrite app_nil_r. reflexivity.
  - reflexivity.
Qed.

(** Every event of a run lies in the segment of one strategy; what follows
    it is the end of that segment and then the run of the later strategies. *)
Lemma proxyLoop_anatomy (proxies : list Proxy) :
  forall s0 last pre e post,
    snd (loop proxies s0 last) = pre ++ e :: post ->
    exists front p rest last' pre0 segPre segPost,
      proxies = front ++ p :: rest
      /\ pre = pre0 ++ segPre
      /\ snd (attempts p (s0 + length front) MAX_RETRIES_PER_PROXY 1%nat last')
         = segPre ++ e :: segPost
      /\ post = segPost
                ++ snd (continueWith net targetUrl responseParser rest (s0 + length front)
                          (fst (attempts p (s0 + length front) MAX_RETRIES_PER_PROXY 1%nat last')))
      /\ fst (loop proxies s0 last)
         = fst (continueWith net targetUrl responseParser rest (s0 + length front)
                  (fst (attempts p (s0 + length front) MAX_RETRIES_PER_PROXY 1%nat last'))).
Proof.
  induction proxies as [| q qs IH]; intros s0 last pre e post H.
  - cbn in H. destruct pre; discriminate H.
  - rewrite proxyLoop_step in H |- *. cbn [fst snd] in H |- *.
    assert (Hlater : forall l,
               snd (continueWith net targetUrl responseParser qs s0
                      (fst (attempts q s0 MAX_RETRIES_PER_PROXY 1%nat last)))
               = l ++ e :: post ->
               exists front p rest last' pre0 segPre segPost,
                 q :: qs = front ++ p :: rest
                 /\ snd (attempts q s0 MAX_RETRIES_PER_PROXY 1%nat last) ++ l = pre0 ++ segPre
                 /\ snd (attempts p (s0 + length front) MAX_RETRIES_PER_PROXY 1%nat last')
                    = segPre ++ e :: segPost
                 /\ post = segPost
                           ++ snd (continueWith net targetUrl responseParser rest
                                     (s0 + length front)
                                     (fst (attempts p (s0 + length front)
                                                    MAX_RETRIES_PER_PROXY 1%nat last')))
                 /\ fst (continueWith net targetUrl responseParser qs s0
                           (fst (attempts q s0 MAX_RETRIES_PER_PROXY 1%nat last)))
                    = fst (continueWith net targetUrl responseParser rest (s0 + length front)
                             (fst (attempts p (s0 + length front)
                                            MAX_RETRIES_PER_PROXY 1%nat last')))).
    { intros l Hl.
      destruct (fst (attempts q s0 MAX_RETRIES_PER_PROXY 1%nat last)) as [v | l0];
        cbn [continueWith fst snd] in Hl |- *.
      - destruct l; discriminate Hl.
      - destruct (IH (S s0) l0 l e post Hl)
          as (front & p & rest & last' & pre0 & segPre & segPost & Hp & Hpre & Hseg & Hpost & Hres).
        exists (q :: front), p, rest, last',
               (snd (attempts q s0 MAX_RETRIES_PER_PROXY 1%nat last) ++ pre0), segPre, segPost.
        cbn [length]. replace (s0 + S (length front))%nat with (S s0 + length front)%nat by lia.
        repeat split.
        + rewrite Hp. reflexivity.
        + rewrite Hpre, app_assoc. reflexivity.
        + exact Hseg.
        + exact Hpost.
        + exact Hres. }
    apply app_eq_app in H. destruct H as [l [[Hseg Hl] | [Hpre Hl]]].
    + destruct l as [| x l'].
      * rewrite app_nil_r in Hseg. cbn [app] in Hl. symmetry in Hl.
        destruct (Hlater [] Hl)
          as (front & p & rest & last' & pre0 & segPre & segPost & Hp & Hp0 & Hs & Hpost & Hres).
        exists front, p, rest, last', pre0, segPre, segPost.
        rewrite app_nil_r, Hseg in Hp0. repeat split; assumption.
      * cbn [app] in Hl. injection Hl as -> ->.
        exists [], q, qs, last, [], pre, l'. cbn [length app]. rewrite Nat.add_0_r.
        repeat split; try reflexivity. exact Hseg.
    + destruct (Hlater l Hl)
        as (front & p & rest & last' & pre0 & segPre & segPost & Hp & Hp0 & Hs & Hpost & Hres).
      exists front, p, rest, last', pre0, segPre, segPost.
      rewrite <- Hpre in Hp0. repeat split; assumption.
Qed.

(** Where a request can stand in the segment of its strategy. *)
Lemma segment_event (p : Proxy) (s : nat) (last : option JsError)
      (segPre segPost : list Event) (s' a : nat) (u : jsstring) :
  snd (attempts p s MAX_RETRIES_PER_PROXY 1%nat last) = segPre ++ EvFetch s' a u :: segPost ->
  s' = s /\ u = buildUrl p targetUrl
  /\ ((a = 1%nat /\ segPre = []
       /\ match tryAt p s 1%nat with
          | TryReturn v =>
            segPost = []
            /\ fst (attempts p s MAX_RETRIES_PER_PROXY 1%nat last) = Returned v
          | TryBreak e =>
            segPost = []
            /\ fst (attempts p s MAX_RETRIES_PER_PROXY 1%nat last) = Exhausted (Some e)
          | TryContinue _ => segPost = [fetchEv p s 2%nat]
          | TryThrow _ => segPost = [delayEv; fetchEv p s 2%nat]
          end)
      \/ (a = 2%nat /\ segPost = []
          /\ fst (attempts p s MAX_RETRIES_PER_PROXY 1%nat last) = afterSecond (tryAt p s 2%nat)
          /\ ((exists e, tryAt p s 1%nat = TryContinue e) /\ segPre = [fetchEv p s 1%nat]
              \/ (exists t, tryAt p s 1%nat = TryThrow t)
                 /\ segPre = [fetchEv p s 1%nat; delayEv]))).
Proof.
  rewrite attemptLoop_unfold.
  destruct (tryAt p s 1%nat) as [v | e | e | t] eqn:H1; cbn [fst snd]; intros H.
  - destruct segPre as [| x [| y ?]]; cbn in H; try discriminate H.
    injection H as <- <- <- <-. repeat split. left. repeat split.
  - destruct segPre as [| x [| y ?]]; cbn in H; try discriminate H.
    injection H as <- <- <- <-. repeat split. left. repeat split.
  - destruct segPre as [| x [| y [| z ?]]]; cbn in H; try discriminate H.
    + injection H as <- <- <- <-. repeat split. left. repeat split.
    + injection H as -> <- <- <- <-. repeat split. right. repeat split.
      left. split; [exists e; reflexivity | reflexivity].
  - destruct segPre as [| x [| y [| z [| w ?]]]]; cbn in H; try discriminate H.
    + injection H as <- <- <- <-. repeat split. left. repeat split.
    + injection H as -> -> <- <- <- <-. repeat split. right. repeat split.
      right. split; [exists t; reflexivity | reflexivity].
Qed.

(** A run that starts at strategy [s0] never names an earlier one. *)
Lemma proxyLoop_events_from (proxies : list Proxy) :
  forall s0 last s a u,
    In (EvFetch s a u) (snd (loop proxies s0 last)) -> (s0 <= s)%nat.
Proof.
  induction proxies as [| q qs IH]; intros s0 last s a u Hin.
  - cbn in Hin. contradiction.
  - rewrite proxyLoop_step in Hin. cbn [snd] in Hin. apply in_app_or in Hin.
    destruct Hin as [Hin | Hin].
    + apply in_split in Hin. destruct Hin as (l1 & l2 & Hsplit).
      apply segment_event in Hsplit. destruct Hsplit as [-> _]. lia.
    + destruct (fst (attempts q s0 MAX_RETRIES_PER_PROXY 1%nat last)) as [v | l];
        cbn [continueWith snd] in Hin; [contradiction |].
      apply IH in Hin. lia.
Qed.

Ltac all_below :=
  repeat (apply Forall_cons; [cbn; first [lia | exact I] |]); apply Forall_nil.

(** The strategies of [front] fail on every attempt, then the first attempt
    on [p] brings a payload the interpreter accepts. *)
Lemma proxyLoop_first_success (front : list Proxy) (p : Proxy) (rest : list Proxy)
      (response : Response) (payload : json) (v : A) :
  forall s0 last,
    (forall i q a v', nth_error front i = Some q -> tryAt q (s0 + i) a <> TryReturn v') ->
    tryAt p (s0 + length front) 1%nat = TryReturn v ->
    fst (loop (front ++ p :: rest) s0 last) = Ok v
    /\ exists pre,
        snd (loop (front ++ p :: rest) s0 last) = pre ++ [fetchEv p (s0 + length front) 1%nat]
        /\ Forall (eventBelow (s0 + length front)) pre.
Proof.
  induction front as [| q front IH]; intros s0 last Hfail Hret.
  - cbn [app length] in *. rewrite Nat.add_0_r in *.
    rewrite proxyLoop_cons, attemptLoop_unfold, Hret. cbn [fst snd].
    split; [reflexivity |]. exists []. split; [reflexivity | constructor].
  - cbn [app length] in *.
    replace (s0 + S (length front))%nat with (S s0 + length front)%nat in * by lia.
    assert (Hfail' : forall i q' a v',
               nth_error front i = Some q' -> tryAt q' (S s0 + i) a <> TryReturn v').
    { intros i q' a v' Hi. replace (S s0 + i)%nat with (s0 + S i)%nat by lia.
      apply Hfail. exact Hi. }
    assert (H1 : forall v', tryAt q s0 1%nat <> TryReturn v').
    { intros v'. specialize (Hfail 0%nat q 1%nat v' eq_refl).
      rewrite Nat.add_0_r in Hfail. exact Hfail. }
    assert (H2 : forall v', tryAt q s0 2%nat <> TryReturn v').
    { intros v'. specialize (Hfail 0%nat q 2%nat v' eq_refl).
      rewrite Nat.add_0_r in Hfail. exact Hfail. }
    assert (Hseg : exists l seg,
               attempts q s0 MAX_RETRIES_PER_PROXY 1%nat last = (Exhausted l, seg)
               /\ Forall (eventBelow (S s0 + length front)) seg).
    { rewrite attemptLoop_unfold.
      destruct (tryAt q s0 1%nat) as [v1 | e | e | t].
      - exfalso. apply (H1 v1). reflexivity.
      - eexists _, _. split; [reflexivity |]. all_below.
      - destruct (tryAt q s0 2%nat) as [v2 | e2 | e2 | t2];
          [exfalso; apply (H2 v2); reflexivity | | |];
          (eexists _, _; split; [reflexivity |]; all_below).
      - destruct (tryAt q s0 2%nat) as [v2 | e2 | e2 | t2];
          [exfalso; apply (H2 v2); reflexivity | | |];
          (eexists _, _; split; [reflexivity |]; all_below). }
    destruct Hseg as (l & seg & Hrun & Hbelow).
    destruct (IH (S s0) l Hfail' Hret) as (Hres & pre & Hlog & Hpre).
    rewrite proxyLoop_cons, Hrun. cbn [fst snd]. split; [exact Hres |].
    exists (seg ++ pre). rewrite Hlog, app_assoc. split; [reflexivity |].
    apply Forall_app. split; assumption.
Qed.

(** C2 (amended). When the strategies before strategy k fail on all their
    attempts, the first attempt on strategy k brings a successful non-empty
    payload, and the interpreter returns normally on that payload,
    [fetchWithProxies] returns the interpreter's result at once: the request
    that brought the payload is the last event of the run, and every event
    before it belongs to an earlier strategy. *)
Theorem first_success_is_returned (front : list Proxy) (p : Proxy) (rest : list Proxy)
        (response : Response) (payload : json) (v : A) :
  (forall i q a v', nth_error front i = Some q -> tryAt q i a <> TryReturn v') ->
  fetchWithTimeout (net (length front) 1%nat (buildUrl p targetUrl)) FETCH_TIMEOUT_MS
  = Ok response ->
  resp_ok response = true ->
  parseResponse p response = Ok payload ->
  truthy payload = true ->
  responseParser payload = Ok v ->
  let run := fetchWithProxiesOver net targetUrl responseParser (front ++ p :: rest) in
  fst run = Ok v
  /\ exists pre, snd run = pre ++ [EvFetch (length front) 1 (buildUrl p targetUrl)]
                 /\ Forall (eventBelow (length front)) pre.
Proof.
  intros Hfail Hf Hok Hp Htr Hv run. unfold run, fetchWithProxiesOver.
  apply (proxyLoop_first_success front p rest response payload v 0 None).
  - exact Hfail.
  - cbn [Nat.add]. eapply tryAttempt_return; eassumption.
Qed.

(** C6. In any run, a request answered with an unsuccessful HTTP status is
    the last one of its strategy: what comes after it, events and result, is
    exactly the run of the strategies that follow, entered with the
    HTTP-status error as the last known error; no later event is a request
    of the same strategy. *)
Theorem http_error_moves_to_next_strategy (proxies : list Proxy)
        (pre post : list Event) (s a : nat) (u : jsstring) (response : Response) :
  let run := fetchWithProxiesOver net targetUrl responseParser proxies in
  snd run = pre ++ EvFetch s a u :: post ->
  fetchWithTimeout (net s a u) FETCH_TIMEOUT_MS = Ok response ->
  resp_ok response = false ->
  let recorded := Some (newError (msgHttp (resp_status response))) in
  let next := loop (skipn (S s) proxies) (S s) recorded in
  post = snd next
  /\ fst run = fst next
  /\ (forall a' u', ~ In (EvFetch s a' u') post).
Proof.
  intros run Hlog Hf Hok recorded next. unfold run, fetchWithProxiesOver in *.
  destruct (proxyLoop_anatomy proxies 0 None pre (EvFetch s a u) post Hlog)
    as (front & p & rest & last' & pre0 & segPre & segPost & Hp & Hpre & Hseg & Hpost & Hres).
  cbn [Nat.add] in *.
  destruct (segment_event p (length front) last' segPre segPost s a u Hseg)
    as (Hs & Hu & Hcases).
  subst s u.
  pose proof (tryAttempt_not_ok p (length front) a response Hf Hok) as Hbreak.
  assert (Hout : fst (attempts p (length front) MAX_RETRIES_PER_PROXY 1%nat last')
                 = Exhausted recorded /\ segPost = []).
  { destruct Hcases as [(-> & _ & H1) | (-> & Hnil & Hfst & _)].
    - rewrite Hbreak in H1. destruct H1 as [Hnil Hfst]. split; assumption.
    - rewrite Hbreak in Hfst. split; assumption. }
  destruct Hout as [Hout ->]. rewrite Hout in Hpost, Hres.
  cbn [continueWith app] in Hpost, Hres.
  assert (Hnext : next = loop rest (S (length front)) recorded).
  { unfold next. rewrite Hp, skipn_past. reflexivity. }
  rewrite Hnext. split; [exact Hpost |]. split; [exact Hres |].
  intros a' u' Hin. rewrite Hpost in Hin.
  apply proxyLoop_events_from in Hin. lia.
Qed.

(** C5 (amended). A strategy is tried at most twice. A retry that follows an
    exception comes right after the delay of [RETRY_DELAY_MS]; a retry that
    follows an empty payload comes right after the failed request, with no
    delay in between. And an empty payload on the first attempt is always
    followed by the second attempt on the same strategy. *)
Theorem retry_is_delayed_after_exception_only (proxies : list Proxy) :
  let log := snd (fetchWithProxiesOver net targetUrl responseParser proxies) in
  (forall pre s a u post,
      log = pre ++ EvFetch s a u :: post -> (2 <= a)%nat ->
      a = 2%nat
      /\ exists p,
          nth_error proxies s = Some p /\ u = buildUrl p targetUrl
          /\ ((exists t, tryAt p s 1%nat = TryThrow t)
              /\ (exists pre', pre = pre' ++ [EvFetch s 1 u; EvDelay RETRY_DELAY_MS])
              \/ tryAt p s 1%nat = TryContinue (newError msgEmpty)
                 /\ (exists pre', pre = pre' ++ [EvFetch s 1 u])))
  /\ (forall pre s u post p e,
         log = pre ++ EvFetch s 1 u :: post ->
         nth_error proxies s = Some p ->
         tryAt p s 1%nat = TryContinue e ->
         exists post', post = EvFetch s 2 u :: post').
Proof.
  intros log. unfold log, fetchWithProxiesOver. split.
  - intros pre s a u post Hlog Ha.
    destruct (proxyLoop_anatomy proxies 0 None pre (EvFetch s a u) post Hlog)
      as (front & p & rest & last' & pre0 & segPre & segPost & Hp & Hpre & Hseg & _ & _).
    cbn [Nat.add] in *.
    destruct (segment_event p (length front) last' segPre segPost s a u Hseg)
      as (Hs & Hu & Hcases).
    destruct Hcases as [(-> & _) | (-> & _ & _ & Hfirst)]; [lia |].
    split; [reflexivity |]. exists p. subst s.
    split; [rewrite Hp; apply nth_error_middle |]. split; [exact Hu |].
    destruct Hfirst as [[[e He] Hsp] | [[t Ht] Hsp]].
    + right. split.
      * pose proof He as He'. apply tryAttempt_continue in He'.
        destruct He' as [-> _]. exact He.
      * exists pre0. rewrite Hpre, Hsp, Hu. reflexivity.
    + left. split; [exists t; exact Ht |].
      exists pre0. rewrite Hpre, Hsp, Hu. reflexivity.
  - intros pre s u post p e Hlog Hnth Hcont.
    destruct (proxyLoop_anatomy proxies 0 None pre (EvFetch s 1 u) post Hlog)
      as (front & p' & rest & last' & pre0 & segPre & segPost & Hp & Hpre & Hseg & Hpost & _).
    cbn [Nat.add] in *.
    destruct (segment_event p' (length front) last' segPre segPost s 1%nat u Hseg)
      as (Hs & Hu & Hcases).
    subst s. rewrite Hp, nth_error_middle in Hnth. injection Hnth as ->.
    destruct Hcases as [(_ & _ & H1) | (Habs & _)]; [| discriminate Habs].
    rewrite Hcont in H1. rewrite Hpost, H1, Hu. cbn [app]. eexists. reflexivity.
Qed.

(** The error left after a run in which the timer fired on every attempt. *)
Lemma timers_fire_reason (f : Flight) :
  timerFires f FETCH_TIMEOUT_MS = true ->
  fetchWithTimeout f FETCH_TIMEOUT_MS = Throw (ThrownValue abortReason).
Proof. intros H. unfold fetchWithTimeout. rewrite H. reflexivity. Qed.

(** C4 (the code at the failing input). When the timer fires on every
    attempt, each rejection carries the abort reason, a string and no
    [Error]; the [catch] clause replaces it with the unknown-request error,
    and the error finally thrown is the generic all-proxies-failed one, not
    the timeout one. *)
Theorem all_timeouts_end_in_generic_error (front : list Proxy) (p : Proxy) :
  (forall s a u, timerFires (net s a u) FETCH_TIMEOUT_MS = true) ->
  fst (fetchWithProxiesOver net targetUrl responseParser (front ++ [p]))
  = Throw (ThrownError (newError (msgAllFailedPrefix ++ msgUnknownRequest
                                                     ++ msgAllFailedSuffix)))
  /\ fst (fetchWithProxiesOver net targetUrl responseParser (front ++ [p]))
     <> Throw (ThrownError (newError msgTimeout)).
Proof.
  intros Hfire.
  assert (Hall : forall s a u, exists t,
               fetchWithTimeout (net s a u) FETCH_TIMEOUT_MS = Throw t).
  { intros s a u. eexists. apply timers_fire_reason, Hfire. }
  destruct (proxyLoop_all_throw front p 0 None Hall) as (t & Ht & Hres & _).
  rewrite timers_fire_reason in Ht by apply Hfire. injection Ht as <-.
  unfold fetchWithProxiesOver. rewrite Hres.
  assert (E : finalError (Some (caughtError (ThrownValue abortReason)))
              = newError (msgAllFailedPrefix ++ msgUnknownRequest ++ msgAllFailedSuffix))
    by (vm_compute; reflexivity).
  rewrite E. split; [reflexivity |]. vm_compute. discriminate.
Qed.

(** The sibling path: rejections that are [TypeError]s about [fetch] are
    classified, and so would be an [Error] whose message held [Timeout]. *)
Lemma all_unreachable_end_in_connectivity_error (front : list Proxy) (p : Proxy) :
  (forall s a u, fetchWithTimeout (net s a u) FETCH_TIMEOUT_MS
                 = Throw (ThrownError (newTypeError (str "Failed to fetch")))) ->
  fst (fetchWithProxiesOver net targetUrl responseParser (front ++ [p]))
  = Throw (ThrownError (newError msgConnectivity)).
Proof.
  intros Hfail.
  assert (Hall : forall s a u, exists t,
               fetchWithTimeout (net s a u) FETCH_TIMEOUT_MS = Throw t).
  { intros s a u. eexists. apply Hfail. }
  destruct (proxyLoop_all_throw front p 0 None Hall) as (t & Ht & Hres & _).
  rewrite Hfail in Ht. injection Ht as <-.
  unfold fetchWithProxiesOver. rewrite Hres. vm_compute. reflexivity.
Qed.

End FetcherFacts.

Lemma finalError_of_timeout_error :
  finalError (Some (newError (str "Timeout"))) = newError msgTimeout.
Proof. vm_compute. reflexivity. Qed.

(** Engines that ignore the abort reason reject with an [AbortError]; its
    message names no timeout either, and the outcome is the generic error
    again, now around that message. *)
Lemma finalError_of_abort_error :
  finalError (Some (caughtError (ThrownError
                                   (mkJsError ClsDOMException
                                              (str "The user aborted a request.")))))
  = newError (msgAllFailedPrefix ++ str "The user aborted a request." ++ msgAllFailedSuffix).
Proof. vm_compute. reflexivity. Qed.

(** The three ways the final error speaks of the last failure. *)
Lemma finalError_message (e : JsError) :
  err_message (finalError (Some e))
  = if includes (str "Timeout") (err_message e) then msgTimeout
    else if isTypeError e && includes (str "fetch") (err_message e) then msgConnectivity
    else msgAllFailedPrefix ++ orElse (err_message e) msgUnknown ++ msgAllFailedSuffix.
Proof.
  unfold finalError.
  destruct (includes (str "Timeout") (err_message e)); [reflexivity |].
  destruct (isTypeError e && includes (str "fetch") (err_message e)); reflexivity.
Qed.

(** The list the service ships: three relays, hence six requests when every
    attempt throws. *)
Lemma fetchWithProxies_exhausts_PROXIES {A}
      (syntaxErrorMessage encodeURIComponent : jsstring -> jsstring)
      (net : nat -> nat -> jsstring -> Flight)
      (targetUrl : jsstring) (responseParser : json -> Result A) :
  (forall s a u, exists t, fetchWithTimeout (net s a u) FETCH_TIMEOUT_MS = Throw t) ->
  (exists t,
      fetchWithProxies syntaxErrorMessage encodeURIComponent net targetUrl responseParser
      = Throw (ThrownError (finalError (Some (caughtError t)))))
  /\ countFetches (snd (fetchWithProxiesOver net targetUrl responseParser
                                             (PROXIES syntaxErrorMessage encodeURIComponent)))
     = 6%nat.
Proof.
  intros Hall. unfold fetchWithProxies, fetchWithProxiesOver.
  destruct (proxyLoop_all_throw net targetUrl responseParser
              (firstn 2 (PROXIES syntaxErrorMessage encodeURIComponent))
              (nth 2 (PROXIES syntaxErrorMessage encodeURIComponent) textRelay)
              0 None Hall) as (t & _ & Hres & Hcount).
  split; [exists t; exact Hres | exact Hcount].
Qed.

(** The other extractor examples of the specification. *)
Example extractJsonFromText_first_value_wins (syntaxErrorMessage : jsstring -> jsstring) :
  extractJsonFromText syntaxErrorMessage (str "[1, 2, 3] some trailing text {not json}")
  = Ok (JArray [JInt 1; JInt 2; JInt 3]).
Proof. vm_compute. reflexivity. Qed.

Example extractJsonFromText_no_json (syntaxErrorMessage : jsstring -> jsstring) :
  extractJsonFromText syntaxErrorMessage (str "no structured data here")
  = throwError msgNoJson.
Proof. vm_compute. reflexivity. Qed.

(** ** Strings *)

Lemma jsstring_eqb_eq (a b : jsstring) : jsstring_eqb a b = true <-> a = b.
Proof.
  unfold jsstring_eqb. destruct (list_eq_dec N.eq_dec a b); split; congruence.
Qed.

Lemma dropWhile_head {X} (p : X -> bool) (l : list X) :
  match dropWhile p l with
  | [] => True
  | c :: _ => p c = false
  end.
Proof.
  induction l as [| x t IH]; cbn; [exact I |].
  destruct (p x) eqn:E; [exact IH | exact E].
Qed.

Lemma dropWhile_app_stop {X} (p : X -> bool) (l r : list X) (c : X) :
  p c = false -> dropWhile p (l ++ c :: r) = dropWhile p l ++ c :: r.
Proof.
  intros Hc. induction l as [| x t IH]; cbn.
  - rewrite Hc. reflexivity.
  - destruct (p x); [exact IH | reflexivity].
Qed.

Lemma dropWhile_incl {X} (p : X -> bool) (l : list X) (x : X) :
  In x (dropWhile p l) -> In x l.
Proof.
  induction l as [| y t IH]; cbn; [tauto |].
  destruct (p y); [intros H; right; apply IH, H | cbn; tauto].
Qed.

Lemma trim_incl (s : jsstring) (c : N) : In c (trim s) -> In c s.
Proof.
  unfold trim, trimEnd, trimStart. intros H.
  apply in_rev, dropWhile_incl, in_rev, dropWhile_incl in H. exact H.
Qed.

Lemma trimEnd_cons (c : N) (t : jsstring) :
  isWhiteSpace c = false -> trimEnd (c :: t) = c :: trimEnd t.
Proof.
  intros Hc. unfold trimEnd. cbn [rev].
  rewrite (dropWhile_app_stop isWhiteSpace (rev t) [] c Hc).
  rewrite rev_app_distr. reflexivity.
Qed.

Lemma trim_noOuterWhitespace (s : jsstring) : noOuterWhitespace (trim s) = true.
Proof.
  unfold noOuterWhitespace. apply andb_true_intro. split.
  - unfold trim, trimStart.
    pose proof (dropWhile_head isWhiteSpace s) as H.
    destruct (dropWhile isWhiteSpace s) as [| c t]; [reflexivity |].
    rewrite (trimEnd_cons c t H). cbn. rewrite H. reflexivity.
  - unfold trim, trimEnd. rewrite rev_involutive.
    pose proof (dropWhile_head isWhiteSpace (rev (trimStart s))) as H.
    destruct (dropWhile isWhiteSpace (rev (trimStart s))) as [| c t]; [reflexivity |].
    cbn. rewrite H. reflexivity.
Qed.

(** ** Tags and citation markers *)

Lemma stripTagsFrom_incl (s : jsstring) :
  forall inTag c, In c (stripTagsFrom inTag s) -> In c s.
Proof.
  induction s as [| x t IH]; intros inTag c; [cbn; tauto |].
  destruct inTag; cbn [stripTagsFrom].
  - intros H. right. eapply IH, H.
  - destruct ((x =? ch "<")%N && existsb isGt t).
    + intros H. right. eapply IH, H.
    + cbn [In]. intros [H | H]; [left; exact H | right; eapply IH, H].
Qed.

Lemma existsb_isGt_stripTags (s : jsstring) (inTag : bool) :
  existsb isGt s = false -> existsb isGt (stripTagsFrom inTag s) = false.
Proof.
  intros H. destruct (existsb isGt (stripTagsFrom inTag s)) eqn:E; [| reflexivity].
  apply existsb_exists in E. destruct E as (c & Hin & Hc).
  apply stripTagsFrom_incl in Hin.
  assert (existsb isGt s = true) by (apply existsb_exists; exists c; auto).
  congruence.
Qed.

Lemma hasTag_stripTagsFrom (s : jsstring) :
  forall inTag, hasTag (stripTagsFrom inTag s) = false.
Proof.
  induction s as [| x t IH]; intros inTag; [reflexivity |].
  destruct inTag; cbn [stripTagsFrom]; [apply IH |].
  destruct ((x =? ch "<")%N && existsb isGt t) eqn:E; [apply IH |].
  cbn [hasTag]. rewrite IH, orb_false_r.
  apply andb_false_iff in E. destruct E as [E | E].
  - rewrite E. reflexivity.
  - rewrite (existsb_isGt_stripTags t false E). apply andb_false_r.
Qed.

Lemma hasTag_stripTags (s : jsstring) : hasTag (stripTags s) = false.
Proof. apply hasTag_stripTagsFrom. Qed.

Lemma hasMarker_bracket (s : jsstring) : hasMarker s = true -> In (ch "[") s.
Proof.
  induction s as [| c t IH]; [cbn; discriminate |].
  cbn [hasMarker markerLength]. destruct (c =? ch "[")%N eqn:E.
  - intros _. left. apply N.eqb_eq in E. exact E.
  - cbn [orb]. intros H. right. apply IH, H.
Qed.

Lemma removeCitationsFrom_no_bracket (s : jsstring) :
  forall skip, bracketsOpenMarkers s = true ->
               ~ In (ch "[") (removeCitationsFrom skip s).
Proof.
  induction s as [| c t IH]; intros skip Hb; [cbn; tauto |].
  cbn [bracketsOpenMarkers] in Hb. apply andb_prop in Hb. destruct Hb as [Hc Ht].
  cbn [removeCitationsFrom]. destruct skip as [| k]; [| apply IH, Ht].
  destruct (markerLength (c :: t)) as [n |] eqn:Hm; [apply IH, Ht |].
  cbn [In]. intros [Heq | Hin]; [| exact (IH 0%nat Ht Hin)].
  subst c. rewrite N.eqb_refl in Hc. discriminate Hc.
Qed.

Lemma cleaned_marker_free (raw : jsstring) :
  bracketsOpenMarkers raw = true -> hasMarker (trim (removeCitations raw)) = false.
Proof.
  intros Hb. destruct (hasMarker (trim (removeCitations raw))) eqn:E; [| reflexivity].
  apply hasMarker_bracket, trim_incl in E.
  exfalso. exact (removeCitationsFrom_no_bracket raw 0 Hb E).
Qed.

(** ** The citation pattern *)

Lemma digitRun_cons (d : N) (ds : jsstring) :
  isDigit d = true -> forallb isDigit ds = true -> digitRun (d :: ds).
Proof.
  intros Hd Hds. split; [discriminate |]. cbn [forallb]. rewrite Hd, Hds. reflexivity.
Qed.

Lemma markerEnd_sound (s : jsstring) :
  forall st n k,
    markerEnd st s n = Some k ->
    exists body rest, s = body ++ rest /\ k = (n + length body)%nat /\ markerTail st body.
Proof.
  induction s as [| c t IH]; intros st n k H; [discriminate H |].
  cbn [markerEnd] in H. destruct st.
  - destruct (isDigit c) eqn:Hc; [| discriminate H].
    destruct (IH _ _ _ H) as (body & rest & -> & -> & ds & r & Hds & Hr & ->).
    exists (c :: ds ++ r), rest. split; [reflexivity |]. split; [cbn [length]; lia |].
    exists (c :: ds), r. split; [apply digitRun_cons; assumption |]. split; [exact Hr | reflexivity].
  - destruct (isDigit c) eqn:Hc.
    + destruct (IH _ _ _ H) as (body & rest & -> & -> & ds & r & Hds & Hr & ->).
      exists (c :: ds ++ r), rest. split; [reflexivity |]. split; [cbn [length]; lia |].
      exists (c :: ds), r. cbn [forallb]. rewrite Hc, Hds.
      split; [reflexivity |]. split; [exact Hr | reflexivity].
    + destruct (c =? ch ",")%N eqn:Hcomma.
      * apply N.eqb_eq in Hcomma. subst c.
        destruct (IH _ _ _ H) as (body & rest & -> & -> & sp & ds & r & Hsp & Hds & Hr & ->).
        exists (ch "," :: sp ++ ds ++ r), rest.
        split; [reflexivity |]. split; [cbn [length]; lia |].
        exists [], (ch "," :: sp ++ ds ++ r).
        split; [reflexivity |]. split; [apply rest_group; assumption | reflexivity].
      * destruct (c =? ch "]")%N eqn:Hclose; [| discriminate H].
        apply N.eqb_eq in Hclose. subst c. injection H as <-.
        exists [ch "]"], t. split; [reflexivity |]. split; [cbn [length]; lia |].
        exists [], [ch "]"]. split; [reflexivity |]. split; [apply rest_close | reflexivity].
  - destruct (c =? ch " ")%N eqn:Hsp.
    + apply N.eqb_eq in Hsp. subst c.
      destruct (IH _ _ _ H) as (body & rest & -> & -> & ds & r & Hds & Hr & ->).
      exists (ch " " :: ds ++ r), rest. split; [reflexivity |]. split; [cbn [length]; lia |].
      exists [ch " "], ds, r. split; [right; reflexivity |].
      split; [exact Hds |]. split; [exact Hr | reflexivity].
    + destruct (isDigit c) eqn:Hc; [| discriminate H].
      destruct (IH _ _ _ H) as (body & rest & -> & -> & ds & r & Hds & Hr & ->).
      exists (c :: ds ++ r), rest. split; [reflexivity |]. split; [cbn [length]; lia |].
      exists [], (c :: ds), r. split; [left; reflexivity |].
      split; [apply digitRun_cons; assumption |]. split; [exact Hr | reflexivity].
Qed.

Lemma markerLength_sound (s : jsstring) (n : nat) :
  markerLength s = Some n ->
  exists m rest, isMarker m /\ s = m ++ rest /\ length m = n.
Proof.
  unfold markerLength. destruct s as [| c t]; [discriminate |].
  destruct (c =? ch "[")%N eqn:Hc; [| discriminate].
  apply N.eqb_eq in Hc. subst c. intros H.
  destruct (markerEnd_sound _ _ _ _ H) as (body & rest & -> & -> & ds & r & Hds & Hr & ->).
  exists (ch "[" :: ds ++ r), rest.
  split; [exists ds, r; split; [exact Hds | split; [exact Hr | reflexivity]] |].
  split; reflexivity.
Qed.

Lemma digit_is_no_space (d : N) : isDigit d = true -> (d =? ch " ")%N = false.
Proof.
  unfold isDigit. intros H. apply andb_true_iff in H. destruct H as [H _].
  apply N.leb_le in H. apply N.eqb_neq. change (ch " ") with 32%N. lia.
Qed.

Lemma markerEnd_digits (ds s : jsstring) :
  forallb isDigit ds = true ->
  forall n, markerEnd CDigits (ds ++ s) n = markerEnd CDigits s (n + length ds).
Proof.
  induction ds as [| d ds IH]; intros H n; cbn [app length].
  - rewrite Nat.add_0_r. reflexivity.
  - cbn [forallb] in H. apply andb_true_iff in H. destruct H as [Hd Hds].
    cbn [markerEnd]. rewrite Hd, (IH Hds). f_equal. lia.
Qed.

Lemma markerEnd_run (ds s : jsstring) (n : nat) :
  digitRun ds ->
  markerEnd CNeedDigit (ds ++ s) n = markerEnd CDigits s (n + length ds).
Proof.
  intros [Hne Hds]. destruct ds as [| d ds]; [contradiction |].
  cbn [forallb] in Hds. apply andb_true_iff in Hds. destruct Hds as [Hd Hds].
  cbn [app markerEnd length]. rewrite Hd, (markerEnd_digits ds s Hds). f_equal. lia.
Qed.

Lemma markerEnd_rest (r : jsstring) :
  markerRest r ->
  forall rest n, markerEnd CDigits (r ++ rest) n = Some (n + length r)%nat.
Proof.
  induction 1 as [| sp ds r Hsp Hds Hr IH]; intros rest n.
  - cbn. f_equal. lia.
  - change ((ch "," :: sp ++ ds ++ r) ++ rest) with (ch "," :: (sp ++ ds ++ r) ++ rest).
    cbn [markerEnd].
    change (isDigit (ch ",")) with false. change (ch "," =? ch ",")%N with true. cbv iota.
    rewrite <- !app_assoc.
    destruct Hsp as [-> | ->].
    + cbn [app]. destruct Hds as [Hne Hall]. destruct ds as [| d ds]; [contradiction |].
      cbn [forallb] in Hall. apply andb_true_iff in Hall. destruct Hall as [Hd Hall].
      cbn [app markerEnd]. rewrite (digit_is_no_space d Hd), Hd.
      rewrite (markerEnd_digits ds _ Hall), IH. f_equal. cbn [length].
      rewrite !length_app. cbn [length]. lia.
    + cbn [app markerEnd]. change (ch " " =? ch " ")%N with true. cbv iota.
      rewrite (markerEnd_run ds _ _ Hds), IH. f_equal. cbn [length].
      rewrite !length_app. cbn [length]. lia.
Qed.

Lemma markerLength_complete (m rest : jsstring) :
  isMarker m -> markerLength (m ++ rest) = Some (length m).
Proof.
  intros (ds & r & Hds & Hr & ->). cbn [app markerLength].
  change (ch "[" =? ch "[")%N with true. cbv iota.
  rewrite <- app_assoc, (markerEnd_run ds _ _ Hds), (markerEnd_rest r Hr).
  f_equal. cbn [length]. rewrite length_app. lia.
Qed.

Lemma marksAt_markerLength (s : jsstring) :
  marksAt s <-> markerLength s <> None.
Proof.
  split.
  - intros (m & rest & Hm & ->). rewrite (markerLength_complete m rest Hm). discriminate.
  - destruct (markerLength s) as [n |] eqn:E; [| congruence].
    intros _. destruct (markerLength_sound s n E) as (m & rest & Hm & -> & _).
    exists m, rest. split; [exact Hm | reflexivity].
Qed.

Lemma hasMarker_holdsMarker (s : jsstring) : hasMarker s = true <-> holdsMarker s.
Proof.
  split.
  - induction s as [| c t IH]; [discriminate |].
    cbn [hasMarker]. intros H. apply orb_true_iff in H. destruct H as [H | H].
    + destruct (markerLength (c :: t)) as [n |] eqn:E; [| discriminate H].
      destruct (markerLength_sound _ _ E) as (m & rest & Hm & Heq & _).
      exists [], m, rest. split; [exact Hm | exact Heq].
    + destruct (IH H) as (pre & m & post & Hm & ->).
      exists (c :: pre), m, post. split; [exact Hm | reflexivity].
  - intros (pre & m & post & Hm & ->).
    induction pre as [| c pre IH].
    + cbn [app]. pose proof (markerLength_complete m post Hm) as E.
      destruct (m ++ post) as [| c t] eqn:Hmp; [discriminate E |].
      cbn [hasMarker]. rewrite E. reflexivity.
    + change ((c :: pre) ++ m ++ post) with (c :: pre ++ m ++ post).
      cbn [hasMarker]. rewrite IH. apply orb_true_r.
Qed.

Lemma bracketsBeginMarkers_bool (s : jsstring) :
  bracketsBeginMarkers s -> bracketsOpenMarkers s = true.
Proof.
  induction s as [| c t IH]; intros H; [reflexivity |].
  cbn [bracketsOpenMarkers]. apply andb_true_intro. split.
  - destruct (c =? ch "[")%N eqn:Hc; [| reflexivity].
    apply N.eqb_eq in Hc. subst c.
    pose proof (proj1 (marksAt_markerLength _) (H [] t eq_refl)) as Hm.
    destruct (markerLength (ch "[" :: t)); [reflexivity | congruence].
  - apply IH. intros pre post ->. exact (H (c :: pre) post eq_refl).
Qed.

(** ** One pass over the text *)

Lemma removeCitationsFrom_skip (s : jsstring) :
  forall k, removeCitationsFrom k s = removeCitationsFrom 0 (skipn k s).
Proof.
  induction s as [| c t IH]; intros k.
  - destruct k; reflexivity.
  - destruct k as [| k]; [reflexivity |].
    cbn [removeCitationsFrom skipn]. apply IH.
Qed.

Lemma removeCitations_marker (m rest : jsstring) :
  isMarker m -> removeCitationsFrom 0 (m ++ rest) = removeCitationsFrom 0 rest.
Proof.
  intros Hm. pose proof (markerLength_complete m rest Hm) as E.
  destruct Hm as (ds & r & _ & _ & ->).
  change ((ch "[" :: ds ++ r) ++ rest) with (ch "[" :: (ds ++ r) ++ rest) in *.
  cbn [removeCitationsFrom]. rewrite E. cbn [length pred].
  rewrite removeCitationsFrom_skip, skipn_app, skipn_all, Nat.sub_diag. reflexivity.
Qed.

Lemma removeCitations_deleted (n : nat) :
  forall s, (length s <= n)%nat -> markersDeleted s (removeCitations s).
Proof.
  unfold removeCitations.
  induction n as [| n IH]; intros s Hlen.
  - destruct s; [constructor | cbn in Hlen; lia].
  - destruct s as [| c t]; [constructor |].
    destruct (markerLength (c :: t)) as [k |] eqn:E.
    + destruct (markerLength_sound _ _ E) as (m & rest & Hm & Heq & _).
      rewrite Heq, (removeCitations_marker m rest Hm).
      apply deleted_marker; [exact Hm |]. apply IH.
      assert (Hpos : (1 <= length m)%nat).
      { destruct Hm as (ds & r & _ & _ & ->). cbn [length]. lia. }
      apply (f_equal (@length N)) in Heq. rewrite length_app in Heq.
      cbn [length] in Heq, Hlen. lia.
    + cbn [removeCitationsFrom]. rewrite E.
      apply deleted_keep.
      * intros Hm. apply marksAt_markerLength in Hm. congruence.
      * apply IH. cbn [length] in Hlen. lia.
Qed.

(** ** Trimming *)

Lemma dropWhile_split {X} (p : X -> bool) (l : list X) :
  exists dropped, l = dropped ++ dropWhile p l /\ forallb p dropped = true.
Proof.
  induction l as [| x t (d & Heq & Hd)]; [exists []; split; reflexivity |].
  cbn [dropWhile]. destruct (p x) eqn:Hx.
  - exists (x :: d). cbn [app forallb]. rewrite Hx, Hd, <- Heq. split; reflexivity.
  - exists []. split; reflexivity.
Qed.

Lemma forallb_rev {X} (p : X -> bool) (l : list X) :
  forallb p l = true -> forallb p (rev l) = true.
Proof.
  intros H. apply forallb_forall. intros x Hx. apply in_rev in Hx.
  exact (proj1 (forallb_forall p l) H x Hx).
Qed.

Lemma trim_trimmedOf (s : jsstring) : trimmedOf s (trim s).
Proof.
  unfold trimmedOf.
  destruct (dropWhile_split isWhiteSpace s) as (l & Hl & Hlw).
  destruct (dropWhile_split isWhiteSpace (rev (trimStart s))) as (r & Hr & Hrw).
  exists l, (rev r). split; [| split; [exact Hlw | split; [apply forallb_rev, Hrw |]]].
  - unfold trim, trimEnd. rewrite <- rev_app_distr, <- Hr, rev_involutive. exact Hl.
  - apply trim_noOuterWhitespace.
Qed.

(** The cleaning of one field. *)
Lemma cleanedFrom_intro (raw : jsstring) : cleanedFrom raw (trim (removeCitations raw)).
Proof.
  split.
  - exists (removeCitations raw).
    split; [apply (removeCitations_deleted (length raw)); lia | apply trim_trimmedOf].
  - intros Hb Hm. apply hasMarker_holdsMarker in Hm.
    rewrite (cleaned_marker_free raw (bracketsBeginMarkers_bool raw Hb)) in Hm.
    discriminate Hm.
Qed.

(** ** Lists the service builds *)

Lemma mapM_Ok {X Y} (f : X -> Result Y) (l : list X) (ys : list Y) :
  mapM f l = Ok ys -> forall y, In y ys -> exists x, In x l /\ f x = Ok y.
Proof.
  revert ys. induction l as [| x t IH]; intros ys; cbn.
  - intros H. injection H as <-. intros y [].
  - destruct (f x) as [y0 |] eqn:Hx; cbn; [| discriminate].
    destruct (mapM f t) as [ys0 |]; cbn; [| discriminate].
    intros H. injection H as <-. intros y [<- | Hin].
    + exists x. split; [left; reflexivity | exact Hx].
    + destruct (IH ys0 eq_refl y Hin) as (x' & Hx' & Hfx').
      exists x'. split; [right; exact Hx' | exact Hfx'].
Qed.

Lemma numberFrom_length {K} (l : list K) : forall i, length (numberFrom i l) = length l.
Proof. induction l as [| x t IH]; intros i; cbn; [reflexivity | rewrite IH; reflexivity]. Qed.

Lemma numberFrom_keywords {K} (l : list K) : forall i, map keyword (numberFrom i l) = l.
Proof. induction l as [| x t IH]; intros i; cbn; [reflexivity | rewrite IH; reflexivity]. Qed.

Lemma numberFrom_ids {K} (l : list K) :
  forall n, map id (numberFrom (Z.of_nat n) l) = map Z.of_nat (seq (S n) (length l)).
Proof.
  induction l as [| x t IH]; intros n; cbn [numberFrom map length seq id]; [reflexivity |].
  replace (Z.of_nat n + 1) with (Z.of_nat (S n)) by lia.
  rewrite IH. reflexivity.
Qed.

Lemma firstn_NoDup {X} (n : nat) (l : list X) : NoDup l -> NoDup (firstn n l).
Proof.
  revert n. induction l as [| x t IH]; intros n H; destruct n; cbn; try constructor.
  - inversion H as [| ? ? Hx Ht]; subst. intros Hin. apply Hx.
    rewrite <- (firstn_skipn n t). apply in_or_app. left. exact Hin.
  - inversion H; subst. apply IH. assumption.
Qed.

Lemma firstn_incl {X} (n : nat) (l : list X) (x : X) : In x (firstn n l) -> In x l.
Proof.
  intros H. rewrite <- (firstn_skipn n l). apply in_or_app. left. exact H.
Qed.

Lemma setAdd_NoDup (x : jsstring) (set : list jsstring) : NoDup set -> NoDup (setAdd x set).
Proof.
  intros H. unfold setAdd. destruct (existsb (jsstring_eqb x) set) eqn:E; [exact H |].
  apply NoDup_rev in H. rewrite <- (rev_involutive (set ++ [x])).
  apply NoDup_rev. rewrite rev_app_distr. cbn. constructor; [| exact H].
  intros Hin. apply in_rev in Hin.
  assert (existsb (jsstring_eqb x) set = true).
  { apply existsb_exists. exists x. split; [exact Hin | apply jsstring_eqb_eq; reflexivity]. }
  congruence.
Qed.

Lemma setAdd_In (x y : jsstring) (set : list jsstring) :
  In y (setAdd x set) -> y = x \/ In y set.
Proof.
  unfold setAdd. destruct (existsb (jsstring_eqb x) set); [tauto |].
  intros H. apply in_app_or in H. destruct H as [H | [H | []]]; [tauto | left; congruence].
Qed.

(** The two nested [forEach] add the suggestions of all results in order. *)
Lemma collect_concat (results : list (list jsstring)) :
  forall set,
    fold_left (fun set0 suggestions =>
                 fold_left (fun set' kw => setAdd (stripTags kw) set') suggestions set0)
              results set
    = fold_left (fun set' kw => setAdd (stripTags kw) set') (concat results) set.
Proof.
  induction results as [| r rs IH]; intros set; cbn; [reflexivity |].
  rewrite fold_left_app. apply IH.
Qed.

Lemma collect_invariant (l : list jsstring) :
  forall set,
    NoDup set ->
    let out := fold_left (fun set' kw => setAdd (stripTags kw) set') l set in
    NoDup out
    /\ forall y, In y out -> In y set \/ exists kw, In kw l /\ y = stripTags kw.
Proof.
  induction l as [| kw t IH]; intros set Hset; cbn.
  - split; [exact Hset | tauto].
  - destruct (IH (setAdd (stripTags kw) set) (setAdd_NoDup _ _ Hset)) as [Hnd Hin].
    split; [exact Hnd |].
    intros y Hy. destruct (Hin y Hy) as [H | (kw' & Hk & ->)].
    + apply setAdd_In in H. destruct H as [-> | H]; [| left; exact H].
      right. exists kw. split; [left; reflexivity | reflexivity].
    + right. exists kw'. split; [right; exact Hk | reflexivity].
Qed.

Lemma fulfilled_In {V} (settlements : list (Result V)) (v : V) :
  In v (fulfilled settlements) <-> In (Ok v) settlements.
Proof.
  induction settlements as [| [w | t] rest IH]; cbn.
  - tauto.
  - rewrite IH. split; intros [H | H]; auto; left; congruence.
  - rewrite IH. split; [intros H; right; exact H | intros [H | H]; [discriminate | exact H]].
Qed.

(** The fan-in over any number of settlements. *)
Lemma naverAggregate_spec (word : jsstring) (settlements : list (Result (list jsstring))) :
  ((exists v, In (Ok v) settlements) ->
   exists result,
     naverAggregate word settlements = Ok result
     /\ (length result <= 20)%nat
     /\ map id result = map Z.of_nat (seq 1 (length result))
     /\ NoDup (map keyword result)
     /\ forall k, In k result ->
                  exists v kw, In (Ok v) settlements /\ In kw v /\ keyword k = stripTags kw)
  /\ ((forall r, In r settlements -> exists t, r = Throw t) ->
      naverAggregate word settlements = throwError (msgNaverAllFailed word)).
Proof.
  unfold naverAggregate. split.
  - intros [v Hv]. apply fulfilled_In in Hv.
    destruct (fulfilled settlements) as [| r rs] eqn:Hful; [contradiction |].
    rewrite <- Hful. clear Hv. rewrite collect_concat.
    destruct (collect_invariant (concat (fulfilled settlements)) [] (NoDup_nil _))
      as [Hnd Hin].
    eexists. split; [reflexivity |].
    rewrite numberFrom_length, numberFrom_keywords, (numberFrom_ids _ 0).
    split; [rewrite length_firstn; lia |]. split; [reflexivity |].
    split; [apply firstn_NoDup, Hnd |].
    intros k Hk. apply (in_map keyword) in Hk. rewrite numberFrom_keywords in Hk.
    apply firstn_incl in Hk. destruct (Hin _ Hk) as [[] | (kw & Hkw & Heq)].
    apply in_concat in Hkw. destruct Hkw as (v' & Hv' & Hkv).
    exists v', kw. split; [apply fulfilled_In, Hv' | split; assumption].
  - intros Hall.
    assert (E : fulfilled settlements = []).
    { clear word. induction settlements as [| [w | t] rest IH]; cbn.
      - reflexivity.
      - destruct (Hall (Ok w) (or_introl eq_refl)) as [t Ht]. discriminate Ht.
      - apply IH. intros r Hr. apply Hall. right. exact Hr. }
    rewrite E. reflexivity.
Qed.

Lemma filter_twice {X} (p q : X -> bool) (l : list X) :
  filter p (filter q l) = filter (fun y => p y && q y) l.
Proof.
  induction l as [| x t IH]; [reflexivity |]. cbn [filter].
  destruct (q x); cbn [filter]; rewrite ?andb_true_r, ?andb_false_r;
    [destruct (p x); rewrite IH; reflexivity | exact IH].
Qed.

Lemma concat_fulfilled (settlements : list (Result (list jsstring))) :
  concat (fulfilled settlements) = suggestionsOf settlements.
Proof.
  induction settlements as [| [v | t] rest IH]; cbn; [reflexivity | | exact IH].
  rewrite IH. reflexivity.
Qed.

(** The [Set] holds the distinct stripped suggestions in the order of their
    first insertion. *)
Lemma collect_distinct (l : list jsstring) :
  forall set,
    fold_left (fun set' kw => setAdd (stripTags kw) set') l set
    = set ++ filter (fun y => negb (existsb (jsstring_eqb y) set))
                    (distinct (map stripTags l)).
Proof.
  induction l as [| kw t IH]; intros set; cbn [fold_left map distinct].
  - cbn. rewrite app_nil_r. reflexivity.
  - rewrite IH. unfold setAdd. cbn [filter].
    destruct (existsb (jsstring_eqb (stripTags kw)) set) eqn:E; cbn [negb].
    + f_equal. rewrite filter_twice. apply filter_ext. intros y.
      destruct (existsb (jsstring_eqb y) set) eqn:Ey; cbn [negb andb]; [reflexivity |].
      destruct (jsstring_eqb y (stripTags kw)) eqn:Eq; [| reflexivity].
      apply jsstring_eqb_eq in Eq. subst y. congruence.
    + rewrite <- app_assoc. cbn [app]. f_equal. f_equal.
      rewrite filter_twice. apply filter_ext. intros y.
      rewrite existsb_app. cbn [existsb]. rewrite orb_false_r, negb_orb. reflexivity.
Qed.

Lemma naverAggregate_exact (word : jsstring)
      (settlements : list (Result (list jsstring)))
      (result : list (KeywordData jsstring)) :
  naverAggregate word settlements = Ok result ->
  map keyword result = firstn 20 (distinct (map stripTags (suggestionsOf settlements))).
Proof.
  unfold naverAggregate.
  destruct (fulfilled settlements) as [| r rs] eqn:Hful; [discriminate |].
  rewrite <- Hful. clear r rs Hful.
  rewrite collect_concat, collect_distinct, concat_fulfilled. cbn [app existsb negb].
  assert (Hall : forall l : list jsstring, filter (fun _ => true) l = l).
  { induction l as [| x t IH]; [reflexivity | cbn; rewrite IH; reflexivity]. }
  rewrite Hall. cbv zeta.
  generalize (firstn 20 (distinct (map stripTags (suggestionsOf settlements)))) as final.
  intros final H.
  assert (E : result = numberFrom 0 final) by congruence.
  rewrite E. apply numberFrom_keywords.
Qed.

(** ** Autocomplete keywords *)

Section KeywordFacts.

Variable syntaxErrorMessage : jsstring -> jsstring.
Variable encodeURIComponent : jsstring -> jsstring.
Variable numberToString : jsnumber -> jsstring.
Variable net : nat -> nat -> jsstring -> Flight.

Abbreviation related :=
  (fetchRelatedKeywords syntaxErrorMessage encodeURIComponent numberToString net).
Abbreviation settlementsOf :=
  (naverSettlements syntaxErrorMessage encodeURIComponent numberToString net).

(** C7. For a keyword that is not blank, the Naver path settles one
    sub-fetch per postfix. When at least one of them is fulfilled the
    function returns, whatever the other sub-fetches did, and the keywords
    returned are exactly the aggregate of the successes: the suggestions of
    the fulfilled sub-fetches taken in order, tags removed, repetitions
    dropped, cut after the twentieth; each entry is thus a suggestion of a
    fulfilled sub-fetch. When all sub-fetches are rejected it throws its
    all-requests-failed error. *)
Theorem naver_fan_out_keeps_successes (word : jsstring) :
  trim word <> [] ->
  let settlements := settlementsOf word in
  length settlements = length POSTFIXES
  /\ ((exists v, In (Ok v) settlements) ->
      exists result,
        related word naver = Ok result
        /\ map keyword result
           = firstn 20 (distinct (map stripTags (suggestionsOf settlements)))
        /\ forall k, In k result ->
                     exists v kw, In (Ok v) settlements /\ In kw v
                                  /\ keyword k = stripTags kw)
  /\ ((forall r, In r settlements -> exists t, r = Throw t) ->
      related word naver = throwError (msgNaverAllFailed word)).
Proof.
  intros Hword settlements.
  split; [unfold settlements, naverSettlements, searchTerms; rewrite !length_map; reflexivity |].
  assert (E : related word naver = naverAggregate word settlements).
  { unfold fetchRelatedKeywords. destruct (trim word); [contradiction | reflexivity]. }
  rewrite E. destruct (naverAggregate_spec word settlements) as [Hsome Hnone].
  split; [| exact Hnone].
  intros Hex. destruct (Hsome Hex) as (result & Hres & _ & _ & _ & Hfrom).
  exists result. split; [exact Hres |].
  split; [exact (naverAggregate_exact word settlements result Hres) | exact Hfrom].
Qed.

(** C9. Whenever [fetchRelatedKeywords] returns, for either source, the list
    has at most 20 entries and their ids are 1, 2, ... up to its length, in
    order; on the Naver path the keywords are moreover pairwise distinct and
    none contains a match of the tag pattern. *)
Theorem related_keywords_numbered_and_clean (word : jsstring) (source : SearchSource)
        (result : list (KeywordData (kwType source))) :
  related word source = Ok result ->
  (length result <= 20)%nat
  /\ map id result = map Z.of_nat (seq 1 (length result))
  /\ naverClean source result.
Proof.
  unfold fetchRelatedKeywords. destruct (trim word) as [| c w]; [discriminate |].
  destruct source; unfold naverClean.
  - destruct (fetchSingleTermKeywords _ _ _ _ word google) as [suggestions | t];
      unfold bind; [| discriminate].
    cbv zeta. generalize (firstn_le_length 20 suggestions).
    generalize (firstn 20 suggestions) as final. intros final Hlen H. injection H as <-.
    rewrite numberFrom_length, (numberFrom_ids _ 0).
    split; [exact Hlen |]. split; [reflexivity | exact I].
  - intros H. destruct (naverAggregate_spec word (settlementsOf word)) as [Hsome _].
    assert (Hex : exists v, In (Ok v) (settlementsOf word)).
    { unfold naverAggregate in H.
      destruct (fulfilled (settlementsOf word)) as [| v vs] eqn:Hful; [discriminate H |].
      exists v. apply fulfilled_In. rewrite Hful. left. reflexivity. }
    destruct (Hsome Hex) as (result' & Hres & Hlen & Hids & Hnd & Hfrom).
    rewrite H in Hres. injection Hres as <-.
    split; [exact Hlen |]. split; [exact Hids |]. split; [exact Hnd |].
    apply Forall_forall. intros k Hk.
    destruct (Hfrom k Hk) as (v & kw & _ & _ & ->). apply hasTag_stripTags.
Qed.

End KeywordFacts.

(** ** Related searches from the generative model *)

Lemma mapM_Forall2 {X Y} (f : X -> Result Y) (l : list X) :
  forall ys, mapM f l = Ok ys -> Forall2 (fun x y => f x = Ok y) l ys.
Proof.
  induction l as [| x t IH]; intros ys; cbn [mapM].
  - intros H. injection H as <-. constructor.
  - destruct (f x) as [y |] eqn:Hx; cbn [bind]; [| discriminate].
    destruct (mapM f t) as [ys0 |]; cbn [bind]; [| discriminate].
    intros H. injection H as <-. constructor; [exact Hx | apply IH; reflexivity].
Qed.

Lemma Forall2_firstn {X Y} (R : X -> Y -> Prop) (n : nat) (l : list X) (ys : list Y) :
  Forall2 R l ys -> Forall2 R (firstn n l) (firstn n ys).
Proof.
  intros H. revert n. induction H as [| x y l ys Hxy H IH]; intros n.
  - rewrite !firstn_nil. constructor.
  - destruct n as [| n]; cbn [firstn]; constructor; [exact Hxy | apply IH].
Qed.

Lemma guarded_array (result : json) (key : jsstring) (items : list json) :
  (if truthy result then isArray (getProp result key) else None) = Some items ->
  getProp result key = Some (JArray items).
Proof.
  destruct (truthy result); [| discriminate].
  destruct (getProp result key) as [[| | | | l |] |]; cbn [isArray]; try discriminate.
  intros H. injection H as <-. reflexivity.
Qed.

Section ModelFacts.

Variable syntaxErrorMessage : jsstring -> jsstring.
Variable typeErrorMessage : jsstring -> jsstring.
Variable newGoogleGenAI : Result unit.
Variable generateContent : jsstring -> Result (option jsstring).

Lemma cleanText_cleaned (v : option json) (f : jsstring) :
  cleanText typeErrorMessage v = Ok f -> cleanedFrom (textOf v) f.
Proof.
  unfold cleanText, throwTypeError.
  destruct v as [[| b | n | s | items | members] |];
    try (destruct (truthy _); [discriminate |]);
    intros H; injection H as <-; apply cleanedFrom_intro.
Qed.

Lemma cleanPaa_cleaned (paa : json) (item : PaaItem) :
  cleanPaa typeErrorMessage paa = Ok item -> cleanedPaa paa item.
Proof.
  unfold cleanPaa, cleanedPaa.
  assert (Hgen : (let* q := cleanText typeErrorMessage (getProp paa (str "question")) in
                  let* a := cleanText typeErrorMessage (getProp paa (str "answer")) in
                  let* c := cleanText typeErrorMessage
                                      (getProp paa (str "content_gap_analysis")) in
                  Ok (mkPaaItem q a c)) = Ok item ->
                 cleanedFrom (textOf (getProp paa (str "question"))) (question item)
                 /\ cleanedFrom (textOf (getProp paa (str "answer"))) (answer item)
                 /\ cleanedFrom (textOf (getProp paa (str "content_gap_analysis")))
                                (content_gap_analysis item)).
  { destruct (cleanText typeErrorMessage (getProp paa (str "question"))) as [q |] eqn:Hq;
      cbn [bind]; [| discriminate].
    destruct (cleanText typeErrorMessage (getProp paa (str "answer"))) as [a |] eqn:Ha;
      cbn [bind]; [| discriminate].
    destruct (cleanText typeErrorMessage (getProp paa (str "content_gap_analysis")))
      as [c |] eqn:Hc; cbn [bind]; [| discriminate].
    intros H. injection H as <-. cbn [question answer content_gap_analysis].
    split; [exact (cleanText_cleaned _ _ Hq) |].
    split; [exact (cleanText_cleaned _ _ Ha) | exact (cleanText_cleaned _ _ Hc)]. }
  destruct paa; try exact Hgen. unfold throwTypeError. discriminate.
Qed.

(** C10 (amended). Whenever [generateRelatedKeywords] returns, the answer of
    the model held a value whose [related_searches] and [people_also_ask]
    are arrays; the result has at most five questions, made from the first
    five elements of the latter array, and one related search per element
    of the former. Every string field of the result is the text the model
    gave for it after one left-to-right pass that deletes the citation
    markers found there, with the white space at its two ends removed; the
    field holds no citation marker whenever every opening bracket of the
    model's text began a marker. *)
Theorem related_searches_are_cleaned (word : jsstring) (data : GoogleSerpData) :
  generateRelatedKeywords syntaxErrorMessage typeErrorMessage newGoogleGenAI
                          generateContent word = Ok data ->
  exists text result searches paas,
    generateContent word = Ok (Some text)
    /\ extractJsonFromText syntaxErrorMessage text = Ok result
    /\ getProp result (str "related_searches") = Some (JArray searches)
    /\ getProp result (str "people_also_ask") = Some (JArray paas)
    /\ (length (people_also_ask data) <= 5)%nat
    /\ Forall2 cleanedSearch searches (related_searches data)
    /\ Forall2 cleanedPaa (firstn 5 paas) (people_also_ask data).
Proof.
  unfold generateRelatedKeywords. destruct (trim word) as [| c w]; [discriminate |].
  destruct newGoogleGenAI as [[] | t]; cbn [bind]; [| discriminate].
  destruct (generateRelatedKeywordsBody _ _ _ word) as [d | [e | v]] eqn:Hbody;
    try discriminate.
  intros H. injection H as ->.
  unfold generateRelatedKeywordsBody in Hbody.
  destruct (generateContent word) as [[text |] | t]; cbn [bind] in Hbody;
    try discriminate Hbody.
  destruct (extractJsonFromText syntaxErrorMessage text) as [result | t] eqn:Hext;
    cbn [bind] in Hbody; [| discriminate Hbody].
  destruct (if truthy result then isArray (getProp result (str "related_searches")) else None)
    as [searches |] eqn:Hs; [| discriminate Hbody].
  destruct (if truthy result then isArray (getProp result (str "people_also_ask")) else None)
    as [paas |] eqn:Hp; [| discriminate Hbody].
  destruct (mapM (cleanPaa typeErrorMessage) paas) as [mapped |] eqn:Hpaa;
    cbn [bind] in Hbody; [| discriminate Hbody].
  destruct (mapM (fun search => cleanText typeErrorMessage (Some search)) searches)
    as [cleaned |] eqn:Hsearch; cbn [bind] in Hbody; [| discriminate Hbody].
  pose proof (Forall2_firstn _ 5 _ _ (mapM_Forall2 _ _ _ Hpaa)) as Hkept.
  revert Hbody Hkept. cbv zeta.
  generalize (firstn_le_length 5 mapped). generalize (firstn 5 mapped) as kept.
  intros kept Hlen Hbody Hkept. injection Hbody as <-.
  exists text, result, searches, paas. cbn [people_also_ask related_searches].
  split; [reflexivity |]. split; [exact Hext |].
  split; [exact (guarded_array _ _ _ Hs) |].
  split; [exact (guarded_array _ _ _ Hp) |].
  split; [exact Hlen |]. split.
  - pose proof (mapM_Forall2 _ _ _ Hsearch) as Hall. revert Hall.
    apply Forall2_impl. intros x y. apply cleanText_cleaned.
  - revert Hkept. apply Forall2_impl. exact cleanPaa_cleaned.
Qed.

End ModelFacts.

(** ** The properties on concrete worlds *)


(** C2, as stated, fails when the interpreter throws on the payload: the
    relay answers with a page that is no JSON, [JSON.parse] throws inside the
    [try] block, the exception is caught like a failed request, and the same
    strategy is tried again. *)
Lemma firstSuccessReturned_fails_when_interpreter_throws :
  ~ firstSuccessReturned (always (answers (str "<html>"))) (str "https://example.org/")
                         (JSON_parse_value v8SyntaxMessage plainNumber)
                         [] textRelay [].
Proof.
  intros H.
  specialize (H (mkResponse true 200 (Ok (str "<html>"))) (JString (str "<html>"))).
  assert (Hnone : forall (i : nat) (q : Proxy) (a : nat) (v : json),
             nth_error (@nil Proxy) i = Some q ->
             tryAttempt (always (answers (str "<html>"))) (str "https://example.org/")
                        (JSON_parse_value v8SyntaxMessage plainNumber) q i a
             <> TryReturn v).
  { intros i q a v Hi. destruct i; discriminate Hi. }
  specialize (H Hnone eq_refl eq_refl eq_refl eq_refl).
  destruct H as [H _]. vm_compute in H. discriminate H.
Qed.

Lemma first_success_is_returned_witness :
  fetchWithTimeout (firstRefused 1%nat 1%nat (buildUrl textRelay (str "https://example.org/")))
                   FETCH_TIMEOUT_MS
  = Ok (mkResponse true 200 (Ok (str "ok")))
  /\ fst (fetchWithProxiesOver firstRefused (str "https://example.org/") (fun v => Ok v)
                               ([textRelay] ++ textRelay :: [textRelay]))
     = Ok (JString (str "ok")).
Proof.
  split; [reflexivity |].
  refine (proj1 (first_success_is_returned
                   firstRefused (str "https://example.org/") (fun v => Ok v)
                   [textRelay] textRelay [textRelay]
                   (mkResponse true 200 (Ok (str "ok"))) (JString (str "ok"))
                   (JString (str "ok")) _ eq_refl eq_refl eq_refl eq_refl eq_refl)).
  intros i q a v' Hi. destruct i as [| i].
  - injection Hi as <-. vm_compute. discriminate.
  - destruct i; discriminate Hi.
Defined.

Lemma all_timeouts_end_in_generic_error_witness :
  (forall s a u, timerFires (always stalls s a u) FETCH_TIMEOUT_MS = true)
  /\ fst (fetchWithProxiesOver (always stalls) (str "https://example.org/")
                               (fun v => Ok v) ([textRelay] ++ [textRelay]))
     = Throw (ThrownError (newError (msgAllFailedPrefix ++ msgUnknownRequest
                                                        ++ msgAllFailedSuffix))).
Proof.
  assert (H : forall s a u, timerFires (always stalls s a u) FETCH_TIMEOUT_MS = true).
  { intros s a u. reflexivity. }
  split; [exact H |].
  exact (proj1 (all_timeouts_end_in_generic_error
                  (always stalls) (str "https://example.org/") (fun v => Ok v)
                  [textRelay] textRelay H)).
Defined.

(** C5, as stated, fails on a relay that answers with an empty body: the
    second attempt follows the first at once, with no delay between them. *)
Lemma retriesDelayed_fails_after_empty_payload :
  ~ retriesDelayed (snd (fetchWithProxiesOver (always (answers [])) (str "https://example.org/")
                                              (fun v => Ok v) [textRelay])).
Proof.
  intros H.
  specialize (H [EvFetch 0 1 (str "https://example.org/")] 0%nat 2%nat
                (str "https://example.org/") []).
  specialize (H ltac:(vm_compute; reflexivity) (le_n 2)).
  destruct H as [pre' H]. destruct pre' as [| x [| y pre']]; discriminate H.
Qed.

Lemma http_error_moves_to_next_strategy_witness :
  fetchWithTimeout (firstRefused 0%nat 1%nat (str "https://example.org/")) FETCH_TIMEOUT_MS
  = Ok (mkResponse false 503 (Ok []))
  /\ fst (fetchWithProxiesOver firstRefused (str "https://example.org/") (fun v => Ok v)
                               [textRelay; textRelay])
     = fst (proxyLoop firstRefused (str "https://example.org/") (fun v => Ok v)
                      [textRelay] 1 (Some (newError (msgHttp 503)))).
Proof.
  split; [reflexivity |].
  refine (proj1 (proj2 (http_error_moves_to_next_strategy
                          firstRefused (str "https://example.org/") (fun v => Ok v)
                          [textRelay; textRelay]
                          [] [EvFetch 1 1 (str "https://example.org/")]
                          0%nat 1%nat (str "https://example.org/")
                          (mkResponse false 503 (Ok [])) _ eq_refl eq_refl))).
  vm_compute. reflexivity.
Defined.

Lemma naver_fan_out_keeps_successes_witness :
  trim (str "seo") <> []
  /\ In (Ok [str "<b>seo</b> tips"; str "seo tips"; str "seo <i>tools"])
        (naverSettlements v8SyntaxMessage rawUrl plainNumber onlyBareTerm (str "seo"))
  /\ In (Throw (ThrownError (newError msgConnectivity)))
        (naverSettlements v8SyntaxMessage rawUrl plainNumber onlyBareTerm (str "seo"))
  /\ exists result,
      fetchRelatedKeywords v8SyntaxMessage rawUrl plainNumber onlyBareTerm (str "seo") naver
      = Ok result.
Proof.
  assert (Hword : trim (str "seo") <> []) by (vm_compute; discriminate).
  assert (Hin : In (Ok [str "<b>seo</b> tips"; str "seo tips"; str "seo <i>tools"])
                   (naverSettlements v8SyntaxMessage rawUrl plainNumber onlyBareTerm
                                     (str "seo"))).
  { vm_compute. left. reflexivity. }
  split; [exact Hword |]. split; [exact Hin |].
  split; [vm_compute; right; left; reflexivity |].
  destruct (proj1 (proj2 (naver_fan_out_keeps_successes
                            v8SyntaxMessage rawUrl plainNumber onlyBareTerm (str "seo") Hword))
                  (ex_intro (fun v => In (Ok v) _) _ Hin)) as (result & Hres & _).
  exists result. exact Hres.
Defined.

Lemma related_keywords_numbered_and_clean_witness :
  fetchRelatedKeywords v8SyntaxMessage rawUrl plainNumber onlyBareTerm (str "seo") naver
  = Ok [mkKeywordData 1 (str "seo tips"); mkKeywordData 2 (str "seo tools")]
  /\ map id [mkKeywordData 1 (str "seo tips"); mkKeywordData 2 (str "seo tools")]
     = map Z.of_nat (seq 1 2).
Proof.
  assert (H : fetchRelatedKeywords v8SyntaxMessage rawUrl plainNumber onlyBareTerm
                                   (str "seo") naver
              = Ok [mkKeywordData 1 (str "seo tips"); mkKeywordData 2 (str "seo tools")])
    by (vm_compute; reflexivity).
  split; [exact H |].
  exact (proj1 (proj2 (related_keywords_numbered_and_clean
                         v8SyntaxMessage rawUrl plainNumber onlyBareTerm (str "seo") naver
                         _ H))).
Defined.

(** C10, as stated, fails on a marker nested in another: the single pass
    deletes the inner one and the text around it closes into a new marker. *)
Lemma cleaningAsStated_fails_on_nested_marker :
  ~ cleaningAsStated v8SyntaxMessage v8TypeMessage (Ok tt) (modelSays nestedCitationAnswer)
                     (str "seo").
Proof.
  intros H.
  specialize (H (mkGoogleSerpData [str "[2]"] []) ltac:(vm_compute; reflexivity)).
  destruct H as [_ H]. inversion H as [| f fs [Hmarker _] _]; subst.
  vm_compute in Hmarker. discriminate Hmarker.
Qed.

Lemma related_searches_are_cleaned_witness :
  generateRelatedKeywords v8SyntaxMessage v8TypeMessage (Ok tt) (modelSays citedAnswer)
                          (str "seo")
  = Ok (mkGoogleSerpData [str "seo tips"; str "seo tools"]
                         [mkPaaItem (str "what is seo?") (str "ranking  work") []])
  /\ Forall2 cleanedSearch
             [JString (str " seo tips [1] "); JString (str "seo tools[2, 3]")]
             [str "seo tips"; str "seo tools"].
Proof.
  assert (H : generateRelatedKeywords v8SyntaxMessage v8TypeMessage (Ok tt)
                                      (modelSays citedAnswer) (str "seo")
              = Ok (mkGoogleSerpData [str "seo tips"; str "seo tools"]
                                     [mkPaaItem (str "what is seo?") (str "ranking  work") []]))
    by (vm_compute; reflexivity).
  split; [exact H |].
  destruct (related_searches_are_cleaned
              v8SyntaxMessage v8TypeMessage (Ok tt) (modelSays citedAnswer) (str "seo") _ H)
    as (text & result & searches & paas & Htext & Hext & Hs & _ & _ & Hclean & _).
  assert (Ht : text = citedAnswer) by (unfold modelSays in Htext; congruence).
  subst text.
  assert (E : getProp result (str "related_searches")
              = Some (JArray [JString (str " seo tips [1] ");
                              JString (str "seo tools[2, 3]")])).
  { assert (Er : extractJsonFromText v8SyntaxMessage citedAnswer
                 = Ok (JObject
                         [(str "related_searches",
                           JArray [JString (str " seo tips [1] ");
                                   JString (str "seo tools[2, 3]")]);
                          (str "people_also_ask",
                           JArray [JObject
                                     [(str "question", JString (str "what is seo? [4]"));
                                      (str "answer", JString (str "ranking [5,6] work "));
                                      (str "content_gap_analysis", JNull)]])]))
      by (vm_compute; reflexivity).
    rewrite Er in Hext. injection Hext as <-. vm_compute. reflexivity. }
  rewrite E in Hs. injection Hs as <-. exact Hclean.
Defined.

(** * Further properties of the service *)

(** ** The extractor, beyond the examples *)

Lemma stripPrefix_incl (p s r : jsstring) (c : N) :
  stripPrefix p s = Some r -> In c r -> In c s.
Proof.
  revert s. induction p as [| a p IH]; intros s H Hc; cbn in H.
  - destruct s; cbn in H; injection H as <-; exact Hc.
  - destruct s as [| b s]; [discriminate |]. cbn in H.
    destruct (a =? b)%N; [| discriminate]. right. exact (IH s H Hc).
Qed.

Lemma lazyCapture_incl (s g : jsstring) (c : N) :
  lazyCapture s = Some g -> In c g -> In c s.
Proof.
  revert g. induction s as [| x t IH]; intros g H Hc; cbn [lazyCapture] in H.
  - destruct (closesFence []); [injection H as <-; destruct Hc | discriminate].
  - destruct (closesFence (x :: t)); [injection H as <-; destruct Hc |].
    destruct (lazyCapture t) as [g' |]; [| discriminate].
    cbn [option_map] in H. injection H as <-. destruct Hc as [<- | Hc]; [left; reflexivity |].
    right. exact (IH g' eq_refl Hc).
Qed.

Lemma fenceBody_incl (s g : jsstring) (c : N) :
  fenceBody s = Some g -> In c g -> In c s.
Proof.
  revert g. induction s as [| x t IH]; intros g H Hc; cbn [fenceBody] in H.
  - exact (lazyCapture_incl [] g c H Hc).
  - destruct (isWhiteSpace x); [| exact (lazyCapture_incl _ g c H Hc)].
    destruct (fenceBody t) as [g' |] eqn:Ht.
    + injection H as <-. right. exact (IH g' eq_refl Hc).
    + exact (lazyCapture_incl _ g c H Hc).
Qed.

Lemma matchFenceHere_incl (s g : jsstring) (c : N) :
  matchFenceHere s = Some g -> In c g -> In c s.
Proof.
  unfold matchFenceHere. intros H Hc.
  destruct (stripPrefix fence s) as [r |] eqn:Hr; [| discriminate].
  apply (stripPrefix_incl fence s r c Hr).
  destruct (stripPrefix (str "json") r) as [r' |] eqn:Hj.
  - destruct (fenceBody r') as [g' |] eqn:Hb.
    + injection H as <-. apply (stripPrefix_incl _ r r' c Hj).
      exact (fenceBody_incl r' g' c Hb Hc).
    + exact (fenceBody_incl r g c H Hc).
  - exact (fenceBody_incl r g c H Hc).
Qed.

Lemma markdownMatch_incl (s g : jsstring) (c : N) :
  markdownMatch s = Some g -> In c g -> In c s.
Proof.
  induction s as [| x t IH]; cbn [markdownMatch]; intros H Hc.
  - destruct (matchFenceHere []) as [g' |] eqn:Hm; [| discriminate].
    injection H as <-. exact (matchFenceHere_incl [] g' c Hm Hc).
  - destruct (matchFenceHere (x :: t)) as [g' |] eqn:Hm.
    + injection H as <-. exact (matchFenceHere_incl _ g' c Hm Hc).
    + right. exact (IH H Hc).
Qed.

(** The search text is cut out of the text: it holds no code unit the text
    does not hold. *)
Lemma searchText_incl (text : jsstring) (c : N) : In c (searchText text) -> In c text.
Proof.
  unfold searchText. intros H.
  destruct (markdownMatch (trim text)) as [[| x g] |] eqn:Hm.
  - apply trim_incl, H.
  - apply trim_incl in H. apply trim_incl. exact (markdownMatch_incl _ _ c Hm H).
  - apply trim_incl, H.
Qed.

Lemma searchFrom_none (p : N -> bool) (s : jsstring) (i : Z) :
  (forall c, In c s -> p c = false) -> searchFrom p s i = -1.
Proof.
  revert i. induction s as [| x t IH]; intros i H; cbn; [reflexivity |].
  rewrite (H x (or_introl eq_refl)). apply IH. intros c Hc. apply H. right. exact Hc.
Qed.

Lemma searchFrom_found (p : N -> bool) (s : jsstring) (i : Z) :
  searchFrom p s i <> -1 -> 0 <= i ->
  exists c, nth_error s (Z.to_nat (searchFrom p s i - i)) = Some c /\ p c = true.
Proof.
  revert i. induction s as [| x t IH]; intros i H Hi; cbn in *; [contradiction |].
  destruct (p x) eqn:Hx.
  - exists x. rewrite Z.sub_diag. split; [reflexivity | exact Hx].
  - destruct (IH (i + 1) H ltac:(lia)) as (c & Hc & Hp).
    exists c. split; [| exact Hp].
    destruct (searchFrom_range p t (i + 1)) as [E | Hr]; [contradiction |].
    replace (Z.to_nat (searchFrom p t (i + 1) - i))
      with (S (Z.to_nat (searchFrom p t (i + 1) - (i + 1)))) by lia.
    exact Hc.
Qed.

(** X1. A text that holds neither an opening brace nor an opening bracket
    makes the extractor throw its no-JSON error, fence or no fence. *)
Theorem extract_without_opener_throws (syntaxErrorMessage : jsstring -> jsstring)
        (text : jsstring) :
  (forall c, In c text -> isOpener c = false) ->
  extractJsonFromText syntaxErrorMessage text = throwError msgNoJson.
Proof.
  intros H. unfold extractJsonFromText, potentialJson, startIndexOf.
  rewrite (searchFrom_none isOpener (searchText text) 0).
  - reflexivity.
  - intros c Hc. apply H, searchText_incl, Hc.
Qed.

Lemma skipn_nth_error {X} (l : list X) (n : nat) (x : X) :
  nth_error l n = Some x -> skipn n l = x :: skipn (S n) l.
Proof.
  revert n. induction l as [| y t IH]; intros n H; destruct n; cbn in *; try discriminate.
  - injection H as <-. reflexivity.
  - apply IH, H.
Qed.

(** Once the depth is positive, the scan can only stop on the closing
    character. *)
Lemma scanClose_stops_on_closer (startChar endChar : N) (rest : jsstring) :
  forall i openCount inString escapeChar,
    1 <= openCount ->
    scanClose startChar endChar rest i openCount inString escapeChar <> -1 ->
    0 <= i ->
    let e := scanClose startChar endChar rest i openCount inString escapeChar in
    i <= e < i + Z.of_nat (length rest)
    /\ nth_error rest (Z.to_nat (e - i)) = Some endChar.
Proof.
  induction rest as [| char rest' IH]; intros i oc inS esc Hoc Hfound Hi;
    cbn [scanClose] in *; [contradiction |].
  assert (Hrec : forall oc' inS' esc',
             1 <= oc' ->
             scanClose startChar endChar rest' (i + 1) oc' inS' esc' <> -1 ->
             let e := scanClose startChar endChar rest' (i + 1) oc' inS' esc' in
             i <= e < i + Z.of_nat (length (char :: rest'))
             /\ nth_error (char :: rest') (Z.to_nat (e - i)) = Some endChar).
  { intros oc' inS' esc' Hoc' Hf'.
    destruct (IH (i + 1) oc' inS' esc' Hoc' Hf' ltac:(lia)) as [Hr Hn].
    cbn zeta. cbn [length]. split; [lia |].
    replace (Z.to_nat (scanClose startChar endChar rest' (i + 1) oc' inS' esc' - i))
      with (S (Z.to_nat (scanClose startChar endChar rest' (i + 1) oc' inS' esc' - (i + 1))))
      by lia.
    exact Hn. }
  destruct esc; [apply Hrec; assumption |].
  destruct (char =? ch "\")%N; [apply Hrec; assumption |].
  set (inS' := if (char =? dquote)%N then negb inS else inS) in *.
  destruct (negb inS').
  - destruct (char =? startChar)%N.
    + destruct (Z.eqb_spec (oc + 1) 0) as [E | _]; [lia |].
      apply Hrec; [lia | assumption].
    + destruct (char =? endChar)%N eqn:Hend.
      * destruct (Z.eqb_spec (oc - 1) 0) as [E | Hne].
        -- cbn zeta. cbn [length]. rewrite Z.sub_diag. split; [lia |].
           apply N.eqb_eq in Hend. subst char. reflexivity.
        -- apply Hrec; [lia | assumption].
      * destruct (Z.eqb_spec oc 0) as [E | _]; [lia |].
        apply Hrec; assumption.
  - destruct (Z.eqb_spec oc 0) as [E | _]; [lia |].
    apply Hrec; assumption.
Qed.

Lemma closed_scan_slice (text : jsstring) :
  let jsonString := searchText text in
  let startIndex := startIndexOf jsonString in
  let endIndex := scanEnd jsonString startIndex in
  startIndex <> -1 ->
  endIndex <> -1 ->
  0 <= startIndex < endIndex
  /\ endIndex < Z.of_nat (length jsonString)
  /\ (exists opener,
         isOpener opener = true
         /\ nth_error jsonString (Z.to_nat startIndex) = Some opener
         /\ nth_error jsonString (Z.to_nat endIndex)
            = Some (if (opener =? ch "[")%N then ch "]" else ch "}"))
  /\ potentialJson text = Ok (sliceInclusive jsonString startIndex endIndex).
Proof.
  intros jsonString startIndex endIndex Hstart Hend.
  destruct (searchFrom_range isOpener jsonString 0) as [E | Hr];
    [exfalso; apply Hstart; exact E |].
  destruct (searchFrom_found isOpener jsonString 0 Hstart ltac:(lia)) as (opener & Hnth & Hop).
  fold (startIndexOf jsonString) in Hr, Hnth. fold startIndex in Hr, Hnth.
  rewrite Z.sub_0_r in Hnth.
  assert (Hscan : endIndex
                  = scanClose opener (if (opener =? ch "[")%N then ch "]" else ch "}")
                              (skipn (S (Z.to_nat startIndex)) jsonString)
                              (startIndex + 1) 1 false false).
  { unfold endIndex, scanEnd.
    rewrite (nth_error_nth _ _ 0%N Hnth), (skipn_nth_error _ _ _ Hnth).
    cbn [scanClose].
    assert (Hb : (opener =? ch "\")%N = false).
    { unfold isOpener in Hop. apply orb_prop in Hop.
      destruct Hop as [Hop | Hop]; apply N.eqb_eq in Hop; subst opener; reflexivity. }
    assert (Hq : (opener =? dquote)%N = false).
    { unfold isOpener in Hop. apply orb_prop in Hop.
      destruct Hop as [Hop | Hop]; apply N.eqb_eq in Hop; subst opener; reflexivity. }
    rewrite Hb, Hq. cbn [negb]. rewrite N.eqb_refl. reflexivity. }
  assert (Hfound : scanClose opener (if (opener =? ch "[")%N then ch "]" else ch "}")
                             (skipn (S (Z.to_nat startIndex)) jsonString)
                             (startIndex + 1) 1 false false <> -1)
    by (rewrite <- Hscan; exact Hend).
  destruct (scanClose_stops_on_closer _ _ _ (startIndex + 1) 1 false false
                                      ltac:(lia) Hfound ltac:(lia)) as [Hrange Hcloser].
  rewrite <- Hscan in Hrange, Hcloser.
  assert (Hlen : Z.of_nat (length (skipn (S (Z.to_nat startIndex)) jsonString))
                 = Z.of_nat (length jsonString) - (startIndex + 1)).
  { rewrite length_skipn. lia. }
  split; [lia |]. split; [lia |]. split.
  - exists opener. split; [exact Hop |]. split; [exact Hnth |].
    rewrite nth_error_skipn in Hcloser.
    replace (S (Z.to_nat startIndex) + Z.to_nat (endIndex - (startIndex + 1)))%nat
      with (Z.to_nat endIndex) in Hcloser by lia.
    exact Hcloser.
  - unfold potentialJson. fold jsonString. fold startIndex.
    destruct (Z.eqb_spec startIndex (-1)) as [E | _]; [contradiction |].
    unfold endIndexOf. fold endIndex.
    destruct (Z.eqb_spec endIndex (-1)) as [E | _]; [contradiction |].
    destruct (Z.eqb_spec endIndex (-1)) as [E | _]; [contradiction |].
    rewrite substring_inclusive; [reflexivity | lia | lia | lia].
Qed.

(** X2. When the depth scan closes, the end index lies after the start
    index and inside the search text, the character at the start index is an
    opening brace or bracket, the character at the end index is the closing
    character of the same kind, and the slice between them, both included,
    is what the parser receives. *)
Theorem closed_scan_delimits_slice (text : jsstring) :
  let jsonString := searchText text in
  let startIndex := startIndexOf jsonString in
  let endIndex := scanEnd jsonString startIndex in
  startIndex <> -1 ->
  endIndex <> -1 ->
  0 <= startIndex < endIndex
  /\ endIndex < Z.of_nat (length jsonString)
  /\ (exists opener,
         isOpener opener = true
         /\ nth_error jsonString (Z.to_nat startIndex) = Some opener
         /\ nth_error jsonString (Z.to_nat endIndex)
            = Some (if (opener =? ch "[")%N then ch "]" else ch "}"))
  /\ potentialJson text = Ok (sliceInclusive jsonString startIndex endIndex).
Proof. exact (closed_scan_slice text). Qed.

(** ** The fetcher, for every world *)

Section FetcherBounds.

Context {A : Type}.
Variable net : nat -> nat -> jsstring -> Flight.
Variable targetUrl : jsstring.
Variable responseParser : json -> Result A.

Abbreviation tryAt' := (tryAttempt net targetUrl responseParser).
Abbreviation attempts' := (attemptLoop net targetUrl responseParser).
Abbreviation loop' := (proxyLoop net targetUrl responseParser).





Lemma attemptLoop_exhausted_records (p : Proxy) (s : nat) (last l : option JsError) :
  fst (attempts' p s MAX_RETRIES_PER_PROXY 1%nat last) = Exhausted l ->
  exists e, l = Some e.
Proof.
  rewrite attemptLoop_unfold.
  destruct (tryAttempt net targetUrl responseParser p s 1%nat) as [v | e | e | t];
    cbn [fst]; try discriminate.
  - intros H. injection H as <-. eexists. reflexivity.
  - destruct (tryAttempt net targetUrl responseParser p s 2%nat); cbn [afterSecond];
      try discriminate; intros H; injection H as <-; eexists; reflexivity.
  - destruct (tryAttempt net targetUrl responseParser p s 2%nat); cbn [afterSecond];
      try discriminate; intros H; injection H as <-; eexists; reflexivity.
Qed.

Lemma proxyLoop_throws_final (proxies : list Proxy) :
  forall s e0 t,
    fst (loop' proxies s (Some e0)) = Throw t ->
    exists e, t = ThrownError (finalError (Some e)).
Proof.
  induction proxies as [| p rest IH]; intros s e0 t H.
  - cbn in H. injection H as <-. exists e0. reflexivity.
  - rewrite proxyLoop_step in H. cbn [fst] in H.
    destruct (fst (attempts' p s MAX_RETRIES_PER_PROXY 1%nat (Some e0))) as [v | l] eqn:Hout;
      cbn [continueWith fst] in H; [discriminate |].
    destruct (attemptLoop_exhausted_records p s (Some e0) l Hout) as [e ->].
    exact (IH (S s) e t H).
Qed.

Lemma finalError_never_no_data (e : JsError) :
  err_class (finalError (Some e)) = ClsError
  /\ err_message (finalError (Some e)) <> msgNoData.
Proof.
  split.
  - unfold finalError.
    destruct (includes (str "Timeout") (err_message e)); [reflexivity |].
    destruct (isTypeError e && includes (str "fetch") (err_message e)); reflexivity.
  - rewrite finalError_message.
    destruct (includes (str "Timeout") (err_message e)); [vm_compute; discriminate |].
    destruct (isTypeError e && includes (str "fetch") (err_message e));
      [vm_compute; discriminate |].
    intros H. apply (f_equal (hd 0%N)) in H. vm_compute in H. discriminate H.
Qed.

(** X4. With at least one strategy, whatever a failing call throws is an
    [Error] made by [finalError] from a failure it recorded: it never throws
    a value that is no [Error], and never the bare no-data error kept for
    the case in which nothing was recorded. *)
Theorem fetchWithProxies_failure_is_classified (p : Proxy) (rest : list Proxy) (t : Thrown) :
  fst (fetchWithProxiesOver net targetUrl responseParser (p :: rest)) = Throw t ->
  exists e,
    t = ThrownError (finalError (Some e))
    /\ err_class (finalError (Some e)) = ClsError
    /\ err_message (finalError (Some e)) <> msgNoData.
Proof.
  unfold fetchWithProxiesOver. rewrite proxyLoop_step. cbn [fst].
  destruct (fst (attempts' p 0 MAX_RETRIES_PER_PROXY 1%nat None)) as [v | l] eqn:Hout;
    cbn [continueWith fst]; [discriminate |].
  destruct (attemptLoop_exhausted_records p 0 None l Hout) as [e0 ->].
  intros H. destruct (proxyLoop_throws_final rest 1 e0 t H) as [e ->].
  exists e. split; [reflexivity | apply finalError_never_no_data].
Qed.

Lemma tryAttempt_return_inv (p : Proxy) (s a : nat) (v : A) :
  tryAt' p s a = TryReturn v ->
  exists response payload,
    fetchWithTimeout (net s a (buildUrl p targetUrl)) FETCH_TIMEOUT_MS = Ok response
    /\ resp_ok response = true
    /\ parseResponse p response = Ok payload
    /\ truthy payload = true
    /\ responseParser payload = Ok v.
Proof.
  unfold tryAttempt.
  destruct (fetchWithTimeout _ _) as [response | t] eqn:Hf; [| discriminate].
  destruct (resp_ok response) eqn:Hok; cbn [negb]; [| discriminate].
  destruct (parseResponse p response) as [payload | t] eqn:Hp; [| discriminate].
  destruct (truthy payload) eqn:Htr; cbn [negb]; [| discriminate].
  destruct (responseParser payload) as [v' | t] eqn:Hv; [| discriminate].
  intros H. injection H as <-. exists response, payload. repeat split; assumption.
Qed.

Lemma attemptLoop_returned (p : Proxy) (s : nat) (last : option JsError) (v : A) :
  fst (attempts' p s MAX_RETRIES_PER_PROXY 1%nat last) = Returned v ->
  exists a pre,
    tryAt' p s a = TryReturn v
    /\ snd (attempts' p s MAX_RETRIES_PER_PROXY 1%nat last)
       = pre ++ [EvFetch s a (buildUrl p targetUrl)].
Proof.
  rewrite attemptLoop_unfold.
  destruct (tryAttempt net targetUrl responseParser p s 1%nat) as [v1 | e | e | t] eqn:H1;
    cbn [fst snd]; try discriminate.
  - intros H. injection H as <-. exists 1%nat, []. split; [exact H1 | reflexivity].
  - destruct (tryAttempt net targetUrl responseParser p s 2%nat) as [v2 | | |] eqn:H2;
      cbn [afterSecond]; try discriminate.
    intros H. injection H as <-.
    exists 2%nat, [EvFetch s 1 (buildUrl p targetUrl)]. split; [exact H2 | reflexivity].
  - destruct (tryAttempt net targetUrl responseParser p s 2%nat) as [v2 | | |] eqn:H2;
      cbn [afterSecond]; try discriminate.
    intros H. injection H as <-.
    exists 2%nat, [EvFetch s 1 (buildUrl p targetUrl); EvDelay RETRY_DELAY_MS].
    split; [exact H2 | reflexivity].
Qed.

Lemma proxyLoop_returned (proxies : list Proxy) :
  forall s last v,
    fst (loop' proxies s last) = Ok v ->
    exists i p a pre,
      nth_error proxies i = Some p
      /\ tryAt' p (s + i) a = TryReturn v
      /\ snd (loop' proxies s last) = pre ++ [EvFetch (s + i) a (buildUrl p targetUrl)].
Proof.
  induction proxies as [| p rest IH]; intros s last v H.
  - cbn in H. discriminate H.
  - rewrite proxyLoop_step in H |- *. cbn [fst snd] in H |- *.
    destruct (fst (attempts' p s MAX_RETRIES_PER_PROXY 1%nat last)) as [v' | l] eqn:Hout;
      cbn [continueWith fst snd] in H |- *.
    + injection H as ->.
      destruct (attemptLoop_returned p s last v Hout) as (a & pre & Hret & Hlog).
      exists 0%nat, p, a, pre. rewrite Nat.add_0_r, app_nil_r.
      split; [reflexivity |]. split; assumption.
    + destruct (IH (S s) l v H) as (i & q & a & pre & Hi & Hret & Hlog).
      exists (S i), q, a, (snd (attempts' p s MAX_RETRIES_PER_PROXY 1%nat last) ++ pre).
      replace (s + S i)%nat with (S s + i)%nat by lia.
      split; [exact Hi |]. split; [exact Hret |]. rewrite Hlog, app_assoc. reflexivity.
Qed.

(** X5. A value returned by a call is always the interpreter's result on a
    whole payload: the last request of the run got a successful response
    from one of the strategies, the unwrapped payload was not empty, and the
    interpreter returned that value on it. *)
Theorem fetchWithProxies_result_is_interpreted_payload (proxies : list Proxy) (v : A) :
  fst (fetchWithProxiesOver net targetUrl responseParser proxies) = Ok v ->
  exists s p a pre response payload,
    nth_error proxies s = Some p
    /\ snd (fetchWithProxiesOver net targetUrl responseParser proxies)
       = pre ++ [EvFetch s a (buildUrl p targetUrl)]
    /\ fetchWithTimeout (net s a (buildUrl p targetUrl)) FETCH_TIMEOUT_MS = Ok response
    /\ resp_ok response = true
    /\ parseResponse p response = Ok payload
    /\ truthy payload = true
    /\ responseParser payload = Ok v.
Proof.
  unfold fetchWithProxiesOver. intros H.
  destruct (proxyLoop_returned proxies 0 None v H) as (i & p & a & pre & Hi & Hret & Hlog).
  cbn [Nat.add] in *.
  destruct (tryAttempt_return_inv p i a v Hret) as (response & payload & Hrest).
  exists i, p, a, pre, response, payload. split; [exact Hi |]. split; [exact Hlog | exact Hrest].
Qed.

(** X6. Requests go out in the declared order and none is repeated: of two
    requests of a run, the later one is for a later strategy, or for the
    same strategy with a higher attempt number. *)
Theorem fetchWithProxies_requests_in_order (proxies : list Proxy)
        (pre mid post : list Event) (s1 a1 s2 a2 : nat) (u1 u2 : jsstring) :
  snd (fetchWithProxiesOver net targetUrl responseParser proxies)
  = pre ++ EvFetch s1 a1 u1 :: mid ++ EvFetch s2 a2 u2 :: post ->
  (s1 < s2)%nat \/ (s1 = s2 /\ (a1 < a2)%nat).
Proof.
  unfold fetchWithProxiesOver. intros Hlog.
  destruct (proxyLoop_anatomy net targetUrl responseParser proxies 0 None pre
                              (EvFetch s1 a1 u1) (mid ++ EvFetch s2 a2 u2 :: post) Hlog)
    as (front & p & rest & last' & pre0 & segPre & segPost & Hp & Hpre & Hseg & Hpost & _).
  cbn [Nat.add] in *.
  destruct (segment_event net targetUrl responseParser p (length front) last'
                          segPre segPost s1 a1 u1 Hseg) as (Hs & _ & Hcases).
  subst s1.
  assert (Hin : In (EvFetch s2 a2 u2)
                   (segPost ++ snd (continueWith net targetUrl responseParser rest
                                      (length front)
                                      (fst (attempts' p (length front)
                                                      MAX_RETRIES_PER_PROXY 1%nat last'))))).
  { rewrite <- Hpost. apply in_or_app. right. left. reflexivity. }
  apply in_app_or in Hin. destruct Hin as [Hin | Hin].
  - right. destruct Hcases as [(-> & _ & H1) | (_ & -> & _)]; [| destruct Hin].
    destruct (tryAttempt net targetUrl responseParser p (length front) 1%nat).
    + destruct H1 as [Hnil _]. subst segPost. destruct Hin.
    + destruct H1 as [Hnil _]. subst segPost. destruct Hin.
    + subst segPost. destruct Hin as [Hin | []].
      injection Hin as <- <- _. split; [reflexivity | lia].
    + subst segPost. destruct Hin as [Hin | [Hin | []]]; [discriminate Hin |].
      injection Hin as <- <- _. split; [reflexivity | lia].
  - left.
    destruct (fst (attempts' p (length front) MAX_RETRIES_PER_PROXY 1%nat last')) as [v | l];
      cbn [continueWith snd] in Hin; [destruct Hin |].
    apply proxyLoop_events_from in Hin. lia.
Qed.

End FetcherBounds.

(** ** Cleaning, beyond the claims *)

Lemma stripTagsFrom_tag_free (s : jsstring) :
  hasTag s = false -> stripTagsFrom false s = s.
Proof.
  induction s as [| c t IH]; [reflexivity |].
  cbn [hasTag stripTagsFrom]. intros H. apply orb_false_elim in H. destruct H as [Hc Ht].
  rewrite Hc, (IH Ht). reflexivity.
Qed.

(** X7. Removing tags leaves a keyword without tags unchanged, and removing
    them a second time changes nothing: one pass is enough. *)
Theorem stripTags_idempotent (s : jsstring) :
  stripTags (stripTags s) = stripTags s
  /\ (hasTag s = false -> stripTags s = s).
Proof.
  split.
  - apply stripTagsFrom_tag_free, hasTag_stripTags.
  - apply stripTagsFrom_tag_free.
Qed.

Lemma removeCitations_marker_free (s : jsstring) :
  hasMarker s = false -> removeCitationsFrom 0 s = s.
Proof.
  induction s as [| c t IH]; [reflexivity |].
  cbn [hasMarker removeCitationsFrom]. intros H. apply orb_false_elim in H.
  destruct H as [Hc Ht].
  destruct (markerLength (c :: t)); [discriminate Hc |].
  rewrite (IH Ht). reflexivity.
Qed.

(** X8. A text field that holds no citation marker comes out of the
    cleaning merely trimmed. *)
Theorem cleanText_only_trims (typeErrorMessage : jsstring -> jsstring) (s : jsstring) :
  hasMarker s = false ->
  cleanText typeErrorMessage (Some (JString s)) = Ok (trim s).
Proof.
  intros H. unfold cleanText, removeCitations.
  rewrite (removeCitations_marker_free s H). reflexivity.
Qed.

(** ** Aggregation, beyond the claims *)

Lemma setAdd_keeps (x y : jsstring) (set : list jsstring) : In y set -> In y (setAdd x set).
Proof.
  unfold setAdd. destruct (existsb (jsstring_eqb x) set); [tauto |].
  intros H. apply in_or_app. left. exact H.
Qed.

Lemma setAdd_adds (x : jsstring) (set : list jsstring) : In x (setAdd x set).
Proof.
  unfold setAdd. destruct (existsb (jsstring_eqb x) set) eqn:E.
  - apply existsb_exists in E. destruct E as (y & Hy & Heq).
    apply jsstring_eqb_eq in Heq. subst y. exact Hy.
  - apply in_or_app. right. left. reflexivity.
Qed.

Lemma collect_complete (l : list jsstring) :
  forall set,
    let out := fold_left (fun set' kw => setAdd (stripTags kw) set') l set in
    (forall y, In y set -> In y out)
    /\ (forall kw, In kw l -> In (stripTags kw) out).
Proof.
  induction l as [| x t IH]; intros set; cbn [fold_left].
  - split; [tauto | intros kw []].
  - destruct (IH (setAdd (stripTags x) set)) as [Hkeep Hall]. split.
    + intros y Hy. apply Hkeep, setAdd_keeps, Hy.
    + intros kw [<- | Hkw]; [apply Hkeep, setAdd_adds | apply Hall, Hkw].
Qed.

Lemma naverAggregate_complete (word : jsstring)
      (settlements : list (Result (list jsstring)))
      (result : list (KeywordData jsstring)) :
  naverAggregate word settlements = Ok result ->
  (length result < 20)%nat ->
  forall v kw, In (Ok v) settlements -> In kw v ->
               In (stripTags kw) (map keyword result).
Proof.
  unfold naverAggregate.
  destruct (fulfilled settlements) as [| r rs] eqn:Hful; [discriminate |].
  rewrite <- Hful. clear r rs Hful. rewrite collect_concat.
  destruct (collect_complete (concat (fulfilled settlements)) []) as [_ Hall].
  revert Hall. cbv zeta.
  generalize (fold_left (fun set' kw => setAdd (stripTags kw) set')
                        (concat (fulfilled settlements)) []) as all.
  intros all Hall H Hlen v kw Hv Hkw.
  assert (Hres : map keyword result = firstn 20 all).
  { assert (E : result = numberFrom 0 (firstn 20 all)) by congruence.
    rewrite E. apply numberFrom_keywords. }
  assert (Hsize : length (firstn 20 all) = length result).
  { rewrite <- Hres, length_map. reflexivity. }
  rewrite length_firstn in Hsize.
  rewrite Hres, firstn_all2 by lia.
  apply Hall, in_concat. exists v. split; [apply fulfilled_In, Hv | exact Hkw].
Qed.

Section KeywordCompleteness.

Variable syntaxErrorMessage : jsstring -> jsstring.
Variable encodeURIComponent : jsstring -> jsstring.
Variable numberToString : jsnumber -> jsstring.
Variable net : nat -> nat -> jsstring -> Flight.

(** X9. On the Naver path nothing is lost below the cap: when fewer than 20
    keywords are returned, every suggestion of every fulfilled sub-fetch is
    among them, with its tags removed. *)
Theorem naver_keeps_every_suggestion_below_cap (word : jsstring)
        (result : list (KeywordData jsstring)) :
  fetchRelatedKeywords syntaxErrorMessage encodeURIComponent numberToString net word naver
  = Ok result ->
  (length result < 20)%nat ->
  forall v kw,
    In (Ok v) (naverSettlements syntaxErrorMessage encodeURIComponent numberToString net word) ->
    In kw v ->
    In (stripTags kw) (map keyword result).
Proof.
  unfold fetchRelatedKeywords. destruct (trim word) as [| c w]; [discriminate |].
  apply naverAggregate_complete.
Qed.

End KeywordCompleteness.


Section ModelLengths.

Variable syntaxErrorMessage : jsstring -> jsstring.
Variable typeErrorMessage : jsstring -> jsstring.
Variable newGoogleGenAI : Result unit.
Variable generateContent : jsstring -> Result (option jsstring).


End ModelLengths.

(** ** The reports *)

Lemma includes_app_r (needle a b : jsstring) :
  includes needle b = true -> includes needle (a ++ b) = true.
Proof.
  intros H. induction a as [| x a IH]; [exact H |].
  cbn [app includes]. rewrite IH. apply orb_true_r.
Qed.

Lemma objectPositions_bounds (items : list json) :
  forall index z, In z (objectPositions index items) ->
                  index < z <= index + Z.of_nat (length items).
Proof.
  induction items as [| item rest IH]; intros index z Hz; cbn [objectPositions length] in *.
  - destruct Hz.
  - destruct (isObjectLike item).
    + destruct Hz as [<- | Hz]; [lia |]. apply IH in Hz. lia.
    + apply IH in Hz. lia.
Qed.

Lemma classifyFailure_Ok {X} (abnormal failedWith unknown : jsstring) (r : Result X) (v : X) :
  classifyFailure abnormal failedWith unknown r = Ok v -> r = Ok v.
Proof.
  unfold classifyFailure. destruct r as [x | [e | w]]; [tauto | | discriminate].
  destruct (includes (str "JSON") (err_message e)); discriminate.
Qed.

Section ReportFacts.

Variable syntaxErrorMessage : jsstring -> jsstring.
Variable typeErrorMessage : jsstring -> jsstring.
Variable newGoogleGenAI : Result unit.
Variable generateContent : jsstring -> Result (option jsstring).

Lemma answerText_Ok (answer : option jsstring) (text : jsstring) :
  answerText typeErrorMessage answer = Ok text -> answer = Some text.
Proof. destruct answer; cbn; [congruence | discriminate]. Qed.

Lemma recommendItem_spec (index : Z) (item : json) (r : option RecommendedKeyword) :
  recommendItem typeErrorMessage index item = Ok r ->
  match r with
  | Some rk => isObjectLike item = true /\ rk_id rk = index + 1
               /\ cleanedRecommendation item rk
  | None => isObjectLike item = false
  end.
Proof.
  unfold recommendItem. destruct (isObjectLike item).
  - destruct (cleanText typeErrorMessage (getProp item (str "keyword"))) as [k |] eqn:Hk;
      cbn [bind]; [| discriminate].
    destruct (cleanText typeErrorMessage (getProp item (str "reason"))) as [re |] eqn:Hr;
      cbn [bind]; [| discriminate].
    destruct (cleanText typeErrorMessage (getProp item (str "title"))) as [ti |] eqn:Ht;
      cbn [bind]; [| discriminate].
    destruct (cleanText typeErrorMessage (getProp item (str "thumbnailCopy"))) as [th |] eqn:Hc;
      cbn [bind]; [| discriminate].
    destruct (cleanText typeErrorMessage (getProp item (str "strategy"))) as [st |] eqn:Hs;
      cbn [bind]; [| discriminate].
    intros H. injection H as <-. split; [reflexivity |]. split; [reflexivity |].
    unfold cleanedRecommendation.
    cbn [rk_keyword rk_reason rk_title rk_thumbnailCopy rk_strategy].
    split; [exact (cleanText_cleaned _ _ _ Hk) |].
    split; [exact (cleanText_cleaned _ _ _ Hr) |].
    split; [exact (cleanText_cleaned _ _ _ Ht) |].
    split; [exact (cleanText_cleaned _ _ _ Hc) | exact (cleanText_cleaned _ _ _ Hs)].
  - intros H. injection H as <-. reflexivity.
Qed.

Lemma recommendMap_spec (items : list json) :
  forall index mapped,
    mapIndexedM (recommendItem typeErrorMessage) index items = Ok mapped ->
    map rk_id (somes mapped) = objectPositions index items
    /\ Forall2 cleanedRecommendation (filter isObjectLike items) (somes mapped).
Proof.
  induction items as [| item rest IH]; intros index mapped;
    cbn [mapIndexedM objectPositions filter].
  - intros H. injection H as <-. split; [reflexivity | constructor].
  - destruct (recommendItem typeErrorMessage index item) as [r |] eqn:Hitem;
      cbn [bind]; [| discriminate].
    destruct (mapIndexedM (recommendItem typeErrorMessage) (index + 1) rest) as [ys |] eqn:Hrest;
      cbn [bind]; [| discriminate].
    intros H. injection H as <-.
    destruct (IH (index + 1) ys Hrest) as [Hids Hclean].
    pose proof (recommendItem_spec index item r Hitem) as Hr.
    destruct r as [rk |]; cbn [somes map].
    + destruct Hr as (Hobj & Hid & Hrk). rewrite Hobj, Hid, Hids.
      split; [reflexivity | constructor; assumption].
    + rewrite Hr. split; assumption.
Qed.

(** X11. Whenever [fetchRecommendedKeywords] returns, the model's answer
    held a JSON array; the result has one entry per item that is an object
    (or an array), in order, and its id is the 1-based position of that
    item in the model's array: items that are no objects are dropped
    without renumbering the rest. Every text field of an entry is the text
    its item holds under the same key, after one pass deleting the citation
    markers and trimmed, as in [generateRelatedKeywords]. *)
Theorem recommended_keywords_keep_positions (prompt : jsstring)
        (result : list RecommendedKeyword) :
  fetchRecommendedKeywords syntaxErrorMessage typeErrorMessage newGoogleGenAI
                           generateContent prompt = Ok result ->
  exists text items,
    generateContent prompt = Ok (Some text)
    /\ extractJsonFromText syntaxErrorMessage text = Ok (JArray items)
    /\ map rk_id result = objectPositions 0 items
    /\ Forall (fun r => 1 <= rk_id r <= Z.of_nat (length items)) result
    /\ Forall2 cleanedRecommendation (filter isObjectLike items) result.
Proof.
  unfold fetchRecommendedKeywords.
  destruct newGoogleGenAI as [[] | t]; cbn [bind]; [| discriminate].
  intros H. apply classifyFailure_Ok in H. unfold fetchRecommendedKeywordsBody in H.
  destruct (generateContent prompt) as [answer | t]; cbn [bind] in H; [| discriminate H].
  destruct (answerText typeErrorMessage answer) as [text |] eqn:Htext;
    cbn [bind] in H; [| discriminate H].
  apply answerText_Ok in Htext. subst answer.
  destruct (extractJsonFromText syntaxErrorMessage text) as [parsed |] eqn:Hext;
    cbn [bind] in H; [| discriminate H].
  destruct parsed as [| | | | items |]; try discriminate H.
  destruct (mapIndexedM (recommendItem typeErrorMessage) 0 items) as [mapped |] eqn:Hmap;
    cbn [bind] in H; [| discriminate H].
  injection H as <-.
  destruct (recommendMap_spec items 0 mapped Hmap) as [Hids Hclean].
  exists text, items. split; [reflexivity |]. split; [exact Hext |].
  split; [exact Hids |]. split; [| exact Hclean].
  apply Forall_forall. intros r Hr. apply (in_map rk_id) in Hr. rewrite Hids in Hr.
  apply objectPositions_bounds in Hr. lia.
Qed.

Lemma extract_error_cases (text : jsstring) (t : Thrown) :
  extractJsonFromText syntaxErrorMessage text = Throw t ->
  t = ThrownError (newError msgNoJson)
  \/ t = ThrownError (newError msgNoJsonEnd)
  \/ exists potential,
      potentialJson text = Ok potential
      /\ parseJsonText potential = None
      /\ t = ThrownError (newError (msgBadFormatWith (syntaxErrorMessage potential))).
Proof.
  unfold extractJsonFromText, potentialJson.
  destruct (startIndexOf (searchText text) =? -1).
  - cbn. intros H. injection H as <-. left. reflexivity.
  - destruct (endIndexOf (searchText text) (startIndexOf (searchText text)) =? -1).
    + cbn. intros H. injection H as <-. right. left. reflexivity.
    + cbn [bind]. unfold JSON_parse.
      destruct (parseJsonText _) eqn:Hp; [discriminate |].
      cbn. intros H. injection H as <-. right. right.
      eexists. split; [reflexivity |]. split; [exact Hp | reflexivity].
Qed.

(** X12. How [fetchRecommendedKeywords] reports a bad answer. When the
    extractor fails on the answer (no JSON in it, no end of the JSON, or a
    parse error whose wording names JSON, as the engines' do), the caller
    sees the abnormal-data error. When the answer holds JSON that is no
    array, the caller sees the communication-failure error, around the
    not-an-array message. *)
Theorem recommended_keywords_failure_report (prompt text : jsstring) :
  newGoogleGenAI = Ok tt ->
  generateContent prompt = Ok (Some text) ->
  (forall p, includes (str "JSON") (syntaxErrorMessage p) = true) ->
  ((exists t, extractJsonFromText syntaxErrorMessage text = Throw t) ->
   fetchRecommendedKeywords syntaxErrorMessage typeErrorMessage newGoogleGenAI
                            generateContent prompt
   = throwError msgAbnormalRetry)
  /\ (forall v, extractJsonFromText syntaxErrorMessage text = Ok v ->
                (forall items, v <> JArray items) ->
                fetchRecommendedKeywords syntaxErrorMessage typeErrorMessage newGoogleGenAI
                                         generateContent prompt
                = throwError (str "전략 키워드 분석 중 AI 모델과 통신하는 데 실패했습니다. 오류: "
                              ++ msgNotArray)).
Proof.
  intros Hclient Hanswer Hwording.
  unfold fetchRecommendedKeywords, fetchRecommendedKeywordsBody.
  rewrite Hclient, Hanswer. cbn [bind answerText]. split.
  - intros [t Ht]. rewrite Ht. cbn [bind classifyFailure].
    destruct (extract_error_cases text t Ht) as [-> | [-> | (p & _ & _ & ->)]].
    + reflexivity.
    + reflexivity.
    + cbn [err_message newError]. unfold msgBadFormatWith.
      rewrite (includes_app_r _ _ _ (Hwording p)). reflexivity.
  - intros v Hv Hshape. rewrite Hv. cbn [bind].
    destruct v as [| | | | items |]; try reflexivity.
    exfalso. exact (Hshape items eq_refl).
Qed.

Lemma topicMap_spec (items : list json) :
  forall n topics,
    mapIndexedM (topicItem typeErrorMessage) (Z.of_nat n) items = Ok topics ->
    Forall2 topicOf items topics
    /\ map gt_id topics = map Z.of_nat (seq (S n) (length items)).
Proof.
  induction items as [| item rest IH]; intros n topics; cbn [mapIndexedM].
  - intros H. injection H as <-. split; [constructor | reflexivity].
  - destruct (topicItem typeErrorMessage (Z.of_nat n) item) as [t |] eqn:Hitem;
      cbn [bind]; [| discriminate].
    replace (Z.of_nat n + 1) with (Z.of_nat (S n)) by lia.
    destruct (mapIndexedM (topicItem typeErrorMessage) (Z.of_nat (S n)) rest) as [ts |] eqn:Hrest;
      cbn [bind]; [| discriminate].
    intros H. injection H as <-.
    destruct (IH (S n) ts Hrest) as [Hall Hids].
    assert (Ht : gt_id t = Z.of_nat (S n) /\ topicOf item t).
    { unfold topicItem, throwTypeError in Hitem.
      destruct item; try discriminate Hitem; injection Hitem as <-;
        (split; [cbn [gt_id]; lia | repeat split]). }
    destruct Ht as [Hid Hof]. split; [constructor; assumption |].
    cbn [map length seq]. rewrite Hid, Hids. reflexivity.
Qed.

(** X13. Whenever [callGenerativeModelForTopics] returns, the model's
    answer, trimmed, parsed as a JSON array; the result has one topic per
    item, in order, numbered 1, 2, ... and carrying the item's [title],
    [thumbnailCopy] and [strategy] as they are. *)
Theorem topics_are_numbered (prompt : jsstring) (topics : list GeneratedTopic) :
  callGenerativeModelForTopics syntaxErrorMessage typeErrorMessage newGoogleGenAI
                               generateContent prompt = Ok topics ->
  exists text items,
    generateContent prompt = Ok (Some text)
    /\ JSON_parse syntaxErrorMessage (trim text) = Ok (JArray items)
    /\ map gt_id topics = map Z.of_nat (seq 1 (length items))
    /\ Forall2 topicOf items topics.
Proof.
  unfold callGenerativeModelForTopics.
  destruct newGoogleGenAI as [[] | t]; cbn [bind]; [| discriminate].
  intros H. apply classifyFailure_Ok in H. unfold callGenerativeModelForTopicsBody in H.
  destruct (generateContent prompt) as [answer | t]; cbn [bind] in H; [| discriminate H].
  destruct (answerText typeErrorMessage answer) as [text |] eqn:Htext;
    cbn [bind] in H; [| discriminate H].
  apply answerText_Ok in Htext. subst answer.
  destruct (JSON_parse syntaxErrorMessage (trim text)) as [parsed |] eqn:Hparse;
    cbn [bind] in H; [| discriminate H].
  destruct parsed as [| | | | items |]; try discriminate H.
  destruct (topicMap_spec items 0 topics H) as [Hall Hids].
  exists text, items. split; [reflexivity |]. split; [exact Hparse |].
  split; [exact Hids | exact Hall].
Qed.

Lemma someInvalidCategory_false (items : list json) :
  someInvalidCategory typeErrorMessage items = Ok false -> Forall validCategory items.
Proof.
  induction items as [| p rest IH]; cbn [someInvalidCategory]; [constructor |].
  assert (Hgen : (if negb (truthyOpt (getProp p (str "category")))
                     || match isArray (getProp p (str "suggestions")) with
                        | Some _ => false
                        | None => true
                        end
                  then Ok true
                  else someInvalidCategory typeErrorMessage rest) = Ok false ->
                 Forall validCategory (p :: rest)).
  { destruct (truthyOpt (getProp p (str "category"))) eqn:Hc; cbn [negb orb]; [| discriminate].
    destruct (getProp p (str "suggestions")) as [[| | | | l |] |] eqn:Hs; cbn [isArray];
      try discriminate.
    intros H. constructor; [| exact (IH H)].
    split; [exact Hc | exists l; exact Hs]. }
  destruct p; try exact Hgen. unfold throwTypeError. discriminate.
Qed.

(** X14. Whenever [generateSustainableTopics] returns, the value is a JSON
    array each element of which has a truthy [category] and an array of
    [suggestions]: the shape the topic view reads. *)
Theorem sustainable_topics_are_valid (sustainablePrompt : jsstring -> jsstring)
        (word : jsstring) (v : json) :
  generateSustainableTopics syntaxErrorMessage typeErrorMessage newGoogleGenAI
                            generateContent sustainablePrompt word = Ok v ->
  exists items, v = JArray items /\ Forall validCategory items.
Proof.
  unfold generateSustainableTopics. destruct (trim word) as [| c w]; [discriminate |].
  destruct newGoogleGenAI as [[] | t]; cbn [bind]; [| discriminate].
  intros H. apply classifyFailure_Ok in H. unfold generateSustainableTopicsBody in H.
  destruct (generateContent (sustainablePrompt word)) as [answer | t];
    cbn [bind] in H; [| discriminate H].
  destruct (answerText typeErrorMessage answer) as [text |]; cbn [bind] in H; [| discriminate H].
  destruct (JSON_parse syntaxErrorMessage (trim text)) as [parsed |];
    cbn [bind] in H; [| discriminate H].
  destruct parsed as [| | | | items |]; try discriminate H.
  destruct (someInvalidCategory typeErrorMessage items) as [[|] |] eqn:Hinv;
    cbn [bind] in H; try discriminate H.
  injection H as <-. exists items. split; [reflexivity |].
  exact (someInvalidCategory_false items Hinv).
Qed.

End ReportFacts.

(** ** Objects the reports build *)

Lemma jsstring_eqb_refl (k : jsstring) : jsstring_eqb k k = true.
Proof. apply jsstring_eqb_eq. reflexivity. Qed.

Lemma jsstring_eqb_sym (a b : jsstring) : jsstring_eqb a b = jsstring_eqb b a.
Proof.
  destruct (jsstring_eqb a b) eqn:E1, (jsstring_eqb b a) eqn:E2; try reflexivity.
  - apply jsstring_eqb_eq in E1. subst b. rewrite jsstring_eqb_refl in E2. discriminate.
  - apply jsstring_eqb_eq in E2. subst b. rewrite jsstring_eqb_refl in E1. discriminate.
Qed.

(** Setting a key and reading it back. *)
Lemma assocGet_assocSet_same (k : jsstring) (v : json) (ms : list (jsstring * json)) :
  assocGet k (assocSet k v ms) = Some v.
Proof.
  induction ms as [| [k' v'] t IH]; cbn [assocSet assocGet].
  - rewrite jsstring_eqb_refl. reflexivity.
  - destruct (jsstring_eqb k k') eqn:E; cbn [assocGet].
    + rewrite jsstring_eqb_refl. reflexivity.
    + rewrite E. exact IH.
Qed.

(** Setting a key leaves the other keys as they were. *)
Lemma assocGet_assocSet_other (k k0 : jsstring) (v : json) (ms : list (jsstring * json)) :
  jsstring_eqb k k0 = false ->
  assocGet k (assocSet k0 v ms) = assocGet k ms.
Proof.
  intros Hne. induction ms as [| [k' v'] t IH]; cbn [assocSet assocGet].
  - rewrite Hne. reflexivity.
  - destruct (jsstring_eqb k0 k') eqn:E; cbn [assocGet].
    + apply jsstring_eqb_eq in E. subst k'. rewrite Hne. reflexivity.
    + rewrite IH. reflexivity.
Qed.

Lemma mapIndexed_nth {X Y} (f : Z -> X -> Y) (l : list X) :
  forall index k x,
    nth_error l k = Some x ->
    nth_error (mapIndexed f index l) k = Some (f (index + Z.of_nat k) x).
Proof.
  induction l as [| y t IH]; intros index k x H; destruct k; cbn in H; try discriminate.
  - injection H as <-. cbn [mapIndexed nth_error]. rewrite Z.add_0_r. reflexivity.
  - cbn [mapIndexed nth_error]. rewrite (IH (index + 1) k x H). f_equal. f_equal. lia.
Qed.

Lemma mapIndexed_nth_inv {X Y} (f : Z -> X -> Y) (l : list X) :
  forall index k y,
    nth_error (mapIndexed f index l) k = Some y ->
    exists x, nth_error l k = Some x /\ y = f (index + Z.of_nat k) x.
Proof.
  intros index k y H. destruct (nth_error l k) as [x |] eqn:Hx.
  - rewrite (mapIndexed_nth f l index k x Hx) in H. injection H as <-.
    exists x. split; reflexivity.
  - exfalso. apply nth_error_None in Hx.
    assert (Hlen : length (mapIndexed f index l) = length l).
    { clear. revert index. induction l as [| a t IH]; intros index; cbn;
        [reflexivity | rewrite IH; reflexivity]. }
    assert (Hk : nth_error (mapIndexed f index l) k = None)
      by (apply nth_error_None; rewrite Hlen; exact Hx).
    congruence.
Qed.

(** ** Words of a keyword *)

Lemma splitOnSpace_some_word (s : jsstring) :
  forall cur gap,
    cur <> [] \/ (exists c, In c s /\ isWhiteSpace c = false) ->
    (1 <= length (filter nonEmpty (splitOnSpace cur gap s)))%nat.
Proof.
  induction s as [| c t IH]; intros cur gap H; cbn [splitOnSpace].
  - destruct H as [H | (c & [] & _)].
    cbn [filter]. destruct (rev cur) as [| x r] eqn:E; [| cbn; lia].
    exfalso. apply H. rewrite <- (rev_involutive cur), E. reflexivity.
  - destruct (isWhiteSpace c) eqn:Hc.
    + assert (Htail : cur <> [] \/ exists c', In c' t /\ isWhiteSpace c' = false).
      { destruct H as [H | (c' & [<- | Hin] & Hw)];
          [left; exact H | congruence | right; exists c'; auto]. }
      destruct gap; [apply IH, Htail |].
      cbn [filter]. destruct Htail as [Hcur | Ht].
      * destruct (rev cur) as [| x r] eqn:E;
          [exfalso; apply Hcur; rewrite <- (rev_involutive cur), E; reflexivity |].
        cbn [nonEmpty length]. lia.
      * destruct (nonEmpty (rev cur)); cbn [length];
          [pose proof (IH [] true (or_intror Ht)); lia | apply IH; right; exact Ht].
    + apply IH. left. discriminate.
Qed.

Lemma splitOnSpace_at_most (s : jsstring) :
  forall cur gap,
    (length (filter nonEmpty (splitOnSpace cur gap s))
     <= (if nonEmpty cur then 1 else 0) + length s)%nat.
Proof.
  induction s as [| c t IH]; intros cur gap; cbn [splitOnSpace length].
  - cbn [filter]. destruct cur as [| x r]; [cbn; lia |].
    destruct (nonEmpty (rev (x :: r))); cbn; lia.
  - destruct (isWhiteSpace c).
    + destruct gap.
      * pose proof (IH cur true). lia.
      * cbn [filter]. pose proof (IH [] true) as Ht. cbn [nonEmpty] in Ht.
        destruct cur as [| x r]; [cbn; lia |].
        destruct (nonEmpty (rev (x :: r))); cbn [length nonEmpty]; lia.
    + pose proof (IH (c :: cur) false) as Ht. cbn [nonEmpty] in Ht.
      destruct (nonEmpty cur); lia.
Qed.

Lemma trim_nonempty_has_word (s : jsstring) :
  trim s <> [] -> exists c, In c s /\ isWhiteSpace c = false.
Proof.
  unfold trim, trimStart. intros H.
  pose proof (dropWhile_head isWhiteSpace s) as Hh.
  destruct (dropWhile isWhiteSpace s) as [| c t] eqn:E.
  - exfalso. apply H. reflexivity.
  - exists c. split; [| exact Hh].
    apply (dropWhile_incl isWhiteSpace). rewrite E. left. reflexivity.
Qed.

(** A keyword that is not blank has at least one word and no more words
    than code units. *)
Lemma wordCount_bounds (word : jsstring) :
  trim word <> [] -> 1 <= wordCount word <= Z.of_nat (length word).
Proof.
  intros H. unfold wordCount.
  pose proof (splitOnSpace_some_word word [] false
                                     (or_intror (trim_nonempty_has_word word H))).
  pose proof (splitOnSpace_at_most word [] false) as Hmax. cbn [nonEmpty] in Hmax.
  lia.
Qed.

Section StrategyFacts.

Variable syntaxErrorMessage : jsstring -> jsstring.
Variable typeErrorMessage : jsstring -> jsstring.
Variable newGoogleGenAI : Result unit.
Variable generateContent : jsstring -> Result (option jsstring).

Lemma withId_id (index : Z) (item : json) :
  getProp (withId index item) (str "id") = Some (JNumber (numberOfZ (index + 1))).
Proof. unfold withId, getProp. apply assocGet_assocSet_same. Qed.

Lemma strategyReportBody_numbered (prompt : jsstring) (v : json) :
  strategyReportBody syntaxErrorMessage typeErrorMessage generateContent prompt = Ok v ->
  numberedReport v.
Proof.
  unfold strategyReportBody, throwTypeError.
  destruct (generateContent prompt) as [answer | t]; cbn [bind]; [| discriminate].
  destruct (answerText typeErrorMessage answer) as [text |]; cbn [bind]; [| discriminate].
  destruct (JSON_parse syntaxErrorMessage (trim text)) as [parsed |]; cbn [bind];
    [| discriminate].
  destruct parsed as [| | | | | members]; try discriminate.
  destruct (assocGet (str "suggestions") members) as [[| | | | items |] |]; try discriminate.
  cbv zeta. cbn [getProp].
  rewrite assocGet_assocSet_same. cbn [isArray orb].
  rewrite assocGet_assocSet_other by reflexivity.
  rewrite orb_false_r.
  destruct (truthyOpt (assocGet (str "analysis") members)) eqn:Ha; cbn [negb];
    [| discriminate].
  intros H. injection H as <-.
  exists (assocSet (str "suggestions") (JArray (mapIndexed withId 0 items)) members),
         (mapIndexed withId 0 items).
  split; [reflexivity |]. split.
  - rewrite assocGet_assocSet_other by reflexivity. exact Ha.
  - split; [apply assocGet_assocSet_same |].
    intros k item Hk. apply mapIndexed_nth_inv in Hk. destruct Hk as (x & _ & ->).
    rewrite Z.add_0_l. apply withId_id.
Qed.

(** X15. Whenever [generateBlogStrategy] or [generateSerpStrategy] returns,
    the report is an object with a truthy [analysis] and an array of
    [suggestions], and the suggestion at 0-based index k carries the id
    k + 1, whatever id the model gave it. *)
Theorem strategy_reports_are_numbered
        (blogStrategyPrompt : jsstring -> list BlogPostData -> jsstring)
        (serpStrategyPrompt : jsstring -> GoogleSerpData -> jsstring)
        (word : jsstring) :
  (forall posts v,
      generateBlogStrategy syntaxErrorMessage typeErrorMessage newGoogleGenAI
                           generateContent blogStrategyPrompt word posts = Ok v ->
      numberedReport v)
  /\ (forall serpData v,
         generateSerpStrategy syntaxErrorMessage typeErrorMessage newGoogleGenAI
                              generateContent serpStrategyPrompt word serpData = Ok v ->
         numberedReport v).
Proof.
  split.
  - intros posts v. unfold generateBlogStrategy.
    destruct (trim word) as [| c w]; [discriminate |].
    destruct posts as [| post posts]; [discriminate |].
    destruct newGoogleGenAI as [[] | t]; cbn [bind]; [| discriminate].
    intros H. apply classifyFailure_Ok in H. exact (strategyReportBody_numbered _ _ H).
  - intros serpData v. unfold generateSerpStrategy.
    destruct (trim word) as [| c w]; [discriminate |].
    destruct serpData as [data |]; [| discriminate].
    destruct newGoogleGenAI as [[] | t]; cbn [bind]; [| discriminate].
    intros H. apply classifyFailure_Ok in H. exact (strategyReportBody_numbered _ _ H).
Qed.

Lemma cleanString_cleaned (v : option json) (raw : jsstring) :
  v = Some (JString raw) ->
  exists s, cleanString v = JString s /\ cleanedFrom raw s.
Proof.
  intros ->. exists (trim (removeCitations raw)).
  split; [reflexivity | apply cleanedFrom_intro].
Qed.

(** An answer that passes the validation holds an [analysis] whose six
    fields are strings. *)
Lemma competitionInvalid_false (answer : json) :
  competitionInvalid typeErrorMessage answer = Ok false ->
  exists rawAnalysis,
    getProp answer (str "analysis") = Some rawAnalysis
    /\ forall k, In k analysisKeys ->
                 exists raw, getProp rawAnalysis k = Some (JString raw).
Proof.
  intros H.
  assert (Hgen :
    (if negb (isNumber (getProp answer (str "opportunityScore")))
        || negb (isNumber (getProp answer (str "searchVolumeEstimate")))
        || negb (isNumber (getProp answer (str "competitionScore")))
        || negb (isString (getProp answer (str "competitionLevel")))
        || negb (isNumber (getProp answer (str "documentCount")))
     then Ok true
     else
       match getProp answer (str "analysis") with
       | Some JNull => throwTypeError typeErrorMessage (str "title")
       | Some analysis =>
         if negb (isObjectLike analysis)
            || existsb (fun k => negb (isString (getProp analysis k))) analysisKeys
         then Ok true
         else
           match getProp answer (str "strategy") with
           | Some strategy =>
             if truthy strategy
             then Ok (match isArray (getProp strategy (str "expandedKeywords")),
                            isArray (getProp strategy (str "blogTopics")) with
                      | Some _, Some _ => false
                      | _, _ => true
                      end)
             else Ok false
           | None => Ok false
           end
       | None => Ok true
       end) = Ok false).
  { destruct answer; try exact H. discriminate H. }
  clear H.
  destruct (negb (isNumber (getProp answer (str "opportunityScore"))) || _ || _ || _ || _);
    [discriminate Hgen |].
  destruct (getProp answer (str "analysis")) as [rawAnalysis |]; [| discriminate Hgen].
  exists rawAnalysis. split; [reflexivity |].
  assert (Hfields : existsb (fun k => negb (isString (getProp rawAnalysis k))) analysisKeys
                    = false).
  { destruct rawAnalysis; try discriminate Hgen;
      match type of Hgen with
      | (if negb ?o || ?e then _ else _) = _ =>
        destruct o; cbn [negb orb] in Hgen; [| discriminate Hgen];
        destruct e; [discriminate Hgen | reflexivity]
      end. }
  intros k Hk.
  assert (Hs : negb (isString (getProp rawAnalysis k)) = false).
  { destruct (negb (isString (getProp rawAnalysis k))) eqn:E; [| reflexivity].
    rewrite <- Hfields. symmetry. apply existsb_exists. exists k. split; assumption. }
  destruct (getProp rawAnalysis k) as [[| b | n | raw | l | m] |]; try discriminate Hs.
  exists raw. reflexivity.
Qed.

(** X16. Whenever [analyzeKeywordCompetition] returns, the report is an
    object whose [analysis] holds exactly the six text fields, each the
    string the model's analysis holds under the same key after one pass
    deleting the citation markers and trimmed, whose [keywordLength] is the
    length of the keyword and whose [wordCount] is its number of words, a
    number between 1 and that length; these three are set after the model's
    fields are copied, so the model cannot overwrite them. *)
Theorem competition_report_fields (competitionPrompt : jsstring -> jsstring)
        (word : jsstring) (report : json) :
  analyzeKeywordCompetition syntaxErrorMessage typeErrorMessage newGoogleGenAI
                            generateContent competitionPrompt word = Ok report ->
  exists members analysis,
    report = JObject members
    /\ assocGet (str "analysis") members = Some (JObject analysis)
    /\ (exists text answer rawAnalysis,
           generateContent (competitionPrompt word) = Ok (Some text)
           /\ extractJsonFromText syntaxErrorMessage text = Ok answer
           /\ getProp answer (str "analysis") = Some rawAnalysis
           /\ cleanedAnalysis rawAnalysis analysis)
    /\ assocGet (str "keywordLength") members
       = Some (JNumber (numberOfZ (Z.of_nat (length word))))
    /\ assocGet (str "wordCount") members = Some (JNumber (numberOfZ (wordCount word)))
    /\ 1 <= wordCount word <= Z.of_nat (length word).
Proof.
  unfold analyzeKeywordCompetition.
  destruct (trim word) as [| c w] eqn:Htrim; [discriminate |].
  assert (Hword : trim word <> []) by (rewrite Htrim; discriminate).
  destruct newGoogleGenAI as [[] | t]; cbn [bind]; [| discriminate].
  intros H. apply classifyFailure_Ok in H. unfold analyzeKeywordCompetitionBody in H.
  destruct (generateContent (competitionPrompt word)) as [answer | t];
    cbn [bind] in H; [| discriminate H].
  destruct (answerText typeErrorMessage answer) as [text |] eqn:Htext;
    cbn [bind] in H; [| discriminate H].
  apply answerText_Ok in Htext. subst answer.
  destruct (extractJsonFromText syntaxErrorMessage text) as [jsonResponse |] eqn:Hext;
    cbn [bind] in H; [| discriminate H].
  destruct (competitionInvalid typeErrorMessage jsonResponse) as [[|] |] eqn:Hvalid;
    cbn [bind] in H; try discriminate H.
  destruct (competitionInvalid_false jsonResponse Hvalid) as (rawAnalysis & Hraw & Hfields).
  rewrite Hraw in H. cbv zeta in H. injection H as <-.
  eexists _, _. split; [reflexivity |].
  split.
  { rewrite assocGet_assocSet_other by reflexivity.
    rewrite assocGet_assocSet_other by reflexivity.
    apply assocGet_assocSet_same. }
  split.
  { exists text, jsonResponse, rawAnalysis.
    split; [reflexivity |]. split; [exact Hext |]. split; [exact Hraw |].
    split; [reflexivity |].
    assert (Hall : Forall (fun kv => exists raw s,
                               getProp rawAnalysis (fst kv) = Some (JString raw)
                               /\ snd kv = JString s /\ cleanedFrom raw s)
                          (map (fun k => (k, cleanString (getProp rawAnalysis k)))
                               analysisKeys)).
    { apply Forall_forall. intros kv Hkv. apply in_map_iff in Hkv.
      destruct Hkv as (k & <- & Hk). cbn [fst snd].
      destruct (Hfields k Hk) as (raw & Hk').
      destruct (cleanString_cleaned _ raw Hk') as (s & Hs & Hclean).
      exists raw, s. split; [exact Hk' |]. split; [exact Hs | exact Hclean]. }
    exact Hall. }
  split.
  { rewrite assocGet_assocSet_other by reflexivity. apply assocGet_assocSet_same. }
  split; [apply assocGet_assocSet_same | exact (wordCount_bounds word Hword)].
Qed.

End StrategyFacts.

(** ** The kind of the extracted value *)

Lemma bottomIs_cons (array : bool) (s : slot) (stack : list slot) (own : bool) :
  slotKind s = own -> restsOn array own stack -> bottomIs array (s :: stack).
Proof.
  intros Hs [[-> <-] | H].
  - exact Hs.
  - destruct stack as [| x t]; [destruct H | exact H].
Qed.

Lemma plug_kind (array own : bool) (v : json) (stack : list slot) :
  valueKind own v -> restsOn array own stack -> parsingKind array (plug v stack).
Proof.
  intros Hv [[-> <-] | H]; [exact Hv |].
  destruct stack as [| s t]; [destruct H |].
  assert (Ht : forall k, slotKind s = k -> restsOn array k t).
  { intros k Hk. destruct t as [| x t'].
    - left. split; [reflexivity |]. cbn in H. congruence.
    - right. exact H. }
  destruct s as [done | done key]; cbn [plug parsingKind]; apply Ht; reflexivity.
Qed.

Lemma plug_inner (array : bool) (v : json) (stack : list slot) :
  bottomIs array stack -> parsingKind array (plug v stack).
Proof.
  intros H. destruct stack as [| s t]; [destruct H |].
  assert (Ht : forall k, slotKind s = k -> restsOn array k t).
  { intros k Hk. destruct t as [| x t'].
    - left. split; [reflexivity |]. cbn in H. congruence.
    - right. exact H. }
  destruct s as [done | done key]; cbn [plug parsingKind]; apply Ht; reflexivity.
Qed.

Lemma startValue_kind (array : bool) (tok : token) (stack : list slot) (st : pstate) :
  bottomIs array stack -> startValue tok stack = Some st -> parsingKind array st.
Proof.
  intros H. destruct tok; cbn [startValue]; try discriminate.
  - intros E. injection E as <-. right. exact H.
  - intros E. injection E as <-. right. exact H.
  - intros E. injection E as <-. apply plug_inner, H.
  - destruct (wordValue w); cbn [option_map]; [| discriminate].
    intros E. injection E as <-. apply plug_inner, H.
Qed.

Lemma pstep_kind (array : bool) (st st' : pstate) (tok : token) :
  parsingKind array st -> pstep st tok = Some st' -> parsingKind array st'.
Proof.
  destruct st as [stack | stack | stack | done stack | done key stack | done stack
                  | done stack | v]; cbn [parsingKind pstep]; intros H.
  - apply startValue_kind, H.
  - assert (Hin : bottomIs array (InArray [] :: stack))
      by (apply (bottomIs_cons array _ stack true); [reflexivity | exact H]).
    destruct tok; try exact (startValue_kind array _ _ st' Hin).
    intros E. injection E as <-.
    apply (plug_kind array true); [exists []; reflexivity | exact H].
  - destruct tok; try discriminate.
    + intros E. injection E as <-.
      apply (plug_kind array false); [exists []; reflexivity | exact H].
    + intros E. injection E as <-. exact H.
  - destruct tok; try discriminate. intros E. injection E as <-. exact H.
  - destruct tok; try discriminate. intros E. injection E as <-.
    cbn [parsingKind]. apply (bottomIs_cons array _ stack false); [reflexivity | exact H].
  - destruct tok; try discriminate.
    + intros E. injection E as <-.
      apply (plug_kind array true); [eexists; reflexivity | exact H].
    + intros E. injection E as <-.
      cbn [parsingKind]. apply (bottomIs_cons array _ stack true); [reflexivity | exact H].
  - destruct tok; try discriminate.
    + intros E. injection E as <-.
      apply (plug_kind array false); [eexists; reflexivity | exact H].
    + intros E. injection E as <-. exact H.
  - discriminate.
Qed.

Lemma prun_kind (array : bool) (toks : list token) :
  forall st v, parsingKind array st -> prun st toks = Some v -> valueKind array v.
Proof.
  induction toks as [| tok rest IH]; intros st v H; cbn [prun].
  - destruct st; try discriminate. intros E. injection E as <-. exact H.
  - destruct (pstep st tok) as [st' |] eqn:Hstep; [| discriminate].
    apply IH. exact (pstep_kind array st st' tok H Hstep).
Qed.

(** A text that starts with a bracket parses, if at all, to an array; one
    that starts with a brace, to an object. *)
Lemma parseJsonText_kind (opener : N) (tail : jsstring) (v : json) :
  isOpener opener = true ->
  parseJsonText (opener :: tail) = Some v ->
  valueKind (opener =? ch "[")%N v.
Proof.
  intros Hop. unfold parseJsonText. cbn [lex].
  apply orb_prop in Hop.
  destruct Hop as [Hop | Hop]; apply N.eqb_eq in Hop; subst opener.
  - change (lexIdle (ch "[")) with (Some ([TLBracket], LexIdle)). cbv beta iota.
    destruct (lex LexIdle tail) as [toks |]; cbn [option_map app]; [| discriminate].
    cbn [prun pstep startValue]. apply prun_kind. left. split; reflexivity.
  - change (lexIdle (ch "{")) with (Some ([TLBrace], LexIdle)). cbv beta iota.
    destruct (lex LexIdle tail) as [toks |]; cbn [option_map app]; [| discriminate].
    cbn [prun pstep startValue]. apply prun_kind. left. split; reflexivity.
Qed.

(** X17. When the depth scan closes and the extractor returns a value, the
    value is of the kind the first bracket of the search text announces: an
    array after an opening bracket, an object after an opening brace. *)
Theorem extracted_value_matches_opener (syntaxErrorMessage : jsstring -> jsstring)
        (text : jsstring) (v : json) :
  let jsonString := searchText text in
  let startIndex := startIndexOf jsonString in
  startIndex <> -1 ->
  scanEnd jsonString startIndex <> -1 ->
  extractJsonFromText syntaxErrorMessage text = Ok v ->
  exists opener,
    nth_error jsonString (Z.to_nat startIndex) = Some opener
    /\ valueKind (opener =? ch "[")%N v.
Proof.
  intros jsonString startIndex Hstart Hend Hext.
  destruct (closed_scan_slice text Hstart Hend)
    as (Hrange & Hlen & (opener & Hop & Hnth & _) & Hpot).
  fold jsonString in Hrange, Hlen, Hnth, Hpot. fold startIndex in Hrange, Hlen, Hnth, Hpot.
  exists opener. split; [exact Hnth |].
  unfold extractJsonFromText in Hext. rewrite Hpot in Hext. cbn [bind] in Hext.
  unfold JSON_parse, sliceInclusive in Hext.
  rewrite (skipn_nth_error _ _ _ Hnth) in Hext.
  replace (Z.to_nat (scanEnd jsonString startIndex + 1 - startIndex))
    with (S (Z.to_nat (scanEnd jsonString startIndex - startIndex))) in Hext by lia.
  cbn [firstn] in Hext.
  destruct (parseJsonText (opener :: _)) as [v' |] eqn:Hparse; [| discriminate Hext].
  injection Hext as <-. exact (parseJsonText_kind opener _ v' Hop Hparse).
Qed.

(** ** The Google path and empty answers *)

Lemma collect_nothing (results : list (list jsstring)) :
  (forall v, In v results -> v = []) -> concat results = [].
Proof.
  induction results as [| r rest IH]; intros H; [reflexivity |].
  cbn [concat]. rewrite (H r (or_introl eq_refl)), IH; [reflexivity |].
  intros v Hv. apply H. right. exact Hv.
Qed.

Section KeywordPaths.

Variable syntaxErrorMessage : jsstring -> jsstring.
Variable encodeURIComponent : jsstring -> jsstring.
Variable numberToString : jsnumber -> jsstring.
Variable net : nat -> nat -> jsstring -> Flight.

(** X18. On the Google path the keywords are the first 20 members of the
    second element of the parsed answer, in order and as they are: no tag
    is removed, no duplicate is dropped and a member need not be a
    string. *)
Theorem google_suggestions_pass_through (word : jsstring)
        (result : list (KeywordData json)) :
  fetchRelatedKeywords syntaxErrorMessage encodeURIComponent numberToString net word google
  = Ok result ->
  exists first suggestions rest,
    fetchWithProxies syntaxErrorMessage encodeURIComponent net
                     (googleUrl encodeURIComponent word)
                     (JSON_parse_value syntaxErrorMessage numberToString)
    = Ok (JArray (first :: JArray suggestions :: rest))
    /\ map keyword result = firstn 20 suggestions.
Proof.
  unfold fetchRelatedKeywords. destruct (trim word) as [| c w]; [discriminate |].
  unfold fetchSingleTermKeywords.
  destruct (fetchWithProxies _ _ _ _ _) as [data | t]; cbn [bind]; [| discriminate].
  unfold googleParser.
  destruct data as [| b | n | s | [| first [| [| b | n | s | suggestions | ms] rest]] | ms];
    cbn [bind]; try discriminate.
  cbv zeta. intros H.
  exists first, suggestions, rest. split; [reflexivity |].
  change (@Ok (list (KeywordData json)) (numberFrom 0 (firstn 20 suggestions)) = Ok result)
    in H.
  assert (E : result = numberFrom 0 (firstn 20 suggestions)) by congruence.
  rewrite E. apply numberFrom_keywords.
Qed.

(** X19. On the Naver path an answer without suggestions is no failure:
    when at least one sub-fetch is fulfilled and every fulfilled one is
    empty, the function returns the empty list instead of throwing. *)
Theorem naver_empty_answers_give_empty_list (word : jsstring) :
  trim word <> [] ->
  (exists v, In (Ok v)
                (naverSettlements syntaxErrorMessage encodeURIComponent numberToString net
                                  word)) ->
  (forall v, In (Ok v)
                (naverSettlements syntaxErrorMessage encodeURIComponent numberToString net
                                  word) -> v = []) ->
  fetchRelatedKeywords syntaxErrorMessage encodeURIComponent numberToString net word naver
  = Ok [].
Proof.
  intros Hword [v Hv] Hempty.
  unfold fetchRelatedKeywords. destruct (trim word) as [| c w]; [contradiction |].
  generalize dependent (naverSettlements syntaxErrorMessage encodeURIComponent
                                         numberToString net word).
  intros settlements Hv Hempty. unfold naverAggregate.
  destruct (fulfilled settlements) as [| r rs] eqn:Hful.
  - apply fulfilled_In in Hv. rewrite Hful in Hv. destruct Hv.
  - rewrite <- Hful. rewrite collect_concat, collect_nothing; [reflexivity |].
    intros x Hx. apply Hempty, fulfilled_In, Hx.
Qed.

End KeywordPaths.

(** ** The weather report and the free prompt *)

Section PromptFacts.

Variable syntaxErrorMessage : jsstring -> jsstring.
Variable typeErrorMessage : jsstring -> jsstring.
Variable newGoogleGenAI : Result unit.
Variable generateContent : jsstring -> Result (option jsstring).
Variable numberToString : jsnumber -> jsstring.

(** X20. [fetchCurrentWeather] returns the extracted value itself, and only
    when its four fields are all truthy; once the client exists, every
    failure is reported as an [Error] whose message starts with the
    weather prefix: the malformed-answer failures of the extractor are not
    told apart from the others here. *)
Theorem weather_report_or_prefixed_error (weatherPrompt : jsstring) :
  newGoogleGenAI = Ok tt ->
  match fetchCurrentWeather syntaxErrorMessage typeErrorMessage newGoogleGenAI
                            generateContent weatherPrompt with
  | Ok v =>
    exists text,
      generateContent weatherPrompt = Ok (Some text)
      /\ extractJsonFromText syntaxErrorMessage text = Ok v
      /\ Forall (fun k => truthyOpt (getProp v k) = true) weatherKeys
  | Throw t =>
    exists rest, t = ThrownError (newError (msgWeatherFailed ++ rest))
  end.
Proof.
  intros Hai. unfold fetchCurrentWeather. rewrite Hai. cbn [bind].
  unfold fetchCurrentWeatherBody.
  destruct (generateContent weatherPrompt) as [[text |] | [e | x]]; cbn [bind answerText];
    try (eexists; reflexivity).
  destruct (extractJsonFromText syntaxErrorMessage text) as [v | [e | x]] eqn:Hext;
    cbn [bind]; try (eexists; reflexivity).
  destruct v as [| b | n | s | items | ms]; try (eexists; reflexivity).
  destruct (truthyOpt (getProp (JObject ms) (str "temperature"))) eqn:H1;
    [| eexists; reflexivity].
  destruct (truthyOpt (getProp (JObject ms) (str "condition"))) eqn:H2;
    [| eexists; reflexivity].
  destruct (truthyOpt (getProp (JObject ms) (str "wind"))) eqn:H3;
    [| eexists; reflexivity].
  destruct (truthyOpt (getProp (JObject ms) (str "humidity"))) eqn:H4;
    [| eexists; reflexivity].
  cbn [andb]. exists text. split; [reflexivity |]. split; [exact Hext |].
  unfold weatherKeys. repeat (apply Forall_cons; [assumption |]). apply Forall_nil.
Qed.

(** A temperature written as a number that underflows to zero is falsy, and
    the answer is refused; the least positive binary64 value is accepted. *)
Example weather_underflowing_temperature_refused :
  fetchCurrentWeather v8SyntaxMessage v8TypeMessage (Ok tt)
                      (modelSays underflowingWeatherAnswer) []
  = throwError (msgWeatherFailed ++ str ": " ++ msgNotWeather)
  /\ exists v,
      fetchCurrentWeather v8SyntaxMessage v8TypeMessage (Ok tt)
                          (modelSays leastWeatherAnswer) [] = Ok v.
Proof.
  split; [vm_compute; reflexivity |].
  eexists. vm_compute. reflexivity.
Qed.

Lemma wordCount_at_most (word : jsstring) :
  0 <= wordCount word <= Z.of_nat (length word).
Proof.
  unfold wordCount.
  pose proof (splitOnSpace_at_most word [] false) as Hmax. cbn [nonEmpty] in Hmax.
  lia.
Qed.

(** X21. Whenever [executePromptAsCompetitionAnalysis] returns, the report
    holds exactly nine fields; its [keyword] and the six fields of its
    [analysis] are strings, whatever the model gave there; [keywordLength]
    and [wordCount] are those of the returned keyword, which may count no
    word at all; and each of the five measures is the model's value when
    that is truthy and the default otherwise. *)
Theorem prompt_report_fields (wrapperPrompt : jsstring -> jsstring)
        (prompt : jsstring) (report : json) :
  executePromptAsCompetitionAnalysis syntaxErrorMessage typeErrorMessage newGoogleGenAI
                                     generateContent wrapperPrompt numberToString prompt
  = Ok report ->
  exists text answer kw analysis members,
    generateContent (wrapperPrompt prompt) = Ok (Some text)
    /\ extractJsonFromText syntaxErrorMessage text = Ok answer
    /\ report = JObject members
    /\ map fst members = promptReportKeys
    /\ assocGet (str "keyword") members = Some (JString kw)
    /\ assocGet (str "analysis") members = Some (JObject analysis)
    /\ map fst analysis = analysisKeys
    /\ Forall (fun kv => isString (Some (snd kv)) = true) analysis
    /\ assocGet (str "keywordLength") members
       = Some (JNumber (numberOfZ (Z.of_nat (length kw))))
    /\ assocGet (str "wordCount") members = Some (JNumber (numberOfZ (wordCount kw)))
    /\ 0 <= wordCount kw <= Z.of_nat (length kw)
    /\ Forall (fun kd => assocGet (fst kd) members
                         = Some (valueOr (getProp answer (fst kd)) (snd kd)))
              promptDefaults.
Proof.
  unfold executePromptAsCompetitionAnalysis.
  destruct (trim prompt) as [| c w]; [discriminate |].
  destruct newGoogleGenAI as [[] | t]; cbn [bind]; [| discriminate].
  intros H. apply classifyFailure_Ok in H.
  unfold executePromptAsCompetitionAnalysisBody in H.
  destruct (generateContent (wrapperPrompt prompt)) as [[text |] | t];
    cbn [bind answerText] in H; try discriminate H.
  destruct (extractJsonFromText syntaxErrorMessage text) as [answer | t] eqn:Hext;
    cbn [bind] in H; [| discriminate H].
  assert (Hbody :
    (if negb (truthyOpt (getProp answer (str "keyword")))
        || negb (truthyOpt (getProp answer (str "analysis")))
     then throwError msgInvalidAnswer
     else
       let analysis := match getProp answer (str "analysis") with
                       | Some a => a
                       | None => JNull
                       end in
       if negb (truthyOpt (getProp analysis (str "conclusion")))
       then throwError msgInvalidAnswer
       else
         let safeKeyword := stringOr numberToString (getProp answer (str "keyword")) in
         let cleanAnalysis :=
           JObject (map (fun k => (k, JString (stringOr numberToString (getProp analysis k))))
                        analysisKeys) in
         let keywordLength := Z.of_nat (length safeKeyword) in
         Ok (JObject
               [ (str "keyword", JString safeKeyword);
                 (str "opportunityScore",
                  valueOr (getProp answer (str "opportunityScore")) (JInt 0));
                 (str "searchVolumeEstimate",
                  valueOr (getProp answer (str "searchVolumeEstimate")) (JInt 0));
                 (str "competitionScore",
                  valueOr (getProp answer (str "competitionScore")) (JInt 0));
                 (str "competitionLevel",
                  valueOr (getProp answer (str "competitionLevel")) (JString (str "N/A")));
                 (str "documentCount",
                  valueOr (getProp answer (str "documentCount")) (JInt 0));
                 (str "analysis", cleanAnalysis);
                 (str "keywordLength", JNumber (numberOfZ keywordLength));
                 (str "wordCount", JNumber (numberOfZ (wordCount safeKeyword))) ]))
    = Ok report).
  { destruct answer; try exact H. discriminate H. }
  clear H.
  destruct (negb (truthyOpt (getProp answer (str "keyword")))
            || negb (truthyOpt (getProp answer (str "analysis")))); [discriminate Hbody |].
  cbv zeta in Hbody.
  destruct (negb (truthyOpt (getProp _ (str "conclusion")))); [discriminate Hbody |].
  injection Hbody as <-.
  eexists text, answer, _, _, _.
  split; [reflexivity |]. split; [exact Hext |]. split; [reflexivity |].
  split; [reflexivity |]. split; [reflexivity |]. split; [reflexivity |].
  split; [reflexivity |].
  split.
  { repeat (apply Forall_cons; [reflexivity |]). apply Forall_nil. }
  split; [reflexivity |]. split; [reflexivity |].
  split; [apply wordCount_at_most |].
  unfold promptDefaults. repeat (apply Forall_cons; [reflexivity |]). apply Forall_nil.
Qed.

End PromptFacts.

(** ** The further properties on concrete worlds *)

Lemma extract_without_opener_throws_witness :
  (forall c, In c (str "n/a") -> isOpener c = false)
  /\ extractJsonFromText v8SyntaxMessage (str "n/a") = throwError msgNoJson.
Proof.
  assert (H : forall c, In c (str "n/a") -> isOpener c = false).
  { intros c Hc. vm_compute in Hc.
    repeat (destruct Hc as [<- | Hc]; [reflexivity |]). destruct Hc. }
  split; [exact H | exact (extract_without_opener_throws v8SyntaxMessage (str "n/a") H)].
Defined.

Lemma closed_scan_delimits_slice_witness :
  startIndexOf (searchText fencedExample) <> -1
  /\ scanEnd (searchText fencedExample) (startIndexOf (searchText fencedExample)) <> -1
  /\ potentialJson fencedExample
     = Ok (sliceInclusive (searchText fencedExample)
                          (startIndexOf (searchText fencedExample))
                          (scanEnd (searchText fencedExample)
                                   (startIndexOf (searchText fencedExample)))).
Proof.
  assert (H1 : startIndexOf (searchText fencedExample) <> -1) by (vm_compute; discriminate).
  assert (H2 : scanEnd (searchText fencedExample) (startIndexOf (searchText fencedExample))
               <> -1) by (vm_compute; discriminate).
  split; [exact H1 |]. split; [exact H2 |].
  exact (proj2 (proj2 (proj2 (closed_scan_delimits_slice fencedExample H1 H2)))).
Defined.

Lemma extracted_value_matches_opener_witness :
  exists v,
    extractJsonFromText v8SyntaxMessage (quoted "see [1, {'a': 2}] above") = Ok v
    /\ exists opener,
        nth_error (searchText (quoted "see [1, {'a': 2}] above"))
                  (Z.to_nat (startIndexOf (searchText (quoted "see [1, {'a': 2}] above"))))
        = Some opener
        /\ valueKind (opener =? ch "[")%N v.
Proof.
  destruct (extractJsonFromText v8SyntaxMessage (quoted "see [1, {'a': 2}] above"))
    as [v | t] eqn:H; [| vm_compute in H; discriminate H].
  exists v. split; [reflexivity |].
  exact (extracted_value_matches_opener
           v8SyntaxMessage (quoted "see [1, {'a': 2}] above") v
           ltac:(vm_compute; discriminate) ltac:(vm_compute; discriminate) H).
Defined.

Lemma fetchWithProxies_failure_is_classified_witness :
  fst (fetchWithProxiesOver (always unreachable) (str "https://example.org/")
                            (fun v : json => Ok v) [textRelay])
  = Throw (ThrownError (newError msgConnectivity))
  /\ exists e, ThrownError (newError msgConnectivity) = ThrownError (finalError (Some e)).
Proof.
  assert (H : fst (fetchWithProxiesOver (always unreachable) (str "https://example.org/")
                                        (fun v : json => Ok v) [textRelay])
              = Throw (ThrownError (newError msgConnectivity))) by (vm_compute; reflexivity).
  split; [exact H |].
  destruct (fetchWithProxies_failure_is_classified
              (always unreachable) (str "https://example.org/") (fun v : json => Ok v)
              textRelay [] _ H) as (e & He & _).
  exists e. exact He.
Defined.

Lemma fetchWithProxies_result_is_interpreted_payload_witness :
  fst (fetchWithProxiesOver firstRefused (str "https://example.org/") (fun v : json => Ok v)
                            [textRelay; textRelay])
  = Ok (JString (str "ok"))
  /\ exists s p a pre,
      snd (fetchWithProxiesOver firstRefused (str "https://example.org/")
                                (fun v : json => Ok v) [textRelay; textRelay])
      = pre ++ [EvFetch s a (buildUrl p (str "https://example.org/"))].
Proof.
  assert (H : fst (fetchWithProxiesOver firstRefused (str "https://example.org/")
                                        (fun v : json => Ok v) [textRelay; textRelay])
              = Ok (JString (str "ok"))) by (vm_compute; reflexivity).
  split; [exact H |].
  destruct (fetchWithProxies_result_is_interpreted_payload
              firstRefused (str "https://example.org/") (fun v : json => Ok v)
              [textRelay; textRelay] _ H)
    as (s & p & a & pre & response & payload & _ & Hlog & _).
  exists s, p, a, pre. exact Hlog.
Defined.

Lemma fetchWithProxies_requests_in_order_witness :
  snd (fetchWithProxiesOver (always unreachable) (str "u") (fun v : json => Ok v)
                            [textRelay; textRelay])
  = [EvFetch 0 1 (str "u"); EvDelay RETRY_DELAY_MS]
      ++ EvFetch 0 2 (str "u")
      :: [] ++ EvFetch 1 1 (str "u") :: [EvDelay RETRY_DELAY_MS; EvFetch 1 2 (str "u")]
  /\ ((0 < 1)%nat \/ (0%nat = 1%nat /\ (2 < 1)%nat)).
Proof.
  assert (H : snd (fetchWithProxiesOver (always unreachable) (str "u") (fun v : json => Ok v)
                                        [textRelay; textRelay])
              = [EvFetch 0 1 (str "u"); EvDelay RETRY_DELAY_MS]
                  ++ EvFetch 0 2 (str "u")
                  :: [] ++ EvFetch 1 1 (str "u")
                  :: [EvDelay RETRY_DELAY_MS; EvFetch 1 2 (str "u")])
    by (vm_compute; reflexivity).
  split; [exact H |].
  exact (fetchWithProxies_requests_in_order
           (always unreachable) (str "u") (fun v : json => Ok v) [textRelay; textRelay]
           _ _ _ _ _ _ _ _ _ H).
Defined.

Lemma cleanText_only_trims_witness :
  hasMarker (str " plain text ") = false
  /\ cleanText v8TypeMessage (Some (JString (str " plain text "))) = Ok (str "plain text").
Proof.
  split; [reflexivity |].
  exact (cleanText_only_trims v8TypeMessage (str " plain text ") eq_refl).
Defined.

Lemma naver_keeps_every_suggestion_below_cap_witness :
  exists result,
    fetchRelatedKeywords v8SyntaxMessage rawUrl plainNumber onlyBareTerm (str "seo") naver
    = Ok result
    /\ (length result < 20)%nat
    /\ In (stripTags (str "seo <i>tools")) (map keyword result).
Proof.
  destruct (fetchRelatedKeywords v8SyntaxMessage rawUrl plainNumber onlyBareTerm
                                 (str "seo") naver) as [result | t] eqn:H;
    [| vm_compute in H; discriminate H].
  assert (Hlen : (length result < 20)%nat).
  { vm_compute in H. injection H as <-. cbn. lia. }
  exists result. split; [reflexivity |]. split; [exact Hlen |].
  refine (naver_keeps_every_suggestion_below_cap
            v8SyntaxMessage rawUrl plainNumber onlyBareTerm (str "seo") result H Hlen
            [str "<b>seo</b> tips"; str "seo tips"; str "seo <i>tools"]
            (str "seo <i>tools") _ _).
  - vm_compute. left. reflexivity.
  - right. right. left. reflexivity.
Defined.


Lemma recommended_keywords_keep_positions_witness :
  exists result,
    fetchRecommendedKeywords v8SyntaxMessage v8TypeMessage (Ok tt)
                             (modelSays recommendedAnswer) [] = Ok result
    /\ map rk_id result = [1; 4].
Proof.
  destruct (fetchRecommendedKeywords v8SyntaxMessage v8TypeMessage (Ok tt)
                                     (modelSays recommendedAnswer) [])
    as [result | t] eqn:H; [| vm_compute in H; discriminate H].
  exists result. split; [reflexivity |].
  destruct (recommended_keywords_keep_positions
              v8SyntaxMessage v8TypeMessage (Ok tt) (modelSays recommendedAnswer) [] result H)
    as (text & items & Htext & Hext & Hids & _).
  assert (Ht : text = recommendedAnswer) by (unfold modelSays in Htext; congruence).
  subst text.
  assert (E : extractJsonFromText v8SyntaxMessage recommendedAnswer
              = Ok (JArray [JObject [(str "keyword", JString (str "tax credit [1]"));
                                     (str "reason", JString (str " new today "))];
                            JInt 5; JNull;
                            JObject [(str "title", JString (str "guide[2, 3]"))]]))
    by (vm_compute; reflexivity).
  rewrite E in Hext. injection Hext as <-. exact Hids.
Defined.

Lemma recommended_keywords_failure_report_witness :
  (forall p, includes (str "JSON") (v8SyntaxMessage p) = true)
  /\ fetchRecommendedKeywords v8SyntaxMessage v8TypeMessage (Ok tt)
                              (modelSays (str "no data today")) []
     = throwError msgAbnormalRetry.
Proof.
  assert (Hw : forall p, includes (str "JSON") (v8SyntaxMessage p) = true)
    by (intros p; reflexivity).
  split; [exact Hw |].
  refine (proj1 (recommended_keywords_failure_report
                   v8SyntaxMessage v8TypeMessage (Ok tt) (modelSays (str "no data today"))
                   [] (str "no data today") eq_refl eq_refl Hw) _).
  eexists. vm_compute. reflexivity.
Defined.

Lemma topics_are_numbered_witness :
  exists topics,
    callGenerativeModelForTopics v8SyntaxMessage v8TypeMessage (Ok tt)
                                 (modelSays topicsAnswer) [] = Ok topics
    /\ exists items : list json, map gt_id topics = map Z.of_nat (seq 1 (length items)).
Proof.
  destruct (callGenerativeModelForTopics v8SyntaxMessage v8TypeMessage (Ok tt)
                                         (modelSays topicsAnswer) [])
    as [topics | t] eqn:H; [| vm_compute in H; discriminate H].
  exists topics. split; [reflexivity |].
  destruct (topics_are_numbered v8SyntaxMessage v8TypeMessage (Ok tt)
                                (modelSays topicsAnswer) [] topics H)
    as (text & items & _ & _ & Hids & _).
  exists items. exact Hids.
Defined.

Lemma sustainable_topics_are_valid_witness :
  exists v,
    generateSustainableTopics v8SyntaxMessage v8TypeMessage (Ok tt)
                              (modelSays sustainableAnswer) noPrompt (str "snow") = Ok v
    /\ exists items, v = JArray items /\ Forall validCategory items.
Proof.
  destruct (generateSustainableTopics v8SyntaxMessage v8TypeMessage (Ok tt)
                                      (modelSays sustainableAnswer) noPrompt (str "snow"))
    as [v | t] eqn:H; [| vm_compute in H; discriminate H].
  exists v. split; [reflexivity |].
  exact (sustainable_topics_are_valid v8SyntaxMessage v8TypeMessage (Ok tt)
                                      (modelSays sustainableAnswer) noPrompt (str "snow") v H).
Defined.

Lemma strategy_reports_are_numbered_witness :
  exists v,
    generateBlogStrategy v8SyntaxMessage v8TypeMessage (Ok tt) (modelSays strategyAnswer)
                         (fun _ _ => []) (str "seo") [mkBlogPostData 1 (str "post") []]
    = Ok v
    /\ numberedReport v.
Proof.
  destruct (generateBlogStrategy v8SyntaxMessage v8TypeMessage (Ok tt)
                                 (modelSays strategyAnswer) (fun _ _ => []) (str "seo")
                                 [mkBlogPostData 1 (str "post") []])
    as [v | t] eqn:H; [| vm_compute in H; discriminate H].
  exists v. split; [reflexivity |].
  exact (proj1 (strategy_reports_are_numbered
                  v8SyntaxMessage v8TypeMessage (Ok tt) (modelSays strategyAnswer)
                  (fun _ _ => []) (fun _ _ => []) (str "seo"))
               [mkBlogPostData 1 (str "post") []] v H).
Defined.

Lemma competition_report_fields_witness :
  exists report,
    analyzeKeywordCompetition v8SyntaxMessage v8TypeMessage (Ok tt)
                              (modelSays competitionAnswer) noPrompt (str "seo tips")
    = Ok report
    /\ getProp report (str "wordCount") = Some (JInt 2).
Proof.
  destruct (analyzeKeywordCompetition v8SyntaxMessage v8TypeMessage (Ok tt)
                                      (modelSays competitionAnswer) noPrompt (str "seo tips"))
    as [report | t] eqn:H; [| vm_compute in H; discriminate H].
  exists report. split; [reflexivity |].
  destruct (competition_report_fields v8SyntaxMessage v8TypeMessage (Ok tt)
                                      (modelSays competitionAnswer) noPrompt
                                      (str "seo tips") report H)
    as (members & analysis & -> & _ & _ & _ & Hwords & _).
  cbn [getProp]. rewrite Hwords. reflexivity.
Defined.

Lemma google_suggestions_pass_through_witness :
  exists result,
    fetchRelatedKeywords v8SyntaxMessage rawUrl plainNumber (always (answers googleAnswer))
                         (str "seo") google = Ok result
    /\ map keyword result
       = [JString (str "seo tips"); JString (str "<b>seo</b>"); JString (str "seo tips")].
Proof.
  destruct (fetchRelatedKeywords v8SyntaxMessage rawUrl plainNumber
                                 (always (answers googleAnswer)) (str "seo") google)
    as [result | t] eqn:H; [| vm_compute in H; discriminate H].
  exists result. split; [reflexivity |].
  destruct (google_suggestions_pass_through
              v8SyntaxMessage rawUrl plainNumber (always (answers googleAnswer))
              (str "seo") result H) as (first & suggestions & rest & Hfetch & Hkw).
  assert (E : fetchWithProxies v8SyntaxMessage rawUrl (always (answers googleAnswer))
                               (googleUrl rawUrl (str "seo"))
                               (JSON_parse_value v8SyntaxMessage plainNumber)
              = Ok (JArray [JString (str "seo");
                            JArray [JString (str "seo tips"); JString (str "<b>seo</b>");
                                    JString (str "seo tips")]]))
    by (vm_compute; reflexivity).
  rewrite E in Hfetch.
  assert (Hs : suggestions = [JString (str "seo tips"); JString (str "<b>seo</b>");
                              JString (str "seo tips")]) by congruence.
  subst suggestions. exact Hkw.
Defined.

Lemma naver_empty_answers_give_empty_list_witness :
  trim (str "seo") <> []
  /\ In (Ok [])
        (naverSettlements v8SyntaxMessage rawUrl plainNumber
                          (always (answers emptyNaverAnswer)) (str "seo"))
  /\ fetchRelatedKeywords v8SyntaxMessage rawUrl plainNumber
                          (always (answers emptyNaverAnswer)) (str "seo") naver
     = Ok [].
Proof.
  assert (Hword : trim (str "seo") <> []) by (vm_compute; discriminate).
  assert (Hin : In (Ok [])
                   (naverSettlements v8SyntaxMessage rawUrl plainNumber
                                     (always (answers emptyNaverAnswer)) (str "seo"))).
  { vm_compute. left. reflexivity. }
  split; [exact Hword |]. split; [exact Hin |].
  apply (naver_empty_answers_give_empty_list
           v8SyntaxMessage rawUrl plainNumber (always (answers emptyNaverAnswer)) (str "seo")
           Hword (ex_intro (fun v => In (Ok v) _) _ Hin)).
  intros v Hv. vm_compute in Hv.
  repeat (destruct Hv as [Hv | Hv]; [injection Hv as <-; reflexivity |]). destruct Hv.
Defined.

Lemma weather_report_or_prefixed_error_witness :
  exists v,
    fetchCurrentWeather v8SyntaxMessage v8TypeMessage (Ok tt) (modelSays weatherAnswer) []
    = Ok v
    /\ Forall (fun k => truthyOpt (getProp v k) = true) weatherKeys.
Proof.
  pose proof (weather_report_or_prefixed_error
                v8SyntaxMessage v8TypeMessage (Ok tt) (modelSays weatherAnswer) [] eq_refl)
    as H.
  destruct (fetchCurrentWeather v8SyntaxMessage v8TypeMessage (Ok tt)
                                (modelSays weatherAnswer) [])
    as [v | t] eqn:E; [| vm_compute in E; discriminate E].
  destruct H as (text & _ & _ & Hall).
  exists v. split; [reflexivity | exact Hall].
Defined.

Lemma prompt_report_fields_witness :
  exists report kw,
    executePromptAsCompetitionAnalysis v8SyntaxMessage v8TypeMessage (Ok tt)
                                       (modelSays promptAnswer) noPrompt plainNumber
                                       (str "write a guide")
    = Ok report
    /\ getProp report (str "keyword") = Some (JString kw)
    /\ getProp report (str "wordCount") = Some (JNumber (numberOfZ (wordCount kw))).
Proof.
  destruct (executePromptAsCompetitionAnalysis v8SyntaxMessage v8TypeMessage (Ok tt)
                                               (modelSays promptAnswer) noPrompt plainNumber
                                               (str "write a guide"))
    as [report | t] eqn:H; [| vm_compute in H; discriminate H].
  destruct (prompt_report_fields v8SyntaxMessage v8TypeMessage (Ok tt)
                                 (modelSays promptAnswer) plainNumber noPrompt
                                 (str "write a guide") report H)
    as (text & answer & kw & analysis & members & _ & _ & -> & _ & Hkw & _ & _ & _ & _
        & Hwords & _).
  exists (JObject members), kw. split; [reflexivity |]. split; [exact Hkw | exact Hwords].
Defined.

Lemma stripTags_idempotent_witness :
  hasTag (str "seo tips") = false /\ stripTags (str "seo tips") = str "seo tips".
Proof.
  split; [reflexivity | exact (proj2 (stripTags_idempotent (str "seo tips")) eq_refl)].
Defined.
